(** * OrpheusDL helper scripts: a shallow embedding and its properties

    The development follows four Python programs:
    - [interactive_album_selector.py] (class [InteractiveAlbumSelector]),
    - [tui_album_selector.py] (class [TUIAlbumSelector]),
    - [sync_music.py] (class [MusicSyncer]),
    - [scripts/test_qobuz_login.py].

    Python strings are modelled as [string], a character being its code
    point below 256 (Latin-1).  Integers are [Z]; modification times, which
    Python reads as finite floats and only compares, are rationals [Q]. *)

From Stdlib Require Import ZArith QArith String Ascii List Bool Lia.
From stdpp Require Import base list strings gmap.

Local Open Scope string_scope.
Local Open Scope Z_scope.

(** ** Python string primitives *)

Module PyStr.

Definition code (c : ascii) : Z := Z.of_N (N_of_ascii c).

Definition between (lo hi : Z) (c : ascii) : bool :=
  (lo <=? code c) && (code c <=? hi).

(** [str.isspace] for a single character. *)
Definition isspace (c : ascii) : bool :=
  between 9 13 c || between 28 32 c || (code c =? 133) || (code c =? 160).

(** The characters [int] accepts as digits below code point 256. *)
Definition isdecimal (c : ascii) : bool := between 48 57 c.

(** [str.isalnum] for a single character. *)
Definition isalnum (c : ascii) : bool :=
  isdecimal c || between 65 90 c || between 97 122 c
  || (code c =? 170) || between 178 179 c || (code c =? 181)
  || between 185 186 c || between 188 190 c
  || between 192 214 c || between 216 246 c || between 248 255 c.

(** [str.lower], character by character. *)
Definition lower_char (c : ascii) : ascii :=
  if between 65 90 c || between 192 214 c || between 216 222 c
  then ascii_of_N (N_of_ascii c + 32) else c.

Fixpoint lower (s : string) : string :=
  match s with
  | EmptyString => EmptyString
  | String c s' => String (lower_char c) (lower s')
  end.

Fixpoint lstrip (s : string) : string :=
  match s with
  | EmptyString => EmptyString
  | String c s' => if isspace c then lstrip s' else s
  end.

Fixpoint rstrip (s : string) : string :=
  match s with
  | EmptyString => EmptyString
  | String c s' =>
      match rstrip s' with
      | EmptyString => if isspace c then EmptyString else String c EmptyString
      | r => String c r
      end
  end.

Definition strip (s : string) : string := rstrip (lstrip s).

(** [p] is a prefix of [s]: [s.startswith(p)]. *)
Fixpoint startswith (s p : string) : bool :=
  match p, s with
  | EmptyString, _ => true
  | String a p', String b s' => if ascii_dec a b then startswith s' p' else false
  | String _ _, EmptyString => false
  end.

(** [s.endswith(p)] is not needed; [x in s] for a substring [x]. *)
Fixpoint contains (s x : string) : bool :=
  startswith s x ||
  match s with
  | EmptyString => false
  | String _ s' => contains s' x
  end.

(** The generator expression [''.join(c for c in s if keep c)]. *)
Fixpoint filter (keep : ascii -> bool) (s : string) : string :=
  match s with
  | EmptyString => EmptyString
  | String c s' => if keep c then String c (filter keep s') else filter keep s'
  end.

(** The slice [s[:n]]. *)
Fixpoint take (n : nat) (s : string) : string :=
  match n, s with
  | O, _ => EmptyString
  | S _, EmptyString => EmptyString
  | S n', String c s' => String c (take n' s')
  end.

(** Every character of [s] satisfies [p]. *)
Fixpoint all_chars (p : ascii -> bool) (s : string) : bool :=
  match s with
  | EmptyString => true
  | String c s' => p c && all_chars p s'
  end.

(** [s.split()]: maximal runs of characters that are not whitespace.
    [cur] is the run being read, reversed. *)
Fixpoint split_aux (cur : list ascii) (s : string) : list string :=
  let flush := match cur with
               | [] => []
               | _ => [string_of_list_ascii (rev cur)]
               end in
  match s with
  | EmptyString => flush
  | String c s' =>
      if isspace c then flush ++ split_aux [] s'
      else split_aux (c :: cur) s'
  end.

Definition split (s : string) : list string := split_aux [] s.

(** Decimal digit of a number below ten. *)
Definition digit_char (d : Z) : ascii := ascii_of_N (Z.to_N (48 + d)).

(** Decimal expansion of a non-negative integer, most significant digit
    first; [fuel] bounds the number of digits. *)
Fixpoint digits (fuel : nat) (n : Z) (acc : string) : string :=
  match fuel with
  | O => String (digit_char (n mod 10)) acc
  | S fuel' =>
      if n <? 10 then String (digit_char n) acc
      else digits fuel' (n / 10) (String (digit_char (n mod 10)) acc)
  end.

Definition str_nonneg (n : Z) : string :=
  digits (Z.to_nat (Z.log2 n)) n EmptyString.

(** [str(n)] for an [int]. *)
Definition str_int (n : Z) : string :=
  if n <? 0 then String "-" (str_nonneg (- n)) else str_nonneg n.

(** [int(s)] on digits with single underscores between them, after an
    optional sign; [None] stands for [ValueError].  [acc] is the value
    read so far and [sep] tells that the previous character was an
    underscore. *)
Fixpoint int_digits (acc : Z) (sep : bool) (s : string) : option Z :=
  match s with
  | EmptyString => if sep then None else Some acc
  | String c s' =>
      if isdecimal c then int_digits (10 * acc + (code c - 48)) false s'
      else if ascii_dec c "_" then
        if sep then None else int_digits acc true s'
      else None
  end.

Definition int_unsigned (s : string) : option Z :=
  match s with
  | EmptyString => None
  | String c _ => if isdecimal c then int_digits 0 false s else None
  end.

Definition int (s : string) : option Z :=
  match strip s with
  | String "+" s' => int_unsigned s'
  | String "-" s' => Z.opp <$> int_unsigned s'
  | s' => int_unsigned s'
  end.

(** [str.isprintable] for a single character below code point 256. *)
Definition isprintable (c : ascii) : bool :=
  between 32 126 c || (between 161 255 c && negb (code c =? 173)).

(** The hexadecimal digit of a number below sixteen, in lower case. *)
Definition hex_digit (d : Z) : ascii :=
  ascii_of_N (Z.to_N (if d <? 10 then 48 + d else 87 + d)).

(** One character as [repr] writes it between quotes [quote]. *)
Definition repr_char (quote c : ascii) : string :=
  if Ascii.eqb c quote || (code c =? 92) then String "092" (String c "")
  else if code c =? 9 then String "092" "t"
  else if code c =? 10 then String "092" "n"
  else if code c =? 13 then String "092" "r"
  else if isprintable c then String c ""
  else String "092" (String "x" (String (hex_digit (code c / 16))
                                   (String (hex_digit (code c mod 16)) ""))).

Fixpoint repr_chars (quote : ascii) (s : string) : string :=
  match s with
  | EmptyString => EmptyString
  | String c s' => repr_char quote c ++ repr_chars quote s'
  end.

Fixpoint has_char (c : ascii) (s : string) : bool :=
  match s with
  | EmptyString => false
  | String d s' => Ascii.eqb c d || has_char c s'
  end.

(** [repr(s)]: between double quotes when [s] holds a single quote and
    no double quote, between single quotes otherwise; the quote used,
    the backslash and the characters that are not printable are
    escaped. *)
Definition repr (s : string) : string :=
  let quote :=
    if has_char "'" s && negb (has_char "034" s) then "034"%char else "'"%char in
  String quote (repr_chars quote s ++ String quote "").

End PyStr.

(** ** Python values, exceptions and lists *)

Module Py.

(** The values a dynamically typed attribute or dictionary entry holds
    in the programs below. *)
Inductive pyval :=
| PyNone
| PyInt (n : Z)
| PyStr (s : string).

(** Truth value of an object, as tested by [if v] and [not v]. *)
Definition truthy (v : pyval) : bool :=
  match v with
  | PyNone => false
  | PyInt n => negb (n =? 0)
  | PyStr s => negb (String.eqb s "")
  end.

(** [str(v)], as an f-string renders it. *)
Definition str (v : pyval) : string :=
  match v with
  | PyNone => "None"
  | PyInt n => PyStr.str_int n
  | PyStr s => s
  end.

Inductive exn :=
| ValueError
| IndexError
| KeyError (key : string)
| EOFError
| OSError.

(** [str(e)] of a caught exception.  The programs below print it for
    the [KeyError] of a missing dictionary key, where it is the [repr]
    of the key, and for the [IndexError] of an empty list; the three
    other texts are placeholders that no printed line is taken from. *)
Definition exn_str (e : exn) : string :=
  match e with
  | ValueError => "invalid literal for int()"
  | IndexError => "list index out of range"
  | KeyError k => PyStr.repr k
  | EOFError => "EOF when reading a line"
  | OSError => "[Errno]"
  end.

Definition len {A} (l : list A) : Z := Z.of_nat (length l).

(** [l.pop(idx)]: the element and the shortened list, [None] for
    [IndexError].  A negative index counts from the end. *)
Definition pop {A} (l : list A) (idx : Z) : option (A * list A) :=
  let i := if idx <? 0 then idx + len l else idx in
  if (0 <=? i) && (i <? len l) then
    match l !! Z.to_nat i with
    | Some x => Some (x, delete (Z.to_nat i) l)
    | None => None
    end
  else None.

(** [sorted(l, reverse=True)] on integers. *)
Fixpoint insert_desc (x : Z) (l : list Z) : list Z :=
  match l with
  | [] => [x]
  | y :: l' => if y <=? x then x :: l else y :: insert_desc x l'
  end.

Fixpoint sorted_reverse (l : list Z) : list Z :=
  match l with
  | [] => []
  | x :: l' => insert_desc x (sorted_reverse l')
  end.

(** [d.get(k)] / [k in d] on a dictionary kept as an association list. *)
Fixpoint dict_get {V} (d : list (string * V)) (k : string) : option V :=
  match d with
  | [] => None
  | (k', v) :: d' => if String.eqb k' k then Some v else dict_get d' k
  end.

(** The line feed written [\n] in the sources. *)
Definition nl : string := String "010" "".

End Py.

(** ** The catalog library's records *)

Module DownloadTypeEnum.
(** Modelled from the spec: the enumeration of download kinds of the
    catalog library ([utils.models]), which the service's URL-route table
    maps path segments to. *)
Inductive t := track | playlist | artist | album.

Definition eqb (a b : t) : bool :=
  match a, b with
  | track, track | playlist, playlist | artist, artist | album, album => true
  | _, _ => false
  end.
End DownloadTypeEnum.

Module ModuleInformation.
(** The net-location constant of a service is a string or a list of
    strings. *)
Inductive netloc :=
| NetStr (s : string)
| NetList (l : list string).

(** Modelled from the spec: the per-service settings record of the
    catalog library ([orpheus.module_settings[name]]): the service name,
    its net location, and its declared URL-route table (a dictionary from
    path segment to download kind, or [None]). *)
Record t := {
  service_name : string;
  netlocation_constant : netloc;
  url_constants : option (list (string * DownloadTypeEnum.t))
}.
End ModuleInformation.

Module AlbumInfo.
(** Modelled from the spec: the album metadata record of the catalog
    library ([utils.models.AlbumInfo]).  [attrs] holds the identifier
    attributes an instance may carry besides its declared fields
    ([album_id], [id], [albumId], [albumID]). *)
Record t := {
  name : string;
  artist : string;
  release_year : Z;
  duration : option Z;
  attrs : list (string * Py.pyval)
}.

(** [hasattr(a, k)] and [getattr(a, k)] on the identifier attributes. *)
Definition getattr (a : t) (k : string) : option Py.pyval :=
  Py.dict_get (attrs a) k.
End AlbumInfo.

(** ** Entries of the selection list *)

Module Selection.
(** One entry of [self.selected_albums]: a dictionary with the keys
    [artist], [album], [year], [module] and either [album_info] (added
    from a search) or [url] (loaded from a file). *)
Record t := {
  artist : string;
  album : string;
  year : Py.pyval;
  module : string;
  album_info : option AlbumInfo.t;
  url : option string
}.
End Selection.

(** ** Methods: state and exceptions *)

Module Eff.

Inductive result (A : Type) :=
| Ok (a : A)
| Raise (e : Py.exn).
Arguments Ok {A} a.
Arguments Raise {A} e.

(** A method over a mutable world [S]: it may change the world, and it
    returns or raises.  What was changed before a raise stays changed. *)
Definition M (S A : Type) : Type := S -> result A * S.

Definition ret {S A} (a : A) : M S A := fun st => (Ok a, st).

Definition bind {S A B} (m : M S A) (k : A -> M S B) : M S B :=
  fun st =>
    match m st with
    | (Ok a, st') => k a st'
    | (Raise e, st') => (Raise e, st')
    end.

Definition raise {S A} (e : Py.exn) : M S A := fun st => (Raise e, st).

(** [try: body except (...): handler], the handler taking the
    exceptions [catches] accepts. *)
Definition try_except {S A} (body : M S A) (catches : Py.exn -> bool)
    (handler : Py.exn -> M S A) : M S A :=
  fun st =>
    match body st with
    | (Raise e, st') => if catches e then handler e st' else (Raise e, st')
    | r => r
    end.

Definition get {S} : M S S := fun st => (Ok st, st).

Definition of_option {S A} (o : option A) (e : Py.exn) : M S A :=
  match o with
  | Some a => ret a
  | None => raise e
  end.

(** [for x in l: body x]. *)
Fixpoint for_each {S A} (l : list A) (body : A -> M S unit) : M S unit :=
  match l with
  | [] => ret tt
  | x :: l' => bind (body x) (fun _ => for_each l' body)
  end.

Declare Scope eff_scope.
Delimit Scope eff_scope with eff.
Notation "'let*' x := c 'in' k" := (bind c (fun x => k))
  (at level 10, x name, c at level 100, k at level 200) : eff_scope.
Notation "c >> k" := (bind c (fun _ => k))
  (at level 65, right associativity) : eff_scope.

(** Every run of [m] takes a world to one that [R] relates to it. *)
Definition steps {S A} (R : S -> S -> Prop) (m : M S A) : Prop :=
  forall st, R st (snd (m st)).

(** From a world in [P], [m] returns, a value and a world in [Q]. *)
Definition returns {S A} (P : S -> Prop) (m : M S A) (Q : A -> S -> Prop) : Prop :=
  forall st, P st -> exists a st', m st = (Ok a, st') /\ Q a st'.

End Eff.

(** ** State shared by the two album selectors *)

Module Sel.
Export Eff.
Local Open Scope eff_scope.

(** The selector object: the two parallel lists, and what has been
    printed so far (oldest line first). *)
Record state := {
  selected_albums : list Selection.t;
  album_urls : list string;
  stdout : list string
}.

Definition M (A : Type) : Type := Eff.M state A.

Definition print (line : string) : M unit :=
  fun st => (Ok tt, {| selected_albums := selected_albums st;
                       album_urls := album_urls st;
                       stdout := stdout st ++ [line] |}).

(** [input(...)], and [Prompt.ask(...)] of the rich library read as the
    answer it returns, on the lines left to read: the line and the
    lines left after it, [EOFError] at the end of the input.  The prompt
    written is not recorded. *)
Definition input (inputs : list string) : M (string * list string) :=
  match inputs with
  | [] => raise Py.EOFError
  | line :: rest => ret (line, rest)
  end.

Definition set_selected (l : list Selection.t) : M unit :=
  fun st => (Ok tt, {| selected_albums := l;
                       album_urls := album_urls st;
                       stdout := stdout st |}).

Definition set_urls (l : list string) : M unit :=
  fun st => (Ok tt, {| selected_albums := selected_albums st;
                       album_urls := l;
                       stdout := stdout st |}).

(** [self.selected_albums.append(r)], [self.album_urls.append(u)]. *)
Definition append_selected (r : Selection.t) : M unit :=
  let* st := get in set_selected (selected_albums st ++ [r]).

Definition append_url (u : string) : M unit :=
  let* st := get in set_urls (album_urls st ++ [u]).

(** [self.selected_albums.pop(idx)], [self.album_urls.pop(idx)]. *)
Definition pop_selected (idx : Z) : M Selection.t :=
  let* st := get in
  match Py.pop (selected_albums st) idx with
  | Some (x, l) => set_selected l >> ret x
  | None => raise Py.IndexError
  end.

Definition pop_url (idx : Z) : M string :=
  let* st := get in
  match Py.pop (album_urls st) idx with
  | Some (x, l) => set_urls l >> ret x
  | None => raise Py.IndexError
  end.

(** The two lists are in lockstep: one URL per selected album. *)
Definition lockstep (st : state) : Prop :=
  length (selected_albums st) = length (album_urls st).

(** The two lists of [st'] are those of [st]. *)
Definition same_lists (st st' : state) : Prop :=
  selected_albums st' = selected_albums st /\ album_urls st' = album_urls st.

(** Lockstep is kept from [st] to [st'], and nothing printed in [st] is
    taken back in [st']. *)
Definition keeps_lockstep (st st' : state) : Prop := lockstep st -> lockstep st'.
Definition grows (st st' : state) : Prop := stdout st `prefix_of` stdout st'.

(** The selector as [__init__] leaves it. *)
Definition init : state :=
  {| selected_albums := []; album_urls := []; stdout := [] |}.

(** The state [st] with [out] as what was printed. *)
Definition with_stdout (st : state) (out : list string) : state :=
  {| selected_albums := selected_albums st; album_urls := album_urls st;
     stdout := out |}.

End Sel.

(** ** [urllib.parse] *)

Module Urllib.

(** [url[:i]] is a scheme: a letter followed by letters, digits, [+],
    [-] and [.]. *)
Definition scheme_char (c : ascii) : bool :=
  PyStr.between 48 57 c || PyStr.between 65 90 c || PyStr.between 97 122 c
  || bool_decide (c = "+"%char) || bool_decide (c = "-"%char)
  || bool_decide (c = "."%char).

(** What follows the scheme and its colon, or the whole string when it
    has no scheme; [seen] tells that a first character was read. *)
Fixpoint after_scheme (seen : bool) (whole s : string) : string :=
  match s with
  | EmptyString => whole
  | String c s' =>
      if bool_decide (c = ":"%char) then (if seen then s' else whole)
      else if (if seen then scheme_char c
               else PyStr.between 65 90 c || PyStr.between 97 122 c)
      then after_scheme true whole s'
      else whole
  end.

(** The network location: what follows a leading [//] up to the next
    [/], [?] or [#]. *)
Fixpoint until_delimiter (s : string) : string :=
  match s with
  | EmptyString => EmptyString
  | String c s' =>
      if bool_decide (c = "/"%char) || bool_decide (c = "?"%char)
         || bool_decide (c = "#"%char)
      then EmptyString else String c (until_delimiter s')
  end.

(** The tabs, carriage returns and line feeds of a URL are deleted
    before anything else is looked at. *)
Definition unsafe_char (c : ascii) : bool :=
  (PyStr.code c =? 9) || (PyStr.code c =? 10) || (PyStr.code c =? 13).

Definition netloc (url : string) : string :=
  let url := PyStr.filter (fun c => negb (unsafe_char c)) url in
  match after_scheme false url url with
  | String "/" (String "/" rest) => until_delimiter rest
  | _ => EmptyString
  end.

(** The first check of [urlsplit], hence of [urlparse], that raises
    [ValueError] ("Invalid IPv6 URL"): the network location has one of
    the two square brackets without the other.  The later checks, of
    what stands between a pair of brackets, are not described: where
    this is [true] the call raises, not the other way round. *)
Definition invalid_ipv6 (url : string) : bool :=
  let n := netloc url in
  xorb (PyStr.contains n "[") (PyStr.contains n "]").

End Urllib.

(** ** Text files

    A text file holds a string; files are found by name.  Lines end as
    on a POSIX system, where writing leaves [\n] as it is, and reading
    takes [\r], [\n] and [\r\n] each for an end of line. *)

Module Files.

Definition disk := gmap string string.

Definition LF : ascii := "010"%char.
Definition CR : ascii := "013"%char.

(** [s.endswith(p)]: some suffix of [s] is [p]. *)
Fixpoint endswith (s p : string) : bool :=
  String.eqb s p
  || match s with
     | EmptyString => false
     | String _ s' => endswith s' p
     end.

(** What the loop [for url in urls: f.write(f"{url}\n")] writes. *)
Fixpoint written (urls : list string) : string :=
  match urls with
  | [] => ""
  | url :: rest => url ++ Py.nl ++ written rest
  end.

(** [f.readlines()]: the lines of the text, each with its end of line
    as [\n]; [cur] is the line read so far. *)
Fixpoint readlines_from (cur : string) (s : string) : list string :=
  match s with
  | EmptyString => if String.eqb cur "" then [] else [cur]
  | String c s' =>
      if Ascii.eqb c LF then (cur ++ Py.nl) :: readlines_from "" s'
      else if Ascii.eqb c CR then
        (cur ++ Py.nl)
        :: match s' with
           | String c' s'' =>
               if Ascii.eqb c' LF then readlines_from "" s'' else readlines_from "" s'
           | EmptyString => readlines_from "" s'
           end
      else readlines_from (cur ++ String c "") s'
  end.

Definition readlines (content : string) : list string := readlines_from "" content.

(** A string without an end of line in it. *)
Definition one_line (s : string) : bool :=
  PyStr.all_chars (fun c => negb (Ascii.eqb c LF || Ascii.eqb c CR)) s.

End Files.

(** ** What the two selectors share *)

Module Common.
Import Sel.
Local Open Scope eff_scope.

(** The literal [domain_mapping] of [generate_album_url]. *)
Definition domain_mapping : list (string * string) :=
  [("qobuz", "play.qobuz.com"); ("tidal", "tidal.com");
   ("spotify", "open.spotify.com"); ("deezer", "deezer.com");
   ("apple", "music.apple.com")].

(** [domain_mapping.get(netloc, f"{netloc}.com")]. *)
Definition domain_of (netloc : string) : string :=
  match Py.dict_get domain_mapping netloc with
  | Some d => d
  | None => netloc ++ ".com"
  end.

(** The path segment of albums: the first key of [url_constants] mapped
    to [DownloadTypeEnum.album], ['album'] when the table is [None],
    empty, or has no such key. *)
Definition album_path_of
    (url_constants : option (list (string * DownloadTypeEnum.t))) : string :=
  match url_constants with
  | Some d =>
      match List.find (fun e => DownloadTypeEnum.eqb (snd e) DownloadTypeEnum.album) d with
      | Some (path, _) => path
      | None => "album"
      end
  | None => "album"
  end.

(** [netloc_constant[0]] when the constant is a list. *)
Definition first_netloc (n : ModuleInformation.netloc) : result string :=
  match n with
  | ModuleInformation.NetStr s => Ok s
  | ModuleInformation.NetList (s :: _) => Ok s
  | ModuleInformation.NetList [] => Raise Py.IndexError
  end.

(** The characters the fallback comment keeps of an album name. *)
Definition safe_char (c : ascii) : bool :=
  PyStr.isalnum c
  || bool_decide (c = " "%char) || bool_decide (c = "-"%char)
  || bool_decide (c = "_"%char).

Definition safe_name (a : AlbumInfo.t) : string :=
  PyStr.strip (PyStr.filter safe_char (AlbumInfo.name a)).

(** The placeholder comment of the [except] branch. *)
Definition fallback_comment (a : AlbumInfo.t) : string :=
  "# " ++ safe_name a ++ " (" ++ PyStr.str_int (AlbumInfo.release_year a)
  ++ ") - " ++ AlbumInfo.artist a.

(** The text that is hashed when an album has no identifier. *)
Definition hash_key (a : AlbumInfo.t) : string :=
  AlbumInfo.name a ++ "_" ++ AlbumInfo.artist a ++ "_"
  ++ PyStr.str_int (AlbumInfo.release_year a).

(** [str(abs(h))[:10]] for a hash value [h]. *)
Definition pseudo_id (h : Z) : string :=
  PyStr.take 10 (PyStr.str_int (Z.abs h)).

(** The record appended for an album chosen from a search. *)
Definition searched (module_name artist_name : string) (a : AlbumInfo.t)
    : Selection.t :=
  {| Selection.artist := artist_name;
     Selection.album := AlbumInfo.name a;
     Selection.year := Py.PyInt (AlbumInfo.release_year a);
     Selection.module := module_name;
     Selection.album_info := Some a;
     Selection.url := None |}.

(** The record appended for a line loaded from a file. *)
Definition loaded (line : string) : Selection.t :=
  {| Selection.artist := "Unknown";
     Selection.album := "Unknown";
     Selection.year := Py.PyStr "Unknown";
     Selection.module := "Unknown";
     Selection.album_info := None;
     Selection.url := Some line |}.

(** The test [line and not line.startswith('#') and
    line.startswith('http')] of [load_existing_file]. *)
Definition is_url_line (line : string) : bool :=
  negb (String.eqb line "") && negb (PyStr.startswith line "#")
  && PyStr.startswith line "http".

(** The lines of a links file that a load appends to the URL list
    [urls], in order: the stripped lines that are URLs and are neither in
    [urls] nor appended already. *)
Fixpoint new_urls (urls lines : list string) : list string :=
  match lines with
  | [] => []
  | raw :: rest =>
      let line := PyStr.strip raw in
      if is_url_line line && negb (bool_decide (line ∈ urls))
      then line :: new_urls (urls ++ [line]) rest
      else new_urls urls rest
  end.

(** The stripped lines of a file. *)
Definition stripped_lines (lines : list string) : list string :=
  map PyStr.strip lines.

(** [0 <= idx < len(self.selected_albums)]. *)
Definition in_range (idx : Z) (st : state) : bool :=
  (0 <=? idx) && (idx <? Py.len (selected_albums st)).

Definition catches_value_index (e : Py.exn) : bool :=
  match e with
  | Py.ValueError | Py.IndexError => true
  | _ => false
  end.

(** What a command of the management loop does to the loop. *)
Inductive signal := Break | Continue.

(** The line typed is a removal command, and the tokens after its first
    word. *)
Definition is_remove (line : string) : bool :=
  PyStr.startswith (PyStr.lower (PyStr.strip line)) "remove ".

Definition tokens (line : string) : list string :=
  tail (PyStr.split (PyStr.lower (PyStr.strip line))).

(** A token is the 1-based number of a selected album, or an integer that
    is not. *)
Definition token_in_range (st : state) (t : string) : Prop :=
  exists n, PyStr.int t = Some n /\ in_range (n - 1) st = true.

(** The same tests as functions of the length of the selection. *)
Definition goodb (len : Z) (t : string) : bool :=
  match PyStr.int t with
  | Some n => (0 <=? n - 1) && (n - 1 <? len)
  | None => false
  end.

Definition oorb (len : Z) (t : string) : bool :=
  match PyStr.int t with
  | Some n => negb ((0 <=? n - 1) && (n - 1 <? len))
  | None => false
  end.

(** A list without its entries at the 0-based positions [i] and [i+1]. *)
Definition without_two {A} (i : nat) (l : list A) : list A :=
  (take i l ++ drop (2 + i) l)%list.

(** The 0-based index a token stands for. *)
Definition index_of (t : string) : Z := default 0 (PyStr.int t) - 1.

Definition token_out_of_range (st : state) (t : string) : Prop :=
  exists n, PyStr.int t = Some n /\ in_range (n - 1) st = false.

(** A list without its entries at the 0-based positions [idxs]; [k] is
    the position of the head of [l]. *)
Fixpoint omit_from {A} (k : Z) (idxs : list Z) (l : list A) : list A :=
  match l with
  | [] => []
  | x :: l' =>
      if bool_decide (k ∈ idxs) then omit_from (k + 1) idxs l'
      else x :: omit_from (k + 1) idxs l'
  end.

Definition omit {A} (idxs : list Z) (l : list A) : list A := omit_from 0 idxs l.

(** The list left by [l.pop(i)] for each [i] of [idxs] in turn. *)
Definition pops {A} (idxs : list Z) (l : list A) : list A :=
  fold_left (fun l i => delete (Z.to_nat i) l) idxs l.

(** What [display_albums] returns: ['quit'], ['back'], or the list of
    the albums chosen. *)
Inductive picked :=
| Quit
| Back
| Albums (chosen : list AlbumInfo.t).

(** A token is the 1-based number of one of [albums]. *)
Definition numbers_album (albums : list AlbumInfo.t) (t : string) : Prop :=
  exists n, PyStr.int t = Some n /\ 1 <= n <= Py.len albums.

Definition catches_value (e : Py.exn) : bool :=
  match e with
  | Py.ValueError => true
  | _ => false
  end.

(** The [for selection in selections] loop of [display_albums] with its
    [else]: the albums at the numbers typed, or [None] after the [break]
    at a number out of range, which [invalid] reports. *)
Fixpoint pick_albums (invalid : string -> string) (albums : list AlbumInfo.t)
    (selections : list string) (selected_albums : list AlbumInfo.t)
    : M (option (list AlbumInfo.t)) :=
  match selections with
  | [] => ret (Some selected_albums)
  | selection :: rest =>
      let* n := of_option (PyStr.int selection) Py.ValueError in
      let idx := n - 1 in
      if (0 <=? idx) && (idx <? Py.len albums) then
        let* album := of_option (albums !! Z.to_nat idx) Py.IndexError in
        pick_albums invalid albums rest (selected_albums ++ [album])
      else print (invalid selection) >> ret None
  end.

(** The assignment [album_info.album_id = album_id]. *)
Definition set_album_id (album_id : Py.pyval) (a : AlbumInfo.t) : AlbumInfo.t :=
  {| AlbumInfo.name := AlbumInfo.name a;
     AlbumInfo.artist := AlbumInfo.artist a;
     AlbumInfo.release_year := AlbumInfo.release_year a;
     AlbumInfo.duration := AlbumInfo.duration a;
     AlbumInfo.attrs :=
       ("album_id", album_id)
       :: List.filter (fun kv => negb (String.eqb (fst kv) "album_id"))
            (AlbumInfo.attrs a) |}.

(** The loop [for album_id in artist_info.albums] of
    [get_artist_albums].  [get_album_info] is the call into the
    service's module, which returns a new record at each call or raises
    an exception whose text is [inl]; [warning] is the line printed
    then. *)
Fixpoint fetch_albums (warning : Py.pyval -> string -> string)
    (get_album_info : Py.pyval -> string + AlbumInfo.t)
    (album_ids : list Py.pyval) (albums : list AlbumInfo.t)
    : M (list AlbumInfo.t) :=
  match album_ids with
  | [] => ret albums
  | album_id :: rest =>
      match get_album_info album_id with
      | inr album_info =>
          fetch_albums warning get_album_info rest
            (albums ++ [set_album_id album_id album_info])
      | inl e =>
          print (warning album_id e) >>
          fetch_albums warning get_album_info rest albums
      end
  end.

(** The operations of the main menu that change the selection: adding
    the albums chosen for an artist, a visit to the management screen
    with the answers typed there (and the answer a confirmation would
    get), and loading a links file with the lines read from it ([None]
    when there is no such file).  [inputs] are the lines typed during
    the operation, for a load the file name first. *)
Inductive mutation :=
| AddAlbums (module_name : string) (albums : list AlbumInfo.t) (artist_name : string)
    (inputs : list string)
| Manage (answers : list (string * bool))
| LoadFile (inputs : list string) (content : option (list string)).

End Common.

(** ** [InteractiveAlbumSelector] (interactive_album_selector.py) *)

Module Interactive.
Import Sel Common.
Local Open Scope eff_scope.

Section WithOrpheus.

(** [self.orpheus.module_settings], a dictionary by module name. *)
Variable module_settings : list (string * ModuleInformation.t).
(** The built-in [hash] on strings. *)
Variable hash : string -> Z.
(** [orpheus.music_downloader.beauty_format_seconds]. *)
Variable beauty_format_seconds : Z -> string.
(** Whether [urllib.parse.urlparse] raises on a string. *)
Variable urlparse_raises : string -> bool.

(** The strings [urlparse] accepts. *)
Definition parses (u : string) : bool := negb (urlparse_raises u).

(** The identifier taken from the album record, [None] when no
    attribute gives one. *)
Fixpoint probe_dict (a : AlbumInfo.t) (names : list string) : Py.pyval :=
  match names with
  | [] => Py.PyNone
  | attr_name :: rest =>
      match AlbumInfo.getattr a attr_name with
      | Some v => if Py.truthy v then v else probe_dict a rest
      | None => probe_dict a rest
      end
  end.

Definition stored_id (a : AlbumInfo.t) : Py.pyval :=
  match AlbumInfo.getattr a "album_id" with
  | Some v =>
      if Py.truthy v then v
      else match AlbumInfo.getattr a "id" with
           | Some w => w
           | None => probe_dict a ["album_id"; "id"; "albumId"; "albumID"]
           end
  | None =>
      match AlbumInfo.getattr a "id" with
      | Some w => w
      | None => probe_dict a ["album_id"; "id"; "albumId"; "albumID"]
      end
  end.

(** The [try] block of [generate_album_url]. *)
Definition build_url (module_name : string) (a : AlbumInfo.t) : result string :=
  match Py.dict_get module_settings module_name with
  | None => Raise (Py.KeyError module_name)
  | Some settings =>
      match first_netloc (ModuleInformation.netlocation_constant settings) with
      | Raise e => Raise e
      | Ok netloc_constant =>
          let domain := domain_of netloc_constant in
          let album_path := album_path_of (ModuleInformation.url_constants settings) in
          let album_id := stored_id a in
          let album_id :=
            if Py.truthy album_id then album_id
            else Py.PyStr (pseudo_id (hash (hash_key a))) in
          Ok ("https://" ++ domain ++ "/" ++ album_path ++ "/" ++ Py.str album_id)
      end
  end.

Definition generate_album_url (module_name : string) (a : AlbumInfo.t) : M string :=
  match build_url module_name a with
  | Ok url => ret url
  | Raise e =>
      print ("Warning: Could not generate URL for " ++ AlbumInfo.name a
             ++ ": " ++ Py.exn_str e) >>
      ret (fallback_comment a)
  end.

Definition duration_str (a : AlbumInfo.t) : string :=
  match AlbumInfo.duration a with
  | Some d => if d =? 0 then "" else " [" ++ beauty_format_seconds d ++ "]"
  | None => ""
  end.

Definition add_selected_albums (module_name : string)
    (albums : list AlbumInfo.t) (artist_name : string) : M unit :=
  match albums with
  | [] => ret tt
  | _ =>
      print (Py.nl ++ "Adding " ++ PyStr.str_int (Py.len albums)
             ++ " album(s) from " ++ artist_name ++ ":") >>
      for_each albums (fun album =>
        append_selected (searched module_name artist_name album) >>
        let* url := generate_album_url module_name album in
        append_url url >>
        print ("  ✓ " ++ AlbumInfo.name album ++ " ("
               ++ PyStr.str_int (AlbumInfo.release_year album) ++ ")"
               ++ duration_str album)) >>
      let* st := get in
      print (Py.nl ++ "Total albums selected: "
             ++ PyStr.str_int (Py.len (selected_albums st)))
  end.

(** The first loop of the [remove] branch: the 0-based indices of the
    tokens in range, each token out of range being reported. *)
Fixpoint collect_indices (numbers : list string) (indices_to_remove : list Z)
    : M (list Z) :=
  match numbers with
  | [] => ret indices_to_remove
  | num :: rest =>
      let* n := of_option (PyStr.int num) Py.ValueError in
      let idx := n - 1 in
      let* st := get in
      if in_range idx st then collect_indices rest (indices_to_remove ++ [idx])
      else print ("Invalid album number: " ++ num) >>
           collect_indices rest indices_to_remove
  end.

(** The second loop: pop both lists at each index. *)
Definition pop_both (idx : Z) : M unit :=
  let* removed := pop_selected idx in
  let* _ := pop_url idx in
  print ("  Removed: " ++ Selection.artist removed ++ " - "
         ++ Selection.album removed).

(** The body of the [try] of the [remove] branch. *)
Definition remove_body (choice : string) : M signal :=
  let numbers := tail (PyStr.split choice) in
  let* indices_to_remove := collect_indices numbers [] in
  for_each (Py.sorted_reverse indices_to_remove) pop_both >>
  let* st := get in
  print ("Remaining albums: " ++ PyStr.str_int (Py.len (selected_albums st))) >>
  ret Break.

Definition remove_command (choice : string) : M signal :=
  try_except (remove_body choice) catches_value_index (fun _ =>
    print "Invalid format. Use 'remove [numbers]' (e.g., 'remove 1 3 5')" >>
    ret Continue).

Definition clear_command : M signal :=
  set_selected [] >> set_urls [] >> print "All albums removed." >> ret Break.

(** One turn of the [while True] loop of [show_selected_albums], on
    the line [input] returned. *)
Definition command (line : string) : M signal :=
  let choice := PyStr.lower (PyStr.strip line) in
  if String.eqb choice "back" then ret Break
  else if String.eqb choice "clear" then clear_command
  else if PyStr.startswith choice "remove " then remove_command choice
  else print "Invalid command." >> ret Continue.

(** The loop, reading the lines of [inputs]; the lines left unread are
    returned.  Reading past the last line raises [EOFError]. *)
Fixpoint command_loop (inputs : list string) : M (list string) :=
  match inputs with
  | [] => raise Py.EOFError
  | line :: rest =>
      let* s := command line in
      match s with
      | Break => ret rest
      | Continue => command_loop rest
      end
  end.

Definition show_line (i : Z) (r : Selection.t) : string :=
  PyStr.str_int i ++ ". " ++ Selection.artist r ++ " - " ++ Selection.album r
  ++ " (" ++ Py.str (Selection.year r) ++ ") [" ++ Selection.module r ++ "]".

Fixpoint show_lines (i : Z) (l : list Selection.t) : M unit :=
  match l with
  | [] => ret tt
  | r :: l' => print (show_line i r) >> show_lines (i + 1) l'
  end.

Definition show_selected_albums (inputs : list string) : M (list string) :=
  let* st := get in
  match selected_albums st with
  | [] => print "No albums selected yet." >> ret inputs
  | _ =>
      print (Py.nl ++ "Selected Albums ("
             ++ PyStr.str_int (Py.len (selected_albums st)) ++ "):") >>
      print "============================================================" >>
      show_lines 1 (selected_albums st) >>
      print (Py.nl ++ "Commands:") >>
      print "- 'remove [numbers]' to remove specific albums (e.g., 'remove 1 3 5')" >>
      print "- 'clear' to remove all albums" >>
      print "- 'back' to return to main menu" >>
      command_loop inputs
  end.

(** The body of the [for line in lines] loop of [load_existing_file];
    [loaded_count] is threaded through. *)
Definition load_line (raw : string) (loaded_count : Z) : M Z :=
  let line := PyStr.strip raw in
  if is_url_line line then
    let* st := get in
    if bool_decide (line ∈ album_urls st) then ret loaded_count
    else
      append_url line >>
      try_except
        ((if urlparse_raises line then raise Py.ValueError else ret tt) >>
         append_selected (loaded line) >>
         ret (loaded_count + 1))
        (fun _ => true)
        (fun _ => ret loaded_count)
  else ret loaded_count.

Fixpoint load_lines (lines : list string) (loaded_count : Z) : M Z :=
  match lines with
  | [] => ret loaded_count
  | raw :: rest =>
      let* c := load_line raw loaded_count in
      load_lines rest c
  end.

(** The [try] block of [load_existing_file], on the lines [readlines]
    returned for the file. *)
Definition load_file (filename : string) (lines : list string) : M unit :=
  let* loaded_count := load_lines lines 0 in
  print ("✓ Loaded " ++ PyStr.str_int loaded_count
         ++ " new album URLs from " ++ filename) >>
  let* st := get in
  print ("Total albums now: " ++ PyStr.str_int (Py.len (album_urls st))).

(** [load_existing_file], on the lines [input] will return, the file
    name first, and the lines [readlines] returns for a name ([None]
    when no such file exists); the lines left unread are returned.
    Both ways out of a named file end with the prompt
    [Press Enter to continue...]. *)
Definition load_existing_file (inputs : list string)
    (file : string -> option (list string)) : M (list string) :=
  let* typed := input inputs in
  let filename := PyStr.strip (fst typed) in
  if String.eqb filename "" then ret (snd typed)
  else
    match file filename with
    | None => print ("File " ++ filename ++ " not found.")
    | Some lines => load_file filename lines
    end >>
    let* enter := input (snd typed) in
    ret (snd enter).

(** One operation of the main menu, an exception ending it as the menu's
    caller would see it. *)
Definition perform (o : mutation) : M unit :=
  match o with
  | AddAlbums module_name albums artist_name _ =>
      add_selected_albums module_name albums artist_name
  | Manage answers => show_selected_albums (map fst answers) >> ret tt
  | LoadFile inputs content => load_existing_file inputs (fun _ => content) >> ret tt
  end.

(** The selector after a sequence of operations. *)
Definition perform_all (ops : list mutation) (st : state) : state :=
  fold_left (fun st o => snd (perform o st)) ops st.

(** [album.explicit] and [album.quality] (the empty string when there
    is none), attributes of the library's album record that only the
    listing of [display_albums] reads. *)
Variable explicit : AlbumInfo.t -> bool.
Variable quality : AlbumInfo.t -> string.

Definition album_line (i : Z) (album : AlbumInfo.t) : string :=
  PyStr.str_int i ++ ". " ++ AlbumInfo.name album ++ " ("
  ++ PyStr.str_int (AlbumInfo.release_year album) ++ ")"
  ++ (if explicit album then " [E]" else "")
  ++ duration_str album
  ++ (if String.eqb (quality album) "" then "" else " [" ++ quality album ++ "]").

Fixpoint album_lines (i : Z) (albums : list AlbumInfo.t) : M unit :=
  match albums with
  | [] => ret tt
  | album :: rest => print (album_line i album) >> album_lines (i + 1) rest
  end.

(** One turn of the [while True] loop of [display_albums], on the line
    [input] returned: what is returned, or [None] when the loop goes
    on.  What [input] writes as its prompt is not recorded. *)
Definition select_albums (albums : list AlbumInfo.t) (line : string)
    : M (option picked) :=
  let choice := PyStr.lower (PyStr.strip line) in
  if bool_decide (choice ∈ ["q"; "quit"; "exit"]) then ret (Some Quit)
  else if String.eqb choice "back" then ret (Some Back)
  else if String.eqb choice "all" then ret (Some (Albums albums))
  else if String.eqb choice "none" then ret (Some (Albums []))
  else
    try_except
      (let* chosen :=
         pick_albums (fun selection => "Invalid album number: " ++ selection)
           albums (PyStr.split choice) [] in
       ret (Albums <$> chosen))
      catches_value
      (fun _ =>
         print "Please enter valid album numbers separated by spaces." >>
         ret None).

(** The loop, reading the lines of [inputs]; the lines left unread are
    returned with the choice. *)
Fixpoint select_loop (albums : list AlbumInfo.t) (inputs : list string)
    : M (picked * list string) :=
  match inputs with
  | [] => raise Py.EOFError
  | line :: rest =>
      let* r := select_albums albums line in
      match r with
      | Some p => ret (p, rest)
      | None => select_loop albums rest
      end
  end.

Definition display_albums (albums : list AlbumInfo.t) (artist_name : string)
    (inputs : list string) : M (picked * list string) :=
  match albums with
  | [] =>
      print ("No albums found for " ++ artist_name ++ ".") >>
      ret (Albums [], inputs)
  | _ =>
      print (Py.nl ++ "Albums by " ++ artist_name ++ ":") >>
      print "--------------------------------------------------" >>
      album_lines 1 albums >>
      print (Py.nl ++ "Commands:") >>
      print "- Enter album numbers separated by spaces (e.g., '1 3 5')" >>
      print "- 'all' to select all albums" >>
      print "- 'none' to select no albums" >>
      print "- 'back' to go back" >>
      print "- 'quit' to exit" >>
      select_loop albums inputs
  end.

(** [self.available_modules]. *)
Variable available_modules : list string.

(** What [select_module] comes to: the module returned, or
    [sys.exit(0)]. *)
Inductive module_choice :=
| Module_ (module : string)
| Exit.

(** [str.isdigit]: a digit is a decimal character or a superscript
    one, two or three. *)
Definition isdigit (s : string) : bool :=
  negb (String.eqb s "")
  && PyStr.all_chars (fun c => PyStr.isdecimal c || PyStr.between 178 179 c
                               || (PyStr.code c =? 185)) s.

(** [self.orpheus.module_settings[module].service_name]. *)
Definition service_name_of (module : string) : M string :=
  match Py.dict_get module_settings module with
  | Some settings => ret (ModuleInformation.service_name settings)
  | None => raise (Py.KeyError module)
  end.

Fixpoint module_lines (i : Z) (modules : list string) : M unit :=
  match modules with
  | [] => ret tt
  | module :: rest =>
      let* service_name := service_name_of module in
      print (PyStr.str_int i ++ ". " ++ service_name ++ " (" ++ module ++ ")") >>
      module_lines (i + 1) rest
  end.

(** The loop [for module in self.available_modules] that looks for a
    service name. *)
Fixpoint by_service_name (choice : string) (modules : list string)
    : M (option string) :=
  match modules with
  | [] => ret None
  | module :: rest =>
      let* service_name := service_name_of module in
      if String.eqb choice (PyStr.lower service_name) then ret (Some module)
      else by_service_name choice rest
  end.

(** One turn of the [while True] loop of [select_module], on the line
    [input] returned; [None] when the loop goes on. *)
Definition choose_module (line : string) : M (option module_choice) :=
  let choice := PyStr.lower (PyStr.strip line) in
  try_except
    (let* by_number :=
       if isdigit choice then
         let* n := of_option (PyStr.int choice) Py.ValueError in
         let idx := n - 1 in
         if (0 <=? idx) && (idx <? Py.len available_modules) then
           let* module := of_option (available_modules !! Z.to_nat idx) Py.IndexError in
           ret (Some module)
         else ret None
       else ret None in
     match by_number with
     | Some module => ret (Some (Module_ module))
     | None =>
         if bool_decide (choice ∈ available_modules) then ret (Some (Module_ choice))
         else
           let* by_name := by_service_name choice available_modules in
           match by_name with
           | Some module => ret (Some (Module_ module))
           | None => print "Invalid selection. Try again." >> ret None
           end
     end)
    catches_value
    (fun _ => print (Py.nl ++ "Exiting...") >> ret (Some Exit)).

Fixpoint module_loop (inputs : list string) : M (module_choice * list string) :=
  match inputs with
  | [] => raise Py.EOFError
  | line :: rest =>
      let* r := choose_module line in
      match r with
      | Some c => ret (c, rest)
      | None => module_loop rest
      end
  end.

(** [select_module], on the lines [input] will return; the lines left
    unread are returned with the choice. *)
Definition select_module (inputs : list string) : M (module_choice * list string) :=
  match available_modules with
  | [module] => print ("Using module: " ++ module) >> ret (Module_ module, inputs)
  | _ =>
      print "Available modules:" >>
      module_lines 1 available_modules >>
      module_loop inputs
  end.

End WithOrpheus.

(** *** Looking up an artist *)

(** [get_artist_albums]: [artist_albums] is
    [load_module(module_name).get_artist_info(artist_id,
    get_credited_albums=True).albums], a list of identifiers, and
    [get_album_info] the call [module.get_album_info(album_id)];
    [inl] is the text of an exception raised there. *)
Definition get_artist_albums (artist_albums : string + list Py.pyval)
    (get_album_info : Py.pyval -> string + AlbumInfo.t) : M (list AlbumInfo.t) :=
  match artist_albums with
  | inr album_ids =>
      fetch_albums
        (fun album_id e =>
           "Warning: Could not get info for album " ++ Py.str album_id ++ ": " ++ e)
        get_album_info album_ids []
  | inl e => print ("Error getting artist albums: " ++ e) >> ret []
  end.

Section WithSearch.

(** The search results of the catalog library: [name r] is the text of
    [result.name], [year r] that of [result.year], empty when there is
    none, and [additional r] the list [result.additional], empty when
    there is none. *)
Variable SearchResult : Type.
Variable name : SearchResult -> string.
Variable year : SearchResult -> string.
Variable additional : SearchResult -> list string.

(** What [display_search_results] returns: [None], ['quit'],
    ['search_again'], ['back'], or one of the results. *)
Inductive found :=
| NoResults
| QuitSearch
| SearchAgain
| BackToMenu
| Artist (result : SearchResult).

(** [', '.join(l)]. *)
Fixpoint comma_join (l : list string) : string :=
  match l with
  | [] => ""
  | [a] => a
  | a :: l' => a ++ ", " ++ comma_join l'
  end.

Definition result_line (i : Z) (result : SearchResult) : string :=
  PyStr.str_int i ++ ". " ++ name result
  ++ (if String.eqb (year result) "" then "" else " (" ++ year result ++ ")")
  ++ match additional result with
     | [] => ""
     | l => " " ++ comma_join l
     end.

Fixpoint result_lines (i : Z) (results : list SearchResult) : M unit :=
  match results with
  | [] => ret tt
  | result :: rest => print (result_line i result) >> result_lines (i + 1) rest
  end.

(** One turn of the [while True] loop of [display_search_results], on
    the line [input] returned; [None] when the loop goes on. *)
Definition choose_result (results : list SearchResult) (line : string)
    : M (option found) :=
  let choice := PyStr.strip line in
  if bool_decide (PyStr.lower choice ∈ ["q"; "quit"; "exit"]) then ret (Some QuitSearch)
  else if String.eqb choice (PyStr.str_int (Py.len results + 1)) then ret (Some SearchAgain)
  else if String.eqb choice (PyStr.str_int (Py.len results + 2)) then ret (Some BackToMenu)
  else
    try_except
      (let* n := of_option (PyStr.int choice) Py.ValueError in
       let idx := n - 1 in
       if (0 <=? idx) && (idx <? Py.len results) then
         let* result := of_option (results !! Z.to_nat idx) Py.IndexError in
         ret (Some (Artist result))
       else print "Invalid selection." >> ret None)
      catches_value
      (fun _ => print "Please enter a valid number." >> ret None).

Fixpoint result_loop (results : list SearchResult) (inputs : list string)
    : M (found * list string) :=
  match inputs with
  | [] => raise Py.EOFError
  | line :: rest =>
      let* r := choose_result results line in
      match r with
      | Some c => ret (c, rest)
      | None => result_loop results rest
      end
  end.

Definition display_search_results (results : list SearchResult)
    (inputs : list string) : M (found * list string) :=
  match results with
  | [] => print "No results found." >> ret (NoResults, inputs)
  | _ =>
      print (Py.nl ++ "Search Results:") >>
      print "----------------------------------------" >>
      result_lines 1 results >>
      print (PyStr.str_int (Py.len results + 1) ++ ". Search again") >>
      print (PyStr.str_int (Py.len results + 2) ++ ". Back to main menu") >>
      result_loop results inputs
  end.

End WithSearch.

Arguments NoResults {SearchResult}.
Arguments QuitSearch {SearchResult}.
Arguments SearchAgain {SearchResult}.
Arguments BackToMenu {SearchResult}.
Arguments Artist {SearchResult} result.
Arguments choose_result {SearchResult} results line.
Arguments result_loop {SearchResult} results inputs.
Arguments display_search_results {SearchResult} name year additional results inputs.

(** *** Saving the list

    The selector together with the text files it reads and writes. *)

Definition Saving (A : Type) : Type := Eff.M (state * Files.disk) A.

(** A method of the selector that leaves the files alone. *)
Definition on_selector {A} (m : M A) : Saving A :=
  fun w => let (r, st) := m (fst w) in (r, (st, snd w)).

(** [input(...)] on the lines left to read. *)
Definition input (inputs : list string) : Saving (string * list string) :=
  match inputs with
  | [] => raise Py.EOFError
  | line :: rest => ret (line, rest)
  end.

Section WithDisk.

(** Whether [open(filename, 'w')] raises [OSError], and the text of
    that error. *)
Variable unwritable : string -> bool.
Variable strerror : string -> string.

Definition open_w (filename : string) : Saving unit :=
  if unwritable filename then raise Py.OSError else ret tt.

(** The file is truncated when it is opened and written when the
    [with] block ends. *)
Definition write_lines (filename : string) (urls : list string) : Saving unit :=
  fun w => (Ok tt, (fst w, <[filename := Files.written urls]> (snd w))).

Definition save_to_file (filename : string) : Saving unit :=
  let* w := get in
  match album_urls (fst w) with
  | [] => on_selector (print "No albums to save.")
  | urls =>
      try_except
        (open_w filename >>
         write_lines filename urls >>
         on_selector (print ("✓ Saved " ++ PyStr.str_int (Py.len urls)
                             ++ " album URLs to " ++ filename)))
        (fun _ => true)
        (fun _ => on_selector (print ("Error saving to file: " ++ strerror filename)))
  end.

(** The file name the save dialog settles on. *)
Definition with_txt (typed : string) : string :=
  let filename := PyStr.strip typed in
  let filename := if String.eqb filename "" then "album_links.txt" else filename in
  if Files.endswith filename ".txt" then filename else filename ++ ".txt".

(** [save_workflow], on the lines [input] will return; the lines left
    unread are returned. *)
Definition save_workflow (inputs : list string) : Saving (list string) :=
  let* w := get in
  match album_urls (fst w) with
  | [] =>
      on_selector (print "No albums selected to save.") >>
      let* r := input inputs in
      ret (snd r)
  | urls =>
      on_selector (print (Py.nl ++ "You have " ++ PyStr.str_int (Py.len urls)
                          ++ " album(s) ready to save.")) >>
      let* r := input inputs in
      let filename := with_txt (fst r) in
      let* w := get in
      if bool_decide (is_Some (snd w !! filename)) then
        let* r' := input (snd r) in
        let overwrite := PyStr.lower (PyStr.strip (fst r')) in
        if bool_decide (overwrite ∈ ["y"; "yes"]) then
          save_to_file filename >>
          let* r'' := input (snd r') in
          ret (snd r'')
        else on_selector (print "Save cancelled.") >> ret (snd r')
      else
        save_to_file filename >>
        let* r' := input (snd r) in
        ret (snd r')
  end.

(** [sys.exit(code)]. *)
Inductive exited := SystemExit (code : Z).

(** [quit_application], on the lines [input] will return; it ends with
    [sys.exit(0)], and the lines left unread then are returned. *)
Definition quit_application (inputs : list string) : Saving (exited * list string) :=
  let* w := get in
  let* rest :=
    match selected_albums (fst w) with
    | [] => ret inputs
    | selected =>
        on_selector (print (Py.nl ++ "You have " ++ PyStr.str_int (Py.len selected)
                            ++ " album(s) selected.")) >>
        let* r := input inputs in
        let save := PyStr.lower (PyStr.strip (fst r)) in
        if bool_decide (save ∈ ["n"; "no"]) then ret (snd r)
        else
          let* r' := input (snd r) in
          save_to_file (with_txt (fst r')) >>
          ret (snd r')
    end in
  on_selector (print (Py.nl ++ "Goodbye! 🎵")) >>
  ret (SystemExit 0, rest).

(** What [load_existing_file] finds under a name: [os.path.exists] and
    [readlines]. *)
Definition on_disk (d : Files.disk) (filename : string) : option (list string) :=
  Files.readlines <$> d !! filename.

End WithDisk.

End Interactive.

(** ** [TUIAlbumSelector] (tui_album_selector.py)

    [self.console.print] is modelled as printing its argument, markup
    included; panels, tables and progress bars are display only and are
    left out. *)

Module TUI.
Import Sel Common.
Local Open Scope eff_scope.

Section WithOrpheus.

Variable module_settings : list (string * ModuleInformation.t).
Variable hash : string -> Z.

(** The identifier taken from the album record. *)
Definition stored_id (a : AlbumInfo.t) : Py.pyval :=
  match AlbumInfo.getattr a "album_id" with
  | Some v =>
      if Py.truthy v then v
      else match AlbumInfo.getattr a "id" with
           | Some w => w
           | None => Py.PyNone
           end
  | None =>
      match AlbumInfo.getattr a "id" with
      | Some w => w
      | None => Py.PyNone
      end
  end.

(** The [try] block of [generate_album_url]. *)
Definition build_url (module_name : string) (a : AlbumInfo.t) : result string :=
  match Py.dict_get module_settings module_name with
  | None => Raise (Py.KeyError module_name)
  | Some settings =>
      match first_netloc (ModuleInformation.netlocation_constant settings) with
      | Raise e => Raise e
      | Ok netloc_constant =>
          let domain := domain_of netloc_constant in
          let album_path := album_path_of (ModuleInformation.url_constants settings) in
          let album_id := stored_id a in
          let album_id :=
            if Py.truthy album_id then album_id
            else Py.PyStr (pseudo_id (hash (hash_key a))) in
          Ok ("https://" ++ domain ++ "/" ++ album_path ++ "/" ++ Py.str album_id)
      end
  end.

Definition generate_album_url (module_name : string) (a : AlbumInfo.t) : M string :=
  match build_url module_name a with
  | Ok url => ret url
  | Raise _ => ret (fallback_comment a)
  end.

(** [add_selected_albums], on the answers [Prompt.ask] will return;
    those left are returned.  With albums to add it ends with the
    prompt [Press Enter to continue]. *)
Definition add_selected_albums (module_name : string)
    (albums : list AlbumInfo.t) (artist_name : string) (inputs : list string)
    : M (list string) :=
  match albums with
  | [] => ret inputs
  | _ =>
      for_each albums (fun album =>
        append_selected (searched module_name artist_name album) >>
        let* url := generate_album_url module_name album in
        append_url url) >>
      print ("[green]✓ Added " ++ PyStr.str_int (Py.len albums)
             ++ " albums from " ++ artist_name ++ "[/green]") >>
      let* st := get in
      print ("[blue]Total albums selected: "
             ++ PyStr.str_int (Py.len (selected_albums st)) ++ "[/blue]") >>
      let* enter := input inputs in
      ret (snd enter)
  end.

(** The first loop of [_remove_albums]: the 0-based indices, or [None]
    when the method returned at a token out of range. *)
Fixpoint collect_indices (numbers : list string) (indices_to_remove : list Z)
    : M (option (list Z)) :=
  match numbers with
  | [] => ret (Some indices_to_remove)
  | num :: rest =>
      let* n := of_option (PyStr.int num) Py.ValueError in
      let idx := n - 1 in
      let* st := get in
      if in_range idx st then collect_indices rest (indices_to_remove ++ [idx])
      else print ("[red]Invalid album number: " ++ num ++ "[/red]") >>
           ret None
  end.

(** The second loop, counting the removals. *)
Fixpoint pop_each (indices : list Z) (removed_count : Z) : M Z :=
  match indices with
  | [] => ret removed_count
  | idx :: rest =>
      let* _ := pop_selected idx in
      let* _ := pop_url idx in
      pop_each rest (removed_count + 1)
  end.

Definition remove_body (command : string) : M unit :=
  let numbers := tail (PyStr.split command) in
  let* collected := collect_indices numbers [] in
  match collected with
  | None => ret tt
  | Some indices_to_remove =>
      let* removed_count := pop_each (Py.sorted_reverse indices_to_remove) 0 in
      print ("[green]✓ Removed " ++ PyStr.str_int removed_count
             ++ " albums.[/green]") >>
      let* st := get in
      print ("[blue]Remaining albums: "
             ++ PyStr.str_int (Py.len (selected_albums st)) ++ "[/blue]")
  end.

Definition _remove_albums (command : string) : M unit :=
  try_except (remove_body command) catches_value_index (fun _ =>
    print "[red]Invalid format. Use 'remove [numbers]' (e.g., 'remove 1 3 5')[/red]").

(** The [clear] branch; [confirmed] is the answer to [Confirm.ask]. *)
Definition clear_command (confirmed : bool) : M signal :=
  if confirmed then
    set_selected [] >> set_urls [] >>
    print "[green]✓ All albums removed.[/green]" >> ret Break
  else ret Continue.

(** One turn of the [while True] loop of [show_selected_albums], on
    the answer [Prompt.ask] returned and the answer a confirmation
    would get. *)
Definition command (answer : string) (confirmed : bool) : M signal :=
  let choice := PyStr.lower (PyStr.strip answer) in
  if String.eqb choice "back" then ret Break
  else if String.eqb choice "clear" then clear_command confirmed
  else if PyStr.startswith choice "remove " then
    _remove_albums choice >> ret Break
  else print "[red]Invalid command.[/red]" >> ret Continue.

Fixpoint command_loop (inputs : list (string * bool)) : M (list (string * bool)) :=
  match inputs with
  | [] => raise Py.EOFError
  | (answer, confirmed) :: rest =>
      let* s := command answer confirmed in
      match s with
      | Break => ret rest
      | Continue => command_loop rest
      end
  end.

(** [show_selected_albums], on the answers [Prompt.ask] will return,
    each with the answer a confirmation asked after it would get;
    those left are returned.  Without albums it shows a panel and
    waits for the prompt [Press Enter to continue]. *)
Definition show_selected_albums (inputs : list (string * bool))
    : M (list (string * bool)) :=
  let* st := get in
  match selected_albums st with
  | [] =>
      match inputs with
      | [] => raise Py.EOFError
      | _ :: rest => ret rest
      end
  | _ => command_loop inputs
  end.

(** The body of the [for line in lines] loop of [load_existing_file]. *)
Definition load_line (raw : string) (loaded_count : Z) : M Z :=
  let line := PyStr.strip raw in
  if is_url_line line then
    let* st := get in
    if bool_decide (line ∈ album_urls st) then ret loaded_count
    else
      append_url line >>
      append_selected (loaded line) >>
      ret (loaded_count + 1)
  else ret loaded_count.

Fixpoint load_lines (lines : list string) (loaded_count : Z) : M Z :=
  match lines with
  | [] => ret loaded_count
  | raw :: rest =>
      let* c := load_line raw loaded_count in
      load_lines rest c
  end.

(** The [try] block of [load_existing_file], on the lines [readlines]
    returned for the file. *)
Definition load_file (filename : string) (lines : list string) : M unit :=
  let* loaded_count := load_lines lines 0 in
  print ("[green]✓ Loaded " ++ PyStr.str_int loaded_count
         ++ " new album URLs from " ++ filename ++ "[/green]") >>
  let* st := get in
  print ("[blue]Total albums now: "
         ++ PyStr.str_int (Py.len (album_urls st)) ++ "[/blue]").

(** [load_existing_file], on the answers [Prompt.ask] will return, the
    file name first, and the lines [readlines] returns for a name
    ([None] when no such file exists); the answers left are returned.
    Both ways out of a named file end with the prompt
    [Press Enter to continue]. *)
Definition load_existing_file (inputs : list string)
    (file : string -> option (list string)) : M (list string) :=
  let* typed := input inputs in
  let filename := PyStr.strip (fst typed) in
  if String.eqb filename "" then ret (snd typed)
  else
    match file filename with
    | None => print ("[red]File " ++ filename ++ " not found.[/red]")
    | Some lines => load_file filename lines
    end >>
    let* enter := input (snd typed) in
    ret (snd enter).

Definition perform (o : mutation) : M unit :=
  match o with
  | AddAlbums module_name albums artist_name inputs =>
      add_selected_albums module_name albums artist_name inputs >> ret tt
  | Manage answers => show_selected_albums answers >> ret tt
  | LoadFile inputs content => load_existing_file inputs (fun _ => content) >> ret tt
  end.

Definition perform_all (ops : list mutation) (st : state) : state :=
  fold_left (fun st o => snd (perform o st)) ops st.

End WithOrpheus.

(** [get_artist_albums], with [artist_albums] and [get_album_info] as
    for the menu selector; the progress bar is display only. *)
Definition get_artist_albums (artist_albums : string + list Py.pyval)
    (get_album_info : Py.pyval -> string + AlbumInfo.t) : M (list AlbumInfo.t) :=
  match artist_albums with
  | inr album_ids =>
      fetch_albums
        (fun album_id e =>
           "[yellow]Warning: Could not load album " ++ Py.str album_id ++ ": " ++ e
           ++ "[/yellow]")
        get_album_info album_ids []
  | inl e => print ("[red]Error getting artist albums: " ++ e ++ "[/red]") >> ret []
  end.

End TUI.

(** ** [MusicSyncer] (sync_music.py)

    A path is the list of its components; a file system maps the paths
    that exist to what is there.  Components are compared as they are:
    [..] is not resolved. *)

Module Sync.
Export Eff.
Local Open Scope eff_scope.

Definition path := list string.

(** What [os.path.getmtime] and [os.path.getsize] read. *)
Record stat := { st_mtime : Q; st_size : Z }.

Inductive node :=
| File (s : stat)
| Dir (s : stat).

Definition node_stat (n : node) : stat :=
  match n with
  | File s | Dir s => s
  end.

Definition is_file (o : option node) : bool :=
  match o with
  | Some (File _) => true
  | _ => false
  end.

Definition is_dir (o : option node) : bool :=
  match o with
  | Some (Dir _) => true
  | _ => false
  end.

(** The calls that change the file system. *)
Inductive syscall :=
| Makedirs (p : path)
| Copy2 (src dst : path)
| Remove (p : path).

(** The file system, the mutating calls made so far, and the lines
    printed so far. *)
Record world := {
  fs : gmap path node;
  calls : list syscall;
  stdout : list string
}.

Definition M (A : Type) : Type := Eff.M world A.

Definition print (line : string) : M unit :=
  fun w => (Ok tt, {| fs := fs w; calls := calls w; stdout := stdout w ++ [line] |}).

Definition log_call (c : syscall) : M unit :=
  fun w => (Ok tt, {| fs := fs w; calls := calls w ++ [c]; stdout := stdout w |}).

Definition set_fs (m : gmap path node) : M unit :=
  fun w => (Ok tt, {| fs := m; calls := calls w; stdout := stdout w |}).

(** [os.path.join(base, rel)] for a relative [rel], [os.path.dirname]
    and [os.path.basename]. *)
Definition join (base rel : path) : path := (base ++ rel)%list.
Definition dirname (p : path) : path := removelast p.
Definition basename (p : path) : string := List.last p "".

(** [os.path.relpath(p, start)]: what is left of [p] after the common
    prefix, behind one [..] for each component left of [start]. *)
Fixpoint relpath (p start : path) : path :=
  match p, start with
  | a :: p', b :: start' =>
      if String.eqb a b then relpath p' start'
      else (repeat ".." (length start) ++ p)%list
  | _, _ => (repeat ".." (length start) ++ p)%list
  end.

(** The path as printed. *)
Fixpoint show_path (p : path) : string :=
  match p with
  | [] => "."
  | [a] => a
  | a :: p' => a ++ "/" ++ show_path p'
  end.

(** [d] is [p] or an ancestor of [p]. *)
Fixpoint under (d p : path) : bool :=
  match d, p with
  | [], _ => true
  | a :: d', b :: p' => String.eqb a b && under d' p'
  | _ :: _, [] => false
  end.

(** The proper and improper non-empty prefixes of [p], shortest first. *)
Definition ancestors (p : path) : list path :=
  map (fun n => firstn n p) (seq 1 (length p)).

(** From [w] to [w'] the file system is untouched and no mutating call
    was made. *)
Definition untouched (w w' : world) : Prop :=
  fs w' = fs w /\ calls w' = calls w.

(** From [w] to [w'] no call of [os.remove] was made. *)
Definition is_remove_call (c : syscall) : bool :=
  match c with
  | Remove _ => true
  | _ => false
  end.

Definition nothing_removed (w w' : world) : Prop :=
  exists l, calls w' = (calls w ++ l)%list /\ forallb (fun c => negb (is_remove_call c)) l = true.

(** Every regular file of [w] is still a regular file in [w']. *)
Definition files_kept (w w' : world) : Prop :=
  forall p, is_file (fs w !! p) = true -> is_file (fs w' !! p) = true.

Section WithClock.

(** What a directory just created reports as its time and size. *)
Variable fresh_dir : stat.

Definition exists_ (p : path) : M bool :=
  let* w := get in ret (bool_decide (is_Some (fs w !! p))).

Definition getmtime (p : path) : M Q :=
  let* w := get in
  match fs w !! p with
  | Some n => ret (st_mtime (node_stat n))
  | None => raise Py.OSError
  end.

Definition getsize (p : path) : M Z :=
  let* w := get in
  match fs w !! p with
  | Some n => ret (st_size (node_stat n))
  | None => raise Py.OSError
  end.

Definition mkdir_missing (q : path) (m : gmap path node) : gmap path node :=
  match m !! q with
  | Some _ => m
  | None => <[q := Dir fresh_dir]> m
  end.

(** [os.makedirs(p, exist_ok=True)], which is also what
    [Path.mkdir(parents=True, exist_ok=True)] does: every missing
    ancestor is created; a regular file on the way is an error. *)
Definition makedirs (p : path) : M unit :=
  log_call (Makedirs p) >>
  let* w := get in
  if existsb (fun q => is_file (fs w !! q)) (ancestors p) then raise Py.OSError
  else set_fs (foldr mkdir_missing (fs w) (ancestors p)).

(** [shutil.copy2(src, dst)]: contents, size and modification time of
    [src] go to [dst], or into [dst] under the name of [src] when
    [dst] is a directory. *)
Definition copy2 (src dst : path) : M unit :=
  log_call (Copy2 src dst) >>
  let* w := get in
  match fs w !! src with
  | Some (File s) =>
      let target := if is_dir (fs w !! dst) then (dst ++ [basename src])%list else dst in
      if bool_decide (target = src) then raise Py.OSError
      else if is_dir (fs w !! target) then raise Py.OSError
      else if bool_decide (dirname target = []) || is_dir (fs w !! dirname target)
      then set_fs (<[target := File s]> (fs w))
      else raise Py.OSError
  | _ => raise Py.OSError
  end.

(** [os.remove(p)]. *)
Definition remove (p : path) : M unit :=
  log_call (Remove p) >>
  let* w := get in
  if is_file (fs w !! p) then set_fs (delete p (fs w))
  else raise Py.OSError.

(** [get_all_files(directory)]: the regular files below [directory],
    none when [directory] is not a directory, where [os.walk] yields
    nothing.  The map is read as a tree: what it holds below a
    directory is taken to be reachable from it. *)
Definition files_under (directory : path) (m : gmap path node) : list path :=
  if is_dir (m !! directory) then
    List.filter (fun p => under directory p && is_file (m !! p))
                (map fst (map_to_list m))
  else [].

Definition get_all_files (directory : path) : M (list path) :=
  let* w := get in ret (files_under directory (fs w)).

(** [get_directory_size(directory)]. *)
Definition get_directory_size (directory : path) : M Z :=
  let* w := get in
  ret (foldr (fun p total =>
                match fs w !! p with
                | Some n => st_size (node_stat n) + total
                | None => total
                end) 0 (files_under directory (fs w))).

(** The sizes and times of [m] say that [src] has to be copied over
    [dest]: there is no [dest], or it is not up to date. *)
Definition stale (m : gmap path node) (src dest : path) : bool :=
  match m !! dest, m !! src with
  | Some d, Some s =>
      negb (Qle_bool (st_mtime (node_stat s)) (st_mtime (node_stat d))
            && (st_size (node_stat s) =? st_size (node_stat d)))
  | _, _ => true
  end.

(** The test [dest_mtime >= src_mtime and src_size == dest_size]. *)
Definition up_to_date (src_mtime dest_mtime : Q) (src_size dest_size : Z) : bool :=
  Qle_bool src_mtime dest_mtime && (src_size =? dest_size).

(** The value of the variable [should_copy]: whether the destination is
    missing or is not up to date. *)
Definition should_copy (src_file dest_file : path) : M bool :=
  let* present := exists_ dest_file in
  if present then
    let* src_mtime := getmtime src_file in
    let* dest_mtime := getmtime dest_file in
    let* src_size := getsize src_file in
    let* dest_size := getsize dest_file in
    if up_to_date src_mtime dest_mtime src_size dest_size
    then ret false else ret true
  else ret true.

Definition copy_file_with_structure (src_file src_base dest_base : path)
    (dry_run : bool) : M (bool * path) :=
  let rel_path := relpath src_file src_base in
  let dest_file := join dest_base rel_path in
  let dest_dir := dirname dest_file in
  (if negb dry_run then makedirs dest_dir else ret tt) >>
  let* should_copy := should_copy src_file dest_file in
  if should_copy then
    (if negb dry_run then copy2 src_file dest_file else ret tt) >>
    ret (true, rel_path)
  else ret (false, rel_path).

(** The format [f"{x:.1f}"] of a number [x]: one decimal, the exact
    value rounded to the nearest tenth, ties to the even one. *)
Definition round_tenths (x : Q) : Z :=
  let n := 10 * Z.abs (Qnum x) in
  let d := Zpos (Qden x) in
  let q := n / d in
  let r := n mod d in
  if 2 * r <? d then q
  else if d <? 2 * r then q + 1
  else if Z.even q then q else q + 1.

Definition format_1f (x : Q) : string :=
  let t := round_tenths x in
  let sign := if Qnum x <? 0 then "-" else "" in
  sign ++ PyStr.str_int (t / 10) ++ "." ++ PyStr.str_int (t mod 10).

(** The loop of [format_size] over the units left. *)
Fixpoint format_size_from (units : list string) (size_bytes : Q) : string :=
  match units with
  | [] => (format_1f size_bytes ++ " PB")%string
  | unit :: rest =>
      (* [size_bytes < 1024.0] fails exactly when [1024 <= size_bytes] *)
      if Qle_bool 1024 size_bytes
      then format_size_from rest (size_bytes / 1024)
      else (format_1f size_bytes ++ " " ++ unit)%string
  end.

(** [format_size(size_bytes)] for an integer number of bytes below 2^53
    in absolute value.  Such a number is a float as it is, and its
    quotients by 1024.0 are exact, so that the rational arithmetic
    here is the floating-point arithmetic of the code; from 2^53 on the
    code rounds, and the definition does not describe it. *)
Definition units : list string := ["B"; "KB"; "MB"; "GB"; "TB"].

Definition format_size (size_bytes : Z) : string :=
  format_size_from units (inject_Z size_bytes).

(** The two hard-coded roots of [__init__]. *)
Definition source_dir : path := ["Users"; "chrismannina"; "Music"; "downloads"].
Definition dest_dir : path :=
  ["Users"; "chrismannina"; "Library"; "CloudStorage"; "SynologyDrive-Sync"; "Music"].

Definition show_abs (p : path) : string := ("/" ++ show_path p)%string.

(** [RICH_AVAILABLE]: with the rich library the messages carry
    markup; its panels, tables and progress bars are display only and
    left out. *)
Variable RICH_AVAILABLE : bool.

Definition print_info (message : string) : M unit :=
  print ((if RICH_AVAILABLE then "[blue][INFO][/blue] " else "[INFO] ") ++ message)%string.
Definition print_success (message : string) : M unit :=
  print ((if RICH_AVAILABLE then "[green][SUCCESS][/green] " else "[SUCCESS] ") ++ message)%string.
Definition print_warning (message : string) : M unit :=
  print ((if RICH_AVAILABLE then "[yellow][WARNING][/yellow] " else "[WARNING] ") ++ message)%string.
Definition print_error (message : string) : M unit :=
  print ((if RICH_AVAILABLE then "[red][ERROR][/red] " else "[ERROR] ") ++ message)%string.

(** Printing in the branch without rich only. *)
Definition print_plain (line : string) : M unit :=
  if RICH_AVAILABLE then ret tt else print line.

(** The loop over [source_files]; [i] numbers the files from one and
    the two counters are threaded through. *)
Fixpoint sync_files (source_files : list path) (total i : Z) (dry_run : bool)
    (copied_files skipped_files : Z) : M (Z * Z) :=
  match source_files with
  | [] => ret (copied_files, skipped_files)
  | src_file :: rest =>
      let* r := copy_file_with_structure src_file source_dir dest_dir dry_run in
      let '(was_copied, rel_path) := r in
      let tag := ("[" ++ PyStr.str_int i ++ "/" ++ PyStr.str_int total ++ "] ")%string in
      if was_copied then
        print_plain (tag ++ "Copied: " ++ show_path rel_path)%string >>
        sync_files rest total (i + 1) dry_run (copied_files + 1) skipped_files
      else
        print_plain (tag ++ "Skipped: " ++ show_path rel_path)%string >>
        sync_files rest total (i + 1) dry_run copied_files (skipped_files + 1)
  end.

(** The loop over [dest_files] of the deletion of extra files. *)
Fixpoint delete_extras (dest_files : list path) (dry_run : bool)
    (deleted_files : Z) : M Z :=
  match dest_files with
  | [] => ret deleted_files
  | dest_file :: rest =>
      let rel_path := relpath dest_file dest_dir in
      let src_equivalent := join source_dir rel_path in
      let* present := exists_ src_equivalent in
      if negb present then
        (if negb dry_run then remove dest_file else ret tt) >>
        print_info ("Deleted: " ++ show_path rel_path)%string >>
        delete_extras rest dry_run (deleted_files + 1)
      else delete_extras rest dry_run deleted_files
  end.

(** A file below the destination is extra in the file system [m]: the
    test [not os.path.exists(src_equivalent)] of the deletion loop. *)
Definition extra (m : gmap path node) (dest_file : path) : bool :=
  negb (bool_decide (is_Some (m !! join source_dir (relpath dest_file dest_dir)))).

(** [sync_music(dry_run, delete_extra)]; [proceed] is the answer to
    the confirmation asked when the run is not a dry run. *)
Definition sync_music (proceed : bool) (dry_run delete_extra : bool) : M bool :=
  let* src_present := exists_ source_dir in
  if negb src_present then
    print_error ("Source directory does not exist: " ++ show_abs source_dir)%string >>
    ret false
  else
    let* dest_present := exists_ dest_dir in
    (if negb dest_present then
       print_warning ("Creating destination directory: " ++ show_abs dest_dir)%string >>
       (if negb dry_run then makedirs dest_dir else ret tt)
     else ret tt) >>
    print_plain "🎵 Music Sync Script" >>
    print_plain "==================================================" >>
    print_plain ("Source: " ++ show_abs source_dir)%string >>
    print_plain ("Destination: " ++ show_abs dest_dir)%string >>
    (if dry_run then print_plain "Mode: DRY RUN" else ret tt) >>
    print_plain "" >>
    print_info "Scanning directories..." >>
    let* source_files := get_all_files source_dir in
    match source_files with
    | [] => print_warning "No files found in source directory" >> ret true
    | _ =>
        let* source_size := get_directory_size source_dir in
        print_plain ("Source files: " ++ PyStr.str_int (Py.len source_files))%string >>
        print_plain ("Source size: " ++ format_size source_size)%string >>
        if negb dry_run && negb proceed then
          print_warning "Sync cancelled by user" >> ret false
        else
          let* counts :=
            sync_files source_files (Py.len source_files) 1 dry_run 0 0 in
          let '(copied_files, skipped_files) := counts in
          (if delete_extra && negb dry_run then
             print_info "Checking for extra files to delete..." >>
             let* dest_files := get_all_files dest_dir in
             let* deleted_files := delete_extras dest_files dry_run 0 in
             if 0 <? deleted_files then
               print_info ("Deleted " ++ PyStr.str_int deleted_files ++ " extra files")%string
             else ret tt
           else ret tt) >>
          print_plain (Py.nl ++ "Sync Results:")%string >>
          print_plain ("Files copied: " ++ PyStr.str_int copied_files)%string >>
          print_plain ("Files skipped: " ++ PyStr.str_int skipped_files)%string >>
          (if dry_run then print_success "Dry run completed successfully"
           else print_success "Music sync completed successfully!") >>
          ret true
    end.

End WithClock.

End Sync.

(** ** The login probe (scripts/test_qobuz_login.py) *)

Module Login.

(** What [json.load] returns; the numbers are the integers. *)
#[warnings="-register-all"]
Inductive json :=
| JNull
| JBool (b : bool)
| JNum (n : Z)
| JStr (s : string)
| JArr (l : list json)
| JObj (d : list (string * json)).

(** Truth value of a loaded value ([None] is [JNull]). *)
Definition truthy (v : json) : bool :=
  match v with
  | JNull => false
  | JBool b => b
  | JNum n => negb (n =? 0)
  | JStr s => negb (String.eqb s "")
  | JArr l => negb (bool_decide (l = []))
  | JObj d => negb (bool_decide (d = []))
  end.

Definition type_name (v : json) : string :=
  match v with
  | JNull => "NoneType"
  | JBool _ => "bool"
  | JNum _ => "int"
  | JStr _ => "str"
  | JArr _ => "list"
  | JObj _ => "dict"
  end.

(** [v.get(k, default)]: [inl] carries the message of the
    [AttributeError] raised when [v] is not a dictionary. *)
Definition get_default (v : json) (k : string) (default : json) : string + json :=
  match v with
  | JObj d =>
      match Py.dict_get d k with
      | Some x => inr x
      | None => inr default
      end
  | _ => inl ("'" ++ type_name v ++ "' object has no attribute 'get'")
  end.

(** [v == s] for a string literal [s]. *)
Definition eq_str (v : json) (s : string) : bool :=
  match v with
  | JStr t => String.eqb t s
  | _ => false
  end.

(** What opening and parsing the settings file gives. *)
Inductive settings_file :=
| FileNotFound
| NotJson
| Parsed (settings : json).

(** The dictionary [credentials], in the order of its keys. *)
Record credentials := {
  app_id : json;
  app_secret : json;
  email : json;
  password : json
}.

Definition items (c : credentials) : list (string * json) :=
  [("app_id", app_id c); ("app_secret", app_secret c);
   ("email", email c); ("password", password c)].

(** [', '.join(l)]. *)
Fixpoint join_comma (l : list string) : string :=
  match l with
  | [] => ""
  | [a] => a
  | a :: l' => a ++ ", " ++ join_comma l'
  end.

(** The calls made on the Qobuz client. *)
Inductive api_call :=
| Construct (app_id app_secret : json)
| LoginCall (email password : json).

(** How the one call of [login] ends. *)
Inductive login_outcome :=
| Token (token : string)
| NoToken
| TestQobuzError (message : string)
| Unexpected (type_name message : string).

Record world := {
  stdout : list string;
  calls : list api_call
}.

Definition init : world := {| stdout := []; calls := [] |}.

Definition print (line : string) (w : world) : world :=
  {| stdout := stdout w ++ [line]; calls := calls w |}.

Definition call (c : api_call) (w : world) : world :=
  {| stdout := stdout w; calls := calls w ++ [c] |}.

Section WithSettings.

(** [os.path.join(project_root, 'config', 'settings.json')]. *)
Variable settings_path : string.
(** The settings file as found on disk. *)
Variable file : settings_file.
(** Modelled from the spec: the authentication call of the Qobuz
    client ([qobuz.qobuz_api.Qobuz.login]), one synchronous call that
    returns a token or raises; constructing the client makes no
    call to the service. *)
Variable login : json -> json -> login_outcome.

(** The names of the credentials that are empty. *)
Definition missing (c : credentials) : list string :=
  map fst (List.filter (fun kv => negb (truthy (snd kv))) (items c)).

Definition has_placeholder (c : credentials) : bool :=
  eq_str (app_id c) "YOUR_APP_ID"
  || eq_str (app_secret c) "YOUR_APP_SECRET"
  || eq_str (email c) "YOUR_QOBUZ_EMAIL"
  || eq_str (password c) "YOUR_QOBUZ_PASSWORD".

(** The dictionary [credentials] built from the four keys of the
    qobuz settings; the account name is under [username] there. *)
Definition read_credentials (qobuz_settings : list (string * json)) : credentials :=
  let field k := default JNull (Py.dict_get qobuz_settings k) in
  {| app_id := field "app_id";
     app_secret := field "app_secret";
     email := field "username";
     password := field "password" |}.

(** The credential under the key [k] is empty: [not v]. *)
Definition empty (c : credentials) (k : string) : Prop :=
  exists v, In (k, v) (items c) /\ truthy v = false.

(** [load_credentials_from_settings()]: the line it prints when it
    fails, or the credentials. *)
Definition load_credentials_from_settings : string + credentials :=
  match file with
  | FileNotFound => inl ("Error: Settings file not found at " ++ settings_path)
  | NotJson => inl ("Error: Could not parse JSON from " ++ settings_path)
  | Parsed settings =>
      match get_default settings "modules" (JObj []) with
      | inl e => inl ("Error loading settings: " ++ e)
      | inr modules =>
          match get_default modules "qobuz" JNull with
          | inl e => inl ("Error loading settings: " ++ e)
          | inr qobuz_settings =>
              if negb (truthy qobuz_settings) then
                inl ("Error: 'qobuz' module settings not found in " ++ settings_path)
              else
                match qobuz_settings with
                | JObj d =>
                    let c := read_credentials d in
                    if negb (forallb truthy (map snd (items c))) then
                      inl ("Error: Missing credentials in qobuz settings ("
                           ++ settings_path ++ "): " ++ join_comma (missing c))
                    else if has_placeholder c then
                      inl ("Error: Placeholder credentials found in "
                           ++ settings_path ++ ". Please fill them in.")
                    else inr c
                | other =>
                    inl ("Error loading settings: '" ++ type_name other
                         ++ "' object has no attribute 'get'")
                end
          end
      end
  end.

(** [repr(v)] of a loaded value: the elements of a list and the
    entries of a dictionary are shown by their [repr], in order. *)
Fixpoint repr (v : json) : string :=
  match v with
  | JNull => "None"
  | JBool true => "True"
  | JBool false => "False"
  | JNum n => PyStr.str_int n
  | JStr s => PyStr.repr s
  | JArr l =>
      "[" ++ (fix elements (l : list json) : string :=
                match l with
                | [] => ""
                | [x] => repr x
                | x :: l' => repr x ++ ", " ++ elements l'
                end) l ++ "]"
  | JObj d =>
      "{" ++ (fix entries (d : list (string * json)) : string :=
                match d with
                | [] => ""
                | [(k, x)] => PyStr.repr k ++ ": " ++ repr x
                | (k, x) :: d' => PyStr.repr k ++ ": " ++ repr x ++ ", " ++ entries d'
                end) d ++ "}"
  end.

(** [str(v)] of a credential, as the f-string shows it: a string as it
    is, anything else by its [repr]. *)
Definition show (v : json) : string :=
  match v with
  | JStr s => s
  | other => repr other
  end.

(** [run_login_test()]. *)
Definition run_login_test (w : world) : world :=
  match load_credentials_from_settings with
  | inl line => print line w
  | inr c =>
      let w := print ("Attempting to log in to Qobuz as " ++ show (email c) ++ "...") w in
      let w := call (Construct (app_id c) (app_secret c)) w in
      let w := print "Calling login method..." w in
      let w := call (LoginCall (email c) (password c)) w in
      match login (email c) (password c) with
      | Token token =>
          if String.eqb token "" then
            print (Py.nl ++ "--- Login Failed (No token received and no exception raised) ---") w
          else
            print ("Received Auth Token (truncated): " ++ PyStr.take 10 token ++ "...")
                  (print (Py.nl ++ "--- Login Successful! ---") w)
      | NoToken =>
          print (Py.nl ++ "--- Login Failed (No token received and no exception raised) ---") w
      | TestQobuzError e =>
          print (Py.nl ++ "--- Login Failed (TestQobuzError): " ++ e ++ " ---") w
      | Unexpected ty e =>
          print (Py.nl ++ "--- Login Failed (Unexpected Error): " ++ ty ++ " - " ++ e ++ " ---") w
      end
  end.

(** The authentication calls among the calls made. *)
Definition login_calls (w : world) : list api_call :=
  List.filter (fun c => match c with LoginCall _ _ => true | _ => false end) (calls w).

End WithSettings.

End Login.

(** ** Sample data *)

Module Fixtures.

Definition qobuz : ModuleInformation.t :=
  {| ModuleInformation.service_name := "Qobuz";
     ModuleInformation.netlocation_constant := ModuleInformation.NetStr "qobuz";
     ModuleInformation.url_constants :=
       Some [("track", DownloadTypeEnum.track); ("album", DownloadTypeEnum.album);
             ("artist", DownloadTypeEnum.artist)] |}.

Definition settings : list (string * ModuleInformation.t) := [("qobuz", qobuz)].

(** An album as a search returns it, with no identifier attribute. *)
Definition back_in_black : AlbumInfo.t :=
  {| AlbumInfo.name := "Back in Black!";
     AlbumInfo.artist := "AC/DC";
     AlbumInfo.release_year := 1980;
     AlbumInfo.duration := None;
     AlbumInfo.attrs := [] |}.

Definition entry (n : string) : Selection.t :=
  {| Selection.artist := "Artist"; Selection.album := n;
     Selection.year := Py.PyInt 2000; Selection.module := "qobuz";
     Selection.album_info := None; Selection.url := None |}.

(** A second album of the artist, with the identifier a lookup stores. *)
Definition highway_to_hell : AlbumInfo.t :=
  {| AlbumInfo.name := "Highway to Hell";
     AlbumInfo.artist := "AC/DC";
     AlbumInfo.release_year := 1979;
     AlbumInfo.duration := Some 2500;
     AlbumInfo.attrs := [("album_id", Py.PyStr "0886443962019")] |}.

Definition discography : list AlbumInfo.t := [back_in_black; highway_to_hell].

(** A selector holding three albums. *)
Definition three : Sel.state :=
  {| Sel.selected_albums := [entry "A"; entry "B"; entry "C"];
     Sel.album_urls := ["https://a"; "https://b"; "https://c"];
     Sel.stdout := [] |}.

(** The characters of the fixed punctuation of the fallback comment. *)
Definition comment_punctuation (c : ascii) : bool :=
  bool_decide (c = "#"%char) || bool_decide (c = "("%char)
  || bool_decide (c = ")"%char).

End Fixtures.

(** ** A sample music library *)

Module SyncFixtures.
Import Sync.

Definition at_time (t : Z) (size : Z) : stat :=
  {| st_mtime := inject_Z t; st_size := size |}.

Definition song : path := (source_dir ++ ["album"; "song.flac"])%list.
Definition extra : path := (dest_dir ++ ["old.mp3"])%list.

(** A source tree with one song, and a destination that holds one file
    the source does not have. *)
Definition library : world :=
  {| fs := list_to_map
             [(source_dir, Dir (at_time 10 0));
              ((source_dir ++ ["album"])%list, Dir (at_time 10 0));
              (song, File (at_time 100 5000));
              (dest_dir, Dir (at_time 10 0));
              (extra, File (at_time 50 700))];
     calls := [];
     stdout := [] |}.

End SyncFixtures.

(** ** Sample settings *)

Module LoginFixtures.
Import Login.

Definition settings_path : string := "config/settings.json".

Definition with_qobuz (d : list (string * json)) : json :=
  JObj [("global", JObj []); ("modules", JObj [("qobuz", JObj d)])].

(** Two credentials left empty. *)
Definition half_filled : list (string * json) :=
  [("app_id", JStr "950096963"); ("app_secret", JStr "");
   ("username", JNull); ("password", JStr "hunter2")].

(** The application identifier still as the template has it. *)
Definition from_template : list (string * json) :=
  [("app_id", JStr "YOUR_APP_ID"); ("app_secret", JStr "10b251c286cfbf64d6b7105f253d3a70");
   ("username", JStr "listener@example.org"); ("password", JStr "hunter2")].

Definition refuses (email password : json) : login_outcome :=
  TestQobuzError "Invalid credentials".

End LoginFixtures.

(** * Properties *)

(** ** Strings and decimal numerals *)

Module PyStrFacts.
Import PyStr.

Lemma all_chars_filter keep s : all_chars keep (filter keep s) = true.
Proof.
  induction s as [|c s IH]; simpl; [reflexivity|].
  destruct (keep c) eqn:E; simpl; [rewrite E|]; exact IH.
Qed.

Lemma all_chars_lstrip p s : all_chars p s = true -> all_chars p (lstrip s) = true.
Proof.
  induction s as [|c s IH]; simpl; [reflexivity|].
  intros [Hc Hs]%andb_prop.
  destruct (isspace c); [auto|]. simpl. rewrite Hc. exact Hs.
Qed.

Lemma all_chars_rstrip p s : all_chars p s = true -> all_chars p (rstrip s) = true.
Proof.
  induction s as [|c s IH]; simpl; [reflexivity|].
  intros [Hc Hs]%andb_prop. specialize (IH Hs).
  destruct (rstrip s) as [|d r].
  - destruct (isspace c); simpl; [reflexivity|]. rewrite Hc. reflexivity.
  - change (all_chars p (String c (String d r)) = true).
    simpl in *. rewrite Hc. exact IH.
Qed.

Lemma all_chars_strip p s : all_chars p s = true -> all_chars p (strip s) = true.
Proof. intros H. unfold strip. apply all_chars_rstrip, all_chars_lstrip, H. Qed.

Lemma all_chars_take p n s : all_chars p s = true -> all_chars p (take n s) = true.
Proof.
  revert s; induction n as [|n IH]; intros [|c s]; simpl; try reflexivity.
  intros [Hc Hs]%andb_prop. rewrite Hc. apply IH, Hs.
Qed.

Lemma length_take n s : String.length (take n s) = Nat.min n (String.length s).
Proof.
  revert s; induction n as [|n IH]; intros [|c s]; simpl; try reflexivity.
  rewrite IH. reflexivity.
Qed.

Lemma digit_char_decimal d : 0 <= d < 10 -> isdecimal (digit_char d) = true.
Proof.
  intros H.
  assert (d = 0 \/ d = 1 \/ d = 2 \/ d = 3 \/ d = 4 \/ d = 5 \/ d = 6 \/ d = 7
          \/ d = 8 \/ d = 9) as Hd by lia.
  repeat destruct Hd as [->|Hd]; try subst d; reflexivity.
Qed.

Lemma digits_decimal fuel n acc :
  0 <= n -> all_chars isdecimal acc = true ->
  all_chars isdecimal (digits fuel n acc) = true.
Proof.
  revert n acc; induction fuel as [|fuel IH]; intros n acc Hn Hacc; simpl.
  - rewrite digit_char_decimal by (apply Z.mod_pos_bound; lia). exact Hacc.
  - destruct (Z.ltb_spec n 10).
    + simpl. rewrite digit_char_decimal by lia. exact Hacc.
    + apply IH.
      * apply Z.div_pos; lia.
      * simpl. rewrite digit_char_decimal by (apply Z.mod_pos_bound; lia).
        exact Hacc.
Qed.

Lemma digits_length_pos fuel n acc :
  (String.length acc < String.length (digits fuel n acc))%nat.
Proof.
  revert n acc; induction fuel as [|fuel IH]; intros n acc; simpl.
  - lia.
  - destruct (n <? 10); simpl; [lia|].
    specialize (IH (n / 10) (String (digit_char (n mod 10)) acc)). simpl in IH. lia.
Qed.

(** A number of at least [k+1] digits prints at least [k+1] characters,
    given fuel for them. *)
Lemma digits_length_ge k : forall fuel n acc,
  10 ^ Z.of_nat k <= n -> (k <= fuel)%nat ->
  (k + 1 + String.length acc <= String.length (digits fuel n acc))%nat.
Proof.
  induction k as [|k IH]; intros fuel n acc Hn Hf.
  - pose proof (digits_length_pos fuel n acc). lia.
  - destruct fuel as [|fuel]; [lia|]. simpl digits.
    assert (10 ^ Z.of_nat (S k) = 10 * 10 ^ Z.of_nat k) as E.
    { rewrite Nat2Z.inj_succ, Z.pow_succ_r by lia. reflexivity. }
    assert (0 < 10 ^ Z.of_nat k) by (apply Z.pow_pos_nonneg; lia).
    destruct (Z.ltb_spec n 10); [lia|].
    assert (10 ^ Z.of_nat k <= n / 10) by (apply Z.div_le_lower_bound; lia).
    specialize (IH fuel (n / 10) (String (digit_char (n mod 10)) acc)).
    simpl in IH. lia.
Qed.

(** A number below [10^(k+1)] prints at most [k+1] characters. *)
Lemma digits_length_le k : forall fuel n acc,
  0 <= n < 10 ^ Z.of_nat (S k) ->
  (String.length (digits fuel n acc) <= k + 1 + String.length acc)%nat.
Proof.
  induction k as [|k IH]; intros fuel n acc Hn.
  - change (10 ^ Z.of_nat 1) with 10 in Hn.
    destruct fuel as [|fuel]; simpl; [lia|].
    destruct (Z.ltb_spec n 10); simpl; lia.
  - destruct fuel as [|fuel]; simpl; [lia|].
    destruct (Z.ltb_spec n 10); simpl; [lia|].
    assert (10 ^ Z.of_nat (S (S k)) = 10 * 10 ^ Z.of_nat (S k)) as E.
    { rewrite (Nat2Z.inj_succ (S k)), Z.pow_succ_r by lia. reflexivity. }
    assert (0 <= n / 10 < 10 ^ Z.of_nat (S k)).
    { split; [apply Z.div_pos; lia|apply Z.div_lt_upper_bound; lia]. }
    specialize (IH fuel (n / 10) (String (digit_char (n mod 10)) acc)).
    simpl in IH. lia.
Qed.

Lemma log2_fuel k n : 10 ^ Z.of_nat k <= n -> (k <= Z.to_nat (Z.log2 n))%nat.
Proof.
  intros H.
  assert (2 ^ Z.of_nat k <= 10 ^ Z.of_nat k) by (apply Z.pow_le_mono_l; lia).
  assert (Z.of_nat k <= Z.log2 n).
  { rewrite <- (Z.log2_pow2 (Z.of_nat k)) by lia. apply Z.log2_le_mono. lia. }
  lia.
Qed.

Lemma str_nonneg_decimal n : 0 <= n -> all_chars isdecimal (str_nonneg n) = true.
Proof. intros H. apply digits_decimal; [exact H|reflexivity]. Qed.

Lemma str_nonneg_length_ge k n :
  10 ^ Z.of_nat k <= n -> (k + 1 <= String.length (str_nonneg n))%nat.
Proof.
  intros H. unfold str_nonneg.
  pose proof (digits_length_ge k (Z.to_nat (Z.log2 n)) n "" H (log2_fuel k n H)).
  simpl in *. lia.
Qed.

Lemma str_nonneg_length_le k n :
  0 <= n < 10 ^ Z.of_nat (S k) -> (String.length (str_nonneg n) <= k + 1)%nat.
Proof.
  intros H. unfold str_nonneg.
  pose proof (digits_length_le k (Z.to_nat (Z.log2 n)) n "" H). simpl in *. lia.
Qed.

Lemma str_int_abs h : str_int (Z.abs h) = str_nonneg (Z.abs h).
Proof. unfold str_int. destruct (Z.ltb_spec (Z.abs h) 0); [lia|reflexivity]. Qed.

Lemma append_nil_r (s : string) : s ++ "" = s.
Proof.
  induction s as [|c s IH]; [reflexivity|].
  change (String c (s ++ "") = String c s). rewrite IH. reflexivity.
Qed.

Lemma startswith_app (p rest : string) : startswith (p ++ rest) p = true.
Proof.
  induction p as [|c p IH]; simpl; [destruct rest; reflexivity|].
  destruct (ascii_dec c c) as [_|H]; [exact IH|contradiction].
Qed.

Lemma startswith_app_r (s p rest : string) :
  startswith s p = true -> startswith (s ++ rest) p = true.
Proof.
  revert p. induction s as [|c s IH]; intros [|d p] H; simpl in *;
    try reflexivity; try discriminate.
  - destruct rest; reflexivity.
  - destruct (ascii_dec d c); [apply IH, H|discriminate].
Qed.

Lemma contains_app_l (pre s x : string) :
  contains s x = true -> contains (pre ++ s) x = true.
Proof.
  intros H. induction pre as [|c pre IH]; [exact H|].
  change (startswith (String c (pre ++ s)) x || contains (pre ++ s) x = true).
  rewrite IH. apply orb_true_r.
Qed.

Lemma contains_app_r (s rest x : string) :
  contains s x = true -> contains (s ++ rest) x = true.
Proof.
  induction s as [|c s IH]; intros H.
  - simpl in H. rewrite orb_false_r in H. destruct x; [|discriminate].
    destruct rest; reflexivity.
  - change (startswith (String c s) x || contains s x = true) in H.
    change (startswith (String c s ++ rest) x || contains (s ++ rest) x = true).
    apply orb_true_iff in H as [H|H].
    + rewrite (startswith_app_r _ _ rest H). reflexivity.
    + rewrite (IH H). apply orb_true_r.
Qed.

Lemma contains_self (x rest : string) : contains (x ++ rest) x = true.
Proof.
  destruct (x ++ rest) eqn:E; unfold contains; fold contains;
    rewrite <- E, startswith_app; reflexivity.
Qed.

End PyStrFacts.

(** ** Runs of methods *)

Module EffFacts.
Import Eff.

Section Steps.

Context {S : Type} (R : S -> S -> Prop) {HR : PreOrder R}.

Lemma steps_ret {A} (a : A) : steps R (ret a).
Proof. intros st. reflexivity. Qed.

Lemma steps_raise {A} e : steps R (@raise S A e).
Proof. intros st. reflexivity. Qed.

Lemma steps_get : steps R (@get S).
Proof. intros st. reflexivity. Qed.

Lemma steps_of_option {A} (o : option A) e : steps R (of_option o e).
Proof. destruct o; [apply steps_ret|apply steps_raise]. Qed.

Lemma steps_bind {A B} (m : M S A) (k : A -> M S B) :
  steps R m -> (forall a, steps R (k a)) -> steps R (bind m k).
Proof.
  intros Hm Hk st. unfold bind. specialize (Hm st).
  destruct (m st) as [[a|e] st1]; simpl in *; [|exact Hm].
  etransitivity; [exact Hm|apply Hk].
Qed.

Lemma steps_try_except {A} (body : M S A) catches handler :
  steps R body -> (forall e, steps R (handler e)) ->
  steps R (try_except body catches handler).
Proof.
  intros Hb Hh st. unfold try_except. specialize (Hb st).
  destruct (body st) as [[a|e] st1]; simpl in *; [exact Hb|].
  destruct (catches e); simpl; [|exact Hb].
  etransitivity; [exact Hb|apply Hh].
Qed.

Lemma steps_for_each {A} (l : list A) (body : A -> M S unit) :
  (forall x, steps R (body x)) -> steps R (for_each l body).
Proof.
  intros Hb. induction l as [|x l IH]; simpl.
  - apply steps_ret.
  - apply steps_bind; [apply Hb|intros _; exact IH].
Qed.

End Steps.

Lemma returns_ret {S A} (P : S -> Prop) (a : A) : returns P (ret a) (fun _ => P).
Proof. intros st H. exists a, st. split; [reflexivity|exact H]. Qed.

Lemma returns_bind {S A B} (P : S -> Prop) (Q : A -> S -> Prop) (Q' : B -> S -> Prop)
    (m : M S A) (k : A -> M S B) :
  returns P m Q -> (forall a, returns (Q a) (k a) Q') -> returns P (bind m k) Q'.
Proof.
  intros Hm Hk st H. destruct (Hm st H) as (a & st1 & E & H1).
  destruct (Hk a st1 H1) as (b & st2 & E2 & H2).
  exists b, st2. unfold bind. rewrite E. split; [exact E2|exact H2].
Qed.

Lemma returns_split {S A} (P : S -> Prop) (phi : Prop) (m : M S A) Q :
  (phi -> returns P m Q) -> returns (fun st => P st /\ phi) m Q.
Proof. intros H st [HP Hphi]. exact (H Hphi st HP). Qed.

(** Running a [try] whose body starts with a step that returns. *)
Lemma try_except_bind_ok {S A B} (m : M S A) (k : A -> M S B) catches handler st a st1 :
  m st = (Ok a, st1) ->
  try_except (bind m k) catches handler st = try_except (k a) catches handler st1.
Proof. intros H. unfold try_except, bind. rewrite H. reflexivity. Qed.

Lemma bind_ok {S A B} (m : M S A) (k : A -> M S B) st a st1 :
  m st = (Ok a, st1) -> bind m k st = k a st1.
Proof. intros H. unfold bind. rewrite H. reflexivity. Qed.

Lemma bind_raise {S A B} (m : M S A) (k : A -> M S B) st e st1 :
  m st = (Raise e, st1) -> bind m k st = (Raise e, st1).
Proof. intros H. unfold bind. rewrite H. reflexivity. Qed.

End EffFacts.

(** ** The selection lists *)

Module SelFacts.
Import Sel Common EffFacts.

#[export] Instance keeps_lockstep_preorder : PreOrder keeps_lockstep.
Proof. split; unfold keeps_lockstep; [intros st H; exact H|intros a b c; auto]. Qed.

#[export] Instance same_lists_preorder : PreOrder same_lists.
Proof.
  split; unfold same_lists.
  - intros st. split; reflexivity.
  - intros a b c [H1 H2] [H3 H4]. split; congruence.
Qed.

#[export] Instance grows_preorder : PreOrder grows.
Proof.
  split; unfold grows.
  - intros st. reflexivity.
  - intros a b c H1 H2. etransitivity; eassumption.
Qed.

Lemma same_lists_lockstep st st' : same_lists st st' -> keeps_lockstep st st'.
Proof. unfold same_lists, keeps_lockstep, lockstep. intros [-> ->]. auto. Qed.

Lemma steps_same_lockstep {A} (m : M A) : steps same_lists m -> steps keeps_lockstep m.
Proof. intros H st. apply same_lists_lockstep, H. Qed.

Lemma print_same line : steps same_lists (print line).
Proof. intros st. split; reflexivity. Qed.

Lemma print_grows line : steps grows (print line).
Proof. intros st. unfold grows. simpl. apply prefix_app_r. reflexivity. Qed.

Lemma set_selected_grows l : steps grows (set_selected l).
Proof. intros st. unfold grows. reflexivity. Qed.

Lemma set_urls_grows l : steps grows (set_urls l).
Proof. intros st. unfold grows. reflexivity. Qed.

Lemma in_range_same idx st st' : same_lists st st' -> in_range idx st' = in_range idx st.
Proof. unfold in_range. intros [-> _]. reflexivity. Qed.

Lemma len_nonneg {A} (l : list A) : 0 <= Py.len l.
Proof. unfold Py.len. lia. Qed.

(** [pop] inside the list. *)
Lemma pop_in_range {A} (l : list A) idx :
  0 <= idx < Py.len l ->
  exists x, l !! Z.to_nat idx = Some x
            /\ Py.pop l idx = Some (x, delete (Z.to_nat idx) l).
Proof.
  intros H. unfold Py.pop, Py.len in *.
  destruct (Z.ltb_spec idx 0); [lia|].
  destruct (Z.leb_spec 0 idx); [|lia].
  destruct (Z.ltb_spec idx (Z.of_nat (length l))); [|lia]. simpl.
  destruct (lookup_lt_is_Some_2 l (Z.to_nat idx)) as [x Hx]; [lia|].
  exists x. rewrite Hx. auto.
Qed.

(** [pop] changes the length by one, or fails and changes nothing. *)
Lemma pop_length {A} (l : list A) idx x l' :
  Py.pop l idx = Some (x, l') -> S (length l') = length l.
Proof.
  unfold Py.pop. set (i := if idx <? 0 then _ else _).
  destruct ((0 <=? i) && (i <? Py.len l)) eqn:E; [|discriminate].
  apply andb_prop in E as [E1 E2].
  apply Z.leb_le in E1. apply Z.ltb_lt in E2. unfold Py.len in E2.
  destruct (l !! Z.to_nat i) eqn:El; [|discriminate].
  intros [= <- <-]. rewrite length_delete by eauto.
  assert (Z.to_nat i < length l)%nat by lia. lia.
Qed.

Lemma pop_some_iff_length {A B} (l : list A) (k : list B) idx :
  length l = length k -> is_Some (Py.pop l idx) -> is_Some (Py.pop k idx).
Proof.
  intros Hlen. unfold Py.pop, Py.len. rewrite Hlen.
  set (i := if idx <? 0 then _ else _).
  destruct ((0 <=? i) && (i <? Z.of_nat (length k))) eqn:E.
  - apply andb_prop in E as [E1 E2]. apply Z.leb_le in E1. apply Z.ltb_lt in E2.
    intros _. destruct (lookup_lt_is_Some_2 k (Z.to_nat i)) as [x Hx]; [lia|].
    rewrite Hx. eauto.
  - intros [? ?]. discriminate.
Qed.

End SelFacts.

(** ** Removal by index *)

Module RemoveFacts.
Import Sel Common EffFacts SelFacts.

Lemma token_cases st t :
  PyStr.int t = None \/ token_in_range st t \/ token_out_of_range st t.
Proof.
  unfold token_in_range, token_out_of_range.
  destruct (PyStr.int t) as [n|]; [right|left; reflexivity].
  destruct (in_range (n - 1) st) eqn:E; [left|right]; eauto.
Qed.

Lemma goodb_in_range st t :
  token_in_range st t <-> goodb (Py.len (selected_albums st)) t = true.
Proof.
  unfold token_in_range, goodb, in_range. split.
  - intros (n & -> & H). exact H.
  - destruct (PyStr.int t) as [n|]; [eauto|discriminate].
Qed.

Lemma oorb_out_of_range st t :
  token_out_of_range st t <-> oorb (Py.len (selected_albums st)) t = true.
Proof.
  unfold token_out_of_range, oorb, in_range. split.
  - intros (n & -> & ->). reflexivity.
  - destruct (PyStr.int t) as [n|]; [|discriminate].
    intros H. exists n. split; [reflexivity|]. apply negb_true_iff, H.
Qed.

(** The first loop of the menu variant on integer tokens: the indices in
    range are collected in order and every token out of range is
    reported, in order. *)
Lemma interactive_collect numbers : forall acc st,
  Forall (fun t => is_Some (PyStr.int t)) numbers ->
  Interactive.collect_indices numbers acc st
  = (Ok (acc ++ map index_of
                    (List.filter (goodb (Py.len (selected_albums st))) numbers))%list,
     with_stdout st
       (stdout st ++ map (fun t => ("Invalid album number: " ++ t)%string)
                         (List.filter (oorb (Py.len (selected_albums st))) numbers))%list).
Proof.
  induction numbers as [|num rest IH]; intros acc st Hall.
  - simpl. rewrite !app_nil_r. destruct st; reflexivity.
  - inversion Hall as [|? ? [n Hn] Hrest]; subst.
    simpl Interactive.collect_indices. unfold bind at 1. rewrite Hn. simpl.
    unfold bind at 1. simpl. unfold goodb at 1, oorb at 1. simpl List.filter.
    unfold goodb at 1, oorb at 1. rewrite Hn. unfold in_range.
    destruct ((0 <=? n - 1) && (n - 1 <? Py.len (selected_albums st))) eqn:E; simpl.
    + rewrite IH by exact Hrest. unfold index_of at 2. rewrite Hn. simpl.
      rewrite <- app_assoc. reflexivity.
    + unfold bind at 1. simpl. rewrite IH by exact Hrest. simpl.
      unfold with_stdout. simpl. rewrite <- app_assoc. reflexivity.
Qed.

(** The first loop of the terminal-UI variant, by its first token that is
    not the number of a selected album. *)
Lemma tui_collect_all numbers : forall acc st,
  Forall (token_in_range st) numbers ->
  TUI.collect_indices numbers acc st
  = (Ok (Some (acc ++ map index_of numbers)%list), st).
Proof.
  induction numbers as [|num rest IH]; intros acc st Hall.
  - simpl. rewrite app_nil_r. reflexivity.
  - inversion Hall as [|? ? (n & Hn & Hr) Hrest]; subst.
    simpl TUI.collect_indices. unfold bind at 1. rewrite Hn. simpl.
    unfold bind at 1. simpl. rewrite Hr. rewrite IH by exact Hrest.
    unfold index_of at 2. rewrite Hn. simpl. rewrite <- app_assoc. reflexivity.
Qed.

Lemma tui_collect_out_of_range pre t post : forall acc st,
  Forall (token_in_range st) pre -> token_out_of_range st t ->
  TUI.collect_indices (pre ++ t :: post)%list acc st
  = (Ok None,
     with_stdout st
       (stdout st ++ [("[red]Invalid album number: " ++ t ++ "[/red]")%string])%list).
Proof.
  induction pre as [|num rest IH]; intros acc st Hall (n & Hn & Hr).
  - simpl TUI.collect_indices. unfold bind at 1. rewrite Hn. simpl.
    unfold bind at 1. simpl. rewrite Hr. reflexivity.
  - inversion Hall as [|? ? (m & Hm & Hmr) Hrest]; subst.
    simpl TUI.collect_indices. unfold bind at 1. rewrite Hm. simpl.
    unfold bind at 1. simpl. rewrite Hmr. apply IH; [exact Hrest|]. exists n. auto.
Qed.

Lemma tui_collect_not_int pre t post : forall acc st,
  Forall (token_in_range st) pre -> PyStr.int t = None ->
  TUI.collect_indices (pre ++ t :: post)%list acc st = (Raise Py.ValueError, st).
Proof.
  induction pre as [|num rest IH]; intros acc st Hall Hn.
  - simpl TUI.collect_indices. unfold bind at 1. rewrite Hn. reflexivity.
  - inversion Hall as [|? ? (m & Hm & Hmr) Hrest]; subst.
    simpl TUI.collect_indices. unfold bind at 1. rewrite Hm. simpl.
    unfold bind at 1. simpl. rewrite Hmr. apply IH; assumption.
Qed.

(** A list with a token that is not in range splits at the first one. *)
Lemma first_offender st numbers :
  (exists t, t ∈ numbers /\ ~ token_in_range st t) ->
  exists pre t post,
    numbers = (pre ++ t :: post)%list /\ Forall (token_in_range st) pre
    /\ ~ token_in_range st t.
Proof.
  induction numbers as [|num rest IH]; intros (t & Hin & Hbad).
  - inversion Hin.
  - destruct (goodb (Py.len (selected_albums st)) num) eqn:E.
    + apply goodb_in_range in E.
      destruct IH as (pre & t' & post & -> & Hpre & Ht').
      { exists t. split; [|exact Hbad].
        apply elem_of_cons in Hin as [->|Hin]; [contradiction|exact Hin]. }
      exists (num :: pre), t', post. split; [reflexivity|]. split; [|exact Ht'].
      constructor; assumption.
    + exists [], num, rest. split; [reflexivity|]. split; [constructor|].
      intros H. apply goodb_in_range in H. congruence.
Qed.

(** A removal command is neither [back] nor [clear]. *)
Lemma is_remove_dispatch line :
  is_remove line = true ->
  String.eqb (PyStr.lower (PyStr.strip line)) "back" = false
  /\ String.eqb (PyStr.lower (PyStr.strip line)) "clear" = false.
Proof.
  unfold is_remove. destruct (PyStr.lower (PyStr.strip line)) as [|c s]; intros H.
  - discriminate H.
  - cbn [PyStr.startswith] in H.
    destruct (ascii_dec "r"%char c) as [<-|]; [|discriminate H]. split; reflexivity.
Qed.

Lemma interactive_command_remove line st :
  is_remove line = true ->
  Interactive.command line st
  = Interactive.remove_command (PyStr.lower (PyStr.strip line)) st.
Proof.
  intros H. destruct (is_remove_dispatch line H) as [Hb Hc].
  unfold Interactive.command. rewrite Hb, Hc. unfold is_remove in H. rewrite H.
  reflexivity.
Qed.

Lemma tui_command_remove line confirmed st :
  is_remove line = true ->
  TUI.command line confirmed st
  = (TUI._remove_albums (PyStr.lower (PyStr.strip line)) >> ret Break)%eff st.
Proof.
  intros H. destruct (is_remove_dispatch line H) as [Hb Hc].
  unfold TUI.command. rewrite Hb, Hc. unfold is_remove in H. rewrite H.
  reflexivity.
Qed.

Lemma pop_selected_grows idx : steps grows (pop_selected idx).
Proof.
  unfold pop_selected. apply (steps_bind grows); [apply (steps_get grows)|]. intros st.
  destruct (Py.pop (selected_albums st) idx) as [[x l]|]; [|apply (steps_raise grows)].
  apply (steps_bind grows); [apply set_selected_grows|]. intros _. apply (steps_ret grows).
Qed.

Lemma pop_url_grows idx : steps grows (pop_url idx).
Proof.
  unfold pop_url. apply (steps_bind grows); [apply (steps_get grows)|]. intros st.
  destruct (Py.pop (album_urls st) idx) as [[x l]|]; [|apply (steps_raise grows)].
  apply (steps_bind grows); [apply set_urls_grows|]. intros _. apply (steps_ret grows).
Qed.

Lemma pop_both_grows idx : steps grows (Interactive.pop_both idx).
Proof.
  unfold Interactive.pop_both.
  apply (steps_bind grows); [apply pop_selected_grows|]. intros removed.
  apply (steps_bind grows); [apply pop_url_grows|]. intros _. apply print_grows.
Qed.

(** What the menu variant's [remove] branch does after its first loop
    only adds to what was printed. *)
Lemma interactive_after_collect_grows indices :
  steps grows
    (try_except
       (for_each (Py.sorted_reverse indices) Interactive.pop_both >>
        let* st := get in
        print ("Remaining albums: " ++ PyStr.str_int (Py.len (selected_albums st))) >>
        ret Break)%eff
       catches_value_index
       (fun _ =>
          print "Invalid format. Use 'remove [numbers]' (e.g., 'remove 1 3 5')" >>
          ret Continue)%eff).
Proof.
  apply (steps_try_except grows).
  - apply (steps_bind grows); [apply (steps_for_each grows), pop_both_grows|]. intros _.
    apply (steps_bind grows); [apply (steps_get grows)|]. intros st.
    apply (steps_bind grows); [apply print_grows|]. intros _. apply (steps_ret grows).
  - intros _. apply (steps_bind grows); [apply print_grows|]. intros _. apply (steps_ret grows).
Qed.

Lemma delete_twice {A} (l : list A) : forall i : nat,
  delete i (delete i l) = without_two i l.
Proof.
  unfold without_two.
  induction l as [|x l IH]; intros [|i]; simpl; try reflexivity.
  - destruct l; reflexivity.
  - f_equal. apply IH.
Qed.

Lemma len_delete {A} (l : list A) (i : nat) :
  (i < length l)%nat -> Py.len (delete i l) = Py.len l - 1.
Proof.
  intros H. unfold Py.len. rewrite length_delete by (apply lookup_lt_is_Some_2, H). lia.
Qed.

(** One turn of the second loop, inside the lists: both lose the entry
    at [idx]. *)
Lemma pop_both_run idx st :
  0 <= idx < Py.len (selected_albums st) -> lockstep st ->
  exists removed,
    selected_albums st !! Z.to_nat idx = Some removed
    /\ Interactive.pop_both idx st
       = (Ok tt,
          {| selected_albums := delete (Z.to_nat idx) (selected_albums st);
             album_urls := delete (Z.to_nat idx) (album_urls st);
             stdout := (stdout st ++ [("  Removed: " ++ Selection.artist removed ++ " - "
                                       ++ Selection.album removed)%string])%list |}).
Proof.
  intros Hidx Hlock.
  destruct (pop_in_range (selected_albums st) idx Hidx) as (x & Hx & Hpop).
  assert (0 <= idx < Py.len (album_urls st)) as Hidx'.
  { unfold Py.len in *. unfold lockstep in Hlock. lia. }
  destruct (pop_in_range (album_urls st) idx Hidx') as (u & Hu & Hpopu).
  exists x. split; [exact Hx|].
  unfold Interactive.pop_both, pop_selected, pop_url, bind, get, set_selected,
    set_urls, ret, print. simpl. rewrite Hpop. simpl. rewrite Hpopu. reflexivity.
Qed.

Lemma pop_each_step idx rest count st :
  0 <= idx < Py.len (selected_albums st) -> lockstep st ->
  TUI.pop_each (idx :: rest) count st
  = TUI.pop_each rest (count + 1)
      {| selected_albums := delete (Z.to_nat idx) (selected_albums st);
         album_urls := delete (Z.to_nat idx) (album_urls st);
         stdout := stdout st |}.
Proof.
  intros Hidx Hlock.
  destruct (pop_in_range (selected_albums st) idx Hidx) as (x & Hx & Hpop).
  assert (0 <= idx < Py.len (album_urls st)) as Hidx'.
  { unfold Py.len in *. unfold lockstep in Hlock. lia. }
  destruct (pop_in_range (album_urls st) idx Hidx') as (u & Hu & Hpopu).
  simpl TUI.pop_each.
  unfold pop_selected, pop_url, bind, get, set_selected, set_urls, ret. simpl.
  rewrite Hpop. simpl. rewrite Hpopu. reflexivity.
Qed.

Lemma sorted_reverse_pair i : Py.sorted_reverse [i; i] = [i; i].
Proof. simpl. rewrite Z.leb_refl. reflexivity. Qed.

End RemoveFacts.

(** ** URL reconstruction *)

Module UrlFacts.
Import Sel Common PyStr PyStrFacts.

Lemma safe_name_safe a : all_chars safe_char (safe_name a) = true.
Proof. apply all_chars_strip, all_chars_filter. Qed.

Lemma pseudo_id_decimal h : all_chars isdecimal (pseudo_id h) = true.
Proof.
  unfold pseudo_id. apply all_chars_take. rewrite str_int_abs.
  apply str_nonneg_decimal. lia.
Qed.

Lemma pseudo_id_length h :
  (1 <= String.length (pseudo_id h) <= 10)%nat
  /\ (String.length (pseudo_id h) = 10%nat <-> 10 ^ 9 <= Z.abs h).
Proof.
  unfold pseudo_id. rewrite length_take, str_int_abs.
  pose proof (str_nonneg_length_ge 0 (Z.abs h)) as H0.
  destruct (Z.le_gt_cases (10 ^ 9) (Z.abs h)) as [Hbig|Hsmall].
  - pose proof (str_nonneg_length_ge 9 (Z.abs h) Hbig). lia.
  - pose proof (str_nonneg_length_le 8 (Z.abs h)) as H8.
    change (10 ^ Z.of_nat 9) with (10 ^ 9) in H8.
    change (10 ^ Z.of_nat 0) with 1 in H0.
    destruct (Z.eq_dec h 0) as [->|Hne].
    + vm_compute. split; [lia|]. split; [discriminate|intros H; exfalso; apply H; reflexivity].
    + lia.
Qed.

Section WithOrpheus.

Variable module_settings : list (string * ModuleInformation.t).
Variable hash : string -> Z.

(** The richer probing of the menu variant finds an identifier whenever
    the terminal-UI variant does. *)
Lemma tui_stored_id_falsy a :
  Py.truthy (Interactive.stored_id a) = false -> Py.truthy (TUI.stored_id a) = false.
Proof.
  unfold Interactive.stored_id, TUI.stored_id.
  destruct (AlbumInfo.getattr a "album_id") as [v|];
    [destruct (Py.truthy v) eqn:Ev|];
    destruct (AlbumInfo.getattr a "id"); auto.
Qed.

Lemma hash_key_ext a a' :
  AlbumInfo.name a' = AlbumInfo.name a ->
  AlbumInfo.artist a' = AlbumInfo.artist a ->
  AlbumInfo.release_year a' = AlbumInfo.release_year a ->
  hash_key a' = hash_key a.
Proof. unfold hash_key. intros -> -> ->. reflexivity. Qed.

(** When the [try] block raises, and with what. *)
Lemma build_url_raises module_name a e :
  TUI.build_url module_settings hash module_name a = Raise e <->
  (Py.dict_get module_settings module_name = None /\ e = Py.KeyError module_name)
  \/ (exists settings,
        Py.dict_get module_settings module_name = Some settings
        /\ ModuleInformation.netlocation_constant settings = ModuleInformation.NetList []
        /\ e = Py.IndexError).
Proof.
  unfold TUI.build_url.
  destruct (Py.dict_get module_settings module_name) as [settings|].
  - destruct (ModuleInformation.netlocation_constant settings) as [n|[|n l]] eqn:En;
      simpl; split.
    + discriminate.
    + intros [[? _]|(s' & Hs & Hn & _)]; [discriminate|].
      injection Hs as <-. congruence.
    + intros [= <-]. right. eauto.
    + intros [[? _]|(s' & _ & _ & ->)]; [discriminate|reflexivity].
    + discriminate.
    + intros [[? _]|(s' & Hs & Hn & _)]; [discriminate|].
      injection Hs as <-. congruence.
  - split.
    + intros [= <-]. left. auto.
    + intros [[_ ->]|(s' & ? & _)]; [reflexivity|discriminate].
Qed.

Lemma build_url_raise_same module_name a e :
  Interactive.build_url module_settings hash module_name a = Raise e <->
  TUI.build_url module_settings hash module_name a = Raise e.
Proof.
  unfold Interactive.build_url, TUI.build_url.
  destruct (Py.dict_get module_settings module_name) as [settings|]; [|tauto].
  destruct (first_netloc _); [|tauto]. split; discriminate.
Qed.

End WithOrpheus.

End UrlFacts.

(** C3, as amended: in both selectors [generate_album_url] always returns
    a string and never raises.  When its [try] block fails (the module has
    no settings, or its net-location list is empty) the string is the
    comment ["# <name> (<year>) - <artist>"] in which the album name is
    reduced to its alphanumeric, space, hyphen and underscore characters
    and stripped, while the year and the artist are inserted as they are.
    The two lists are never touched; the terminal-UI variant changes
    nothing at all, the menu variant prints one warning line on failure
    and nothing otherwise. *)
Theorem generate_album_url_never_raises
    (module_settings : list (string * ModuleInformation.t)) (hash : string -> Z)
    (module_name : string) (a : AlbumInfo.t) (st : Sel.state) :
  let comment :=
    "# " ++ Common.safe_name a ++ " (" ++ PyStr.str_int (AlbumInfo.release_year a)
    ++ ") - " ++ AlbumInfo.artist a in
  PyStr.all_chars Common.safe_char (Common.safe_name a) = true
  /\ (exists u,
        TUI.generate_album_url module_settings hash module_name a st = (Eff.Ok u, st)
        /\ forall e, TUI.build_url module_settings hash module_name a = Eff.Raise e ->
                     u = comment)
  /\ (exists u st',
        Interactive.generate_album_url module_settings hash module_name a st
          = (Eff.Ok u, st')
        /\ Sel.same_lists st st'
        /\ (forall e,
              Interactive.build_url module_settings hash module_name a = Eff.Raise e ->
              u = comment
              /\ Sel.stdout st' = (Sel.stdout st ++
                   [("Warning: Could not generate URL for " ++ AlbumInfo.name a
                     ++ ": " ++ Py.exn_str e)%string])%list)
        /\ ((exists u', Interactive.build_url module_settings hash module_name a
                        = Eff.Ok u') -> st' = st)).
Proof.
  intros comment. split; [apply UrlFacts.safe_name_safe|]. split.
  - unfold TUI.generate_album_url.
    destruct (TUI.build_url module_settings hash module_name a) as [u|e].
    + exists u. split; [reflexivity|discriminate].
    + exists (Common.fallback_comment a). split; [reflexivity|]. intros _ _. reflexivity.
  - unfold Interactive.generate_album_url.
    destruct (Interactive.build_url module_settings hash module_name a) as [u|e].
    + exists u, st. repeat split; try discriminate.
    + eexists _, _. split; [reflexivity|]. split; [split; reflexivity|]. split.
      * intros e' [= <-]. split; reflexivity.
      * intros [u' ?]. discriminate.
Qed.

(** C3, the claim as stated fails: for a module without settings the
    comment carries the artist ["AC/DC"] as it is, slash included, and the
    menu variant prints a warning. *)
Lemma generate_album_url_artist_not_sanitized :
  fst (TUI.generate_album_url Fixtures.settings (fun _ => 0) "tidal"
         Fixtures.back_in_black Sel.init)
    = Eff.Ok "# Back in Black (1980) - AC/DC"
  /\ PyStr.all_chars
       (fun c => Common.safe_char c || Fixtures.comment_punctuation c)
       "# Back in Black (1980) - AC/DC" = false
  /\ Sel.stdout (snd (Interactive.generate_album_url Fixtures.settings (fun _ => 0)
                        "tidal" Fixtures.back_in_black Sel.init))
     = ["Warning: Could not generate URL for Back in Black!: 'tidal'"].
Proof. repeat split; vm_compute; reflexivity. Qed.

(** C4, as amended: for an album none of whose attributes gives an
    identifier, both selectors build the URL from the pseudo-identifier
    [str(abs(hash(key)))[:10]], [key] being ["<name>_<artist>_<year>"].
    That identifier is a non-empty string of decimal digits, at most ten
    of them, and exactly ten if and only if the hash is at least 10^9 in
    absolute value; under one hash function it is the same for every
    album of the same name, artist and year. *)
Theorem pseudo_identifier_shape
    (module_settings : list (string * ModuleInformation.t)) (hash : string -> Z)
    (module_name : string) (settings : ModuleInformation.t) (netloc : string)
    (a : AlbumInfo.t) :
  Py.dict_get module_settings module_name = Some settings ->
  Common.first_netloc (ModuleInformation.netlocation_constant settings) = Eff.Ok netloc ->
  Py.truthy (Interactive.stored_id a) = false ->
  let pid := Common.pseudo_id (hash (Common.hash_key a)) in
  let url := "https://" ++ Common.domain_of netloc ++ "/"
             ++ Common.album_path_of (ModuleInformation.url_constants settings)
             ++ "/" ++ pid in
  Interactive.build_url module_settings hash module_name a = Eff.Ok url
  /\ TUI.build_url module_settings hash module_name a = Eff.Ok url
  /\ PyStr.all_chars PyStr.isdecimal pid = true
  /\ (1 <= String.length pid <= 10)%nat
  /\ (String.length pid = 10%nat <-> 10 ^ 9 <= Z.abs (hash (Common.hash_key a)))
  /\ forall a',
       AlbumInfo.name a' = AlbumInfo.name a ->
       AlbumInfo.artist a' = AlbumInfo.artist a ->
       AlbumInfo.release_year a' = AlbumInfo.release_year a ->
       Common.pseudo_id (hash (Common.hash_key a')) = pid.
Proof.
  intros Hs Hn Hid pid url.
  pose proof (UrlFacts.tui_stored_id_falsy a Hid) as Hid'.
  pose proof (UrlFacts.pseudo_id_length (hash (Common.hash_key a))) as [Hlen Hten].
  repeat split.
  - unfold Interactive.build_url. rewrite Hs, Hn, Hid. reflexivity.
  - unfold TUI.build_url. rewrite Hs, Hn, Hid'. reflexivity.
  - apply UrlFacts.pseudo_id_decimal.
  - apply Hlen.
  - apply Hlen.
  - apply Hten.
  - apply Hten.
  - intros a' H1 H2 H3. unfold pid.
    rewrite (UrlFacts.hash_key_ext a a' H1 H2 H3). reflexivity.
Qed.

Lemma pseudo_identifier_shape_witness :
  TUI.build_url Fixtures.settings (fun _ => 9223372036854775807) "qobuz"
    Fixtures.back_in_black
  = Eff.Ok "https://play.qobuz.com/album/9223372036".
Proof.
  exact (proj1 (proj2 (pseudo_identifier_shape Fixtures.settings
           (fun _ => 9223372036854775807) "qobuz" Fixtures.qobuz "qobuz"
           Fixtures.back_in_black eq_refl eq_refl eq_refl))).
Defined.

(** C4, the claim as stated fails: a hash below 10^9 in absolute value
    gives an identifier of fewer than ten digits. *)
Lemma pseudo_identifier_short :
  TUI.build_url Fixtures.settings (fun _ => -42) "qobuz" Fixtures.back_in_black
    = Eff.Ok "https://play.qobuz.com/album/42"
  /\ Interactive.build_url Fixtures.settings (fun _ => -42) "qobuz" Fixtures.back_in_black
    = Eff.Ok "https://play.qobuz.com/album/42"
  /\ String.length (Common.pseudo_id (-42)) <> 10%nat.
Proof.
  split; [vm_compute; reflexivity|].
  split; [vm_compute; reflexivity|]. vm_compute. discriminate.
Qed.

(** C1, as amended.  For a removal command [remove i1 i2 ...]:
    in the terminal-UI variant, if any token is not the number of a
    selected album (out of range, or not an integer), nothing is removed
    from either list, and when the first such token is an integer out of
    range that token, and only it, is reported; in the menu variant, when
    the tokens are integers, every token out of range is reported. *)
Theorem remove_out_of_range (line : string) (confirmed : bool) (st : Sel.state) :
  Common.is_remove line = true ->
  ((exists t, t ∈ Common.tokens line /\ ~ Common.token_in_range st t) ->
   exists st', TUI.command line confirmed st = (Eff.Ok Common.Break, st')
               /\ Sel.same_lists st st')
  /\ (forall pre t post,
        Common.tokens line = (pre ++ t :: post)%list ->
        Forall (Common.token_in_range st) pre ->
        Common.token_out_of_range st t ->
        exists st', TUI.command line confirmed st = (Eff.Ok Common.Break, st')
                    /\ Sel.same_lists st st'
                    /\ Sel.stdout st'
                       = (Sel.stdout st
                          ++ [("[red]Invalid album number: " ++ t ++ "[/red]")%string])%list)
  /\ (Forall (fun t => is_Some (PyStr.int t)) (Common.tokens line) ->
      forall t, t ∈ Common.tokens line -> Common.token_out_of_range st t ->
                ("Invalid album number: " ++ t)%string
                  ∈ Sel.stdout (snd (Interactive.command line st))).
Proof.
  intros Hrm.
  assert (forall pre t post,
            Common.tokens line = (pre ++ t :: post)%list ->
            Forall (Common.token_in_range st) pre ->
            Common.token_out_of_range st t ->
            exists st', TUI.command line confirmed st = (Eff.Ok Common.Break, st')
                        /\ Sel.same_lists st st'
                        /\ Sel.stdout st'
                           = (Sel.stdout st
                              ++ [("[red]Invalid album number: " ++ t ++ "[/red]")%string])%list)
    as Hout.
  { intros pre t post Htok Hpre Hoor.
    rewrite RemoveFacts.tui_command_remove by exact Hrm.
    unfold TUI._remove_albums, TUI.remove_body.
    change (tail (PyStr.split (PyStr.lower (PyStr.strip line)))) with (Common.tokens line).
    rewrite Htok.
    pose proof (RemoveFacts.tui_collect_out_of_range pre t post [] st Hpre Hoor) as Hc.
    unfold Eff.bind at 1, Eff.try_except, Eff.bind at 1. rewrite Hc. simpl.
    eexists. split; [reflexivity|]. split; [split; reflexivity|reflexivity]. }
  split; [|split; [exact Hout|]].
  - intros Hex.
    destruct (RemoveFacts.first_offender st _ Hex) as (pre & t & post & Htok & Hpre & Hbad).
    destruct (RemoveFacts.token_cases st t) as [Hnone|[Hin|Hoor]].
    + rewrite RemoveFacts.tui_command_remove by exact Hrm.
      unfold TUI._remove_albums, TUI.remove_body.
      change (tail (PyStr.split (PyStr.lower (PyStr.strip line)))) with (Common.tokens line).
      rewrite Htok.
      pose proof (RemoveFacts.tui_collect_not_int pre t post [] st Hpre Hnone) as Hc.
      unfold Eff.bind at 1, Eff.try_except, Eff.bind at 1. rewrite Hc. simpl.
      eexists. split; [reflexivity|]. split; reflexivity.
    + contradiction.
    + destruct (Hout pre t post Htok Hpre Hoor) as (st' & H1 & H2 & _). eauto.
  - intros Hall t Hin Hoor.
    rewrite RemoveFacts.interactive_command_remove by exact Hrm.
    unfold Interactive.remove_command, Interactive.remove_body.
    change (tail (PyStr.split (PyStr.lower (PyStr.strip line)))) with (Common.tokens line).
    erewrite EffFacts.try_except_bind_ok
      by (apply RemoveFacts.interactive_collect; exact Hall).
    eapply elem_of_prefix;
      [|apply (RemoveFacts.interactive_after_collect_grows _ (Sel.with_stdout st _))].
    simpl. apply elem_of_app. right.
    apply list_elem_of_fmap. exists t. split; [reflexivity|].
    apply list_elem_of_In, filter_In. split; [apply list_elem_of_In, Hin|].
    apply RemoveFacts.oorb_out_of_range, Hoor.
Qed.

Lemma remove_out_of_range_witness :
  ("Invalid album number: 5"
     ∈ Sel.stdout (snd (Interactive.command "remove 1 5 9" Fixtures.three)))
  /\ exists st', TUI.command "Remove 2 7" false Fixtures.three
                 = (Eff.Ok Common.Break, st')
                 /\ Sel.same_lists Fixtures.three st'.
Proof.
  split.
  - apply (proj2 (proj2 (remove_out_of_range "remove 1 5 9" false Fixtures.three eq_refl))).
    + repeat constructor; eexists; reflexivity.
    + vm_compute. apply list_elem_of_In. simpl. tauto.
    + exists 5. split; reflexivity.
  - apply (proj1 (remove_out_of_range "Remove 2 7" false Fixtures.three eq_refl)).
    exists "7". split.
    + vm_compute. apply list_elem_of_In. simpl. tauto.
    + intros (n & Hn & Hr). vm_compute in Hn. injection Hn as <-. discriminate Hr.
Defined.

(** C1, the claim as stated fails in both variants: the menu variant
    removes album 1 although token 5 is out of range, and the terminal-UI
    variant reports token 5 and never token 6. *)
Lemma remove_out_of_range_partial :
  Sel.selected_albums (snd (Interactive.command "remove 1 5" Fixtures.three))
    = [Fixtures.entry "B"; Fixtures.entry "C"]
  /\ Sel.album_urls (snd (Interactive.command "remove 1 5" Fixtures.three))
    = ["https://b"; "https://c"]
  /\ Sel.stdout (snd (TUI.command "remove 5 6" false Fixtures.three))
    = ["[red]Invalid album number: 5[/red]"].
Proof. split; [|split]; vm_compute; reflexivity. Qed.

(** C10: in both selectors a removal command whose two tokens are the
    same number [n], below the number of selected albums, removes two
    records, those at the 1-based positions [n] and [n+1], from both
    lists: position [n-1] is popped twice. *)
Theorem remove_repeated_index (line t : string) (n : Z) (confirmed : bool)
    (st : Sel.state) :
  Common.is_remove line = true ->
  Common.tokens line = [t; t] ->
  PyStr.int t = Some n ->
  1 <= n < Py.len (Sel.selected_albums st) ->
  Sel.lockstep st ->
  let i := Z.to_nat (n - 1) in
  (exists st', Interactive.command line st = (Eff.Ok Common.Break, st')
               /\ Sel.selected_albums st' = Common.without_two i (Sel.selected_albums st)
               /\ Sel.album_urls st' = Common.without_two i (Sel.album_urls st))
  /\ (exists st', TUI.command line confirmed st = (Eff.Ok Common.Break, st')
                  /\ Sel.selected_albums st' = Common.without_two i (Sel.selected_albums st)
                  /\ Sel.album_urls st' = Common.without_two i (Sel.album_urls st))
  /\ (length (Common.without_two i (Sel.selected_albums st)) + 2
      = length (Sel.selected_albums st))%nat.
Proof.
  intros Hrm Htok Hint Hn Hlock i.
  assert (Common.token_in_range st t) as Hin.
  { exists n. split; [exact Hint|]. unfold Common.in_range.
    destruct (Z.leb_spec 0 (n - 1)); [|lia].
    destruct (Z.ltb_spec (n - 1) (Py.len (Sel.selected_albums st))); [reflexivity|lia]. }
  assert (Common.index_of t = n - 1) as Hidx.
  { unfold Common.index_of. rewrite Hint. reflexivity. }
  assert (i < length (Sel.selected_albums st))%nat as Hi.
  { unfold Py.len in Hn. lia. }
  assert (0 <= n - 1 < Py.len (Sel.selected_albums st)) as H1 by lia.
  split; [|split].
  - rewrite RemoveFacts.interactive_command_remove by exact Hrm.
    unfold Interactive.remove_command, Interactive.remove_body.
    change (tail (PyStr.split (PyStr.lower (PyStr.strip line)))) with (Common.tokens line).
    rewrite Htok.
    erewrite EffFacts.try_except_bind_ok; cycle 1.
    { apply RemoveFacts.interactive_collect. repeat constructor; rewrite Hint; eauto. }
    apply RemoveFacts.goodb_in_range in Hin as Hgood.
    assert (Common.oorb (Py.len (Sel.selected_albums st)) t = false) as Hoor.
    { unfold Common.oorb, Common.goodb in *. rewrite Hint in *. rewrite Hgood. reflexivity. }
    simpl List.filter. rewrite Hgood, Hoor. simpl map. rewrite Hidx, app_nil_l.
    rewrite RemoveFacts.sorted_reverse_pair. simpl Eff.for_each.
    set (st1 := Sel.with_stdout st _).
    destruct (RemoveFacts.pop_both_run (n - 1) st1 H1 Hlock) as (r1 & _ & Hp1).
    unfold Eff.try_except, Eff.bind at 1, Eff.bind at 1. rewrite Hp1.
    set (st2 := {| Sel.selected_albums := _ |}).
    assert (0 <= n - 1 < Py.len (Sel.selected_albums st2)) as H2.
    { simpl. rewrite RemoveFacts.len_delete by exact Hi. lia. }
    assert (Sel.lockstep st2) as Hlock2.
    { unfold Sel.lockstep in *. simpl. rewrite !length_delete; [lia| |].
      - apply lookup_lt_is_Some_2. lia.
      - apply lookup_lt_is_Some_2. exact Hi. }
    destruct (RemoveFacts.pop_both_run (n - 1) st2 H2 Hlock2) as (r2 & _ & Hp2).
    unfold Eff.bind at 1. rewrite Hp2. simpl.
    eexists. split; [reflexivity|]. simpl.
    split; apply RemoveFacts.delete_twice.
  - rewrite RemoveFacts.tui_command_remove by exact Hrm.
    unfold TUI._remove_albums, TUI.remove_body.
    change (tail (PyStr.split (PyStr.lower (PyStr.strip line)))) with (Common.tokens line).
    rewrite Htok.
    pose proof (RemoveFacts.tui_collect_all [t; t] [] st) as Hc.
    unfold Eff.bind at 1, Eff.try_except, Eff.bind at 1.
    rewrite Hc by (repeat constructor; exact Hin).
    simpl map. rewrite Hidx, app_nil_l, RemoveFacts.sorted_reverse_pair.
    unfold Eff.bind at 1.
    rewrite RemoveFacts.pop_each_step by assumption.
    set (st2 := {| Sel.selected_albums := _ |}).
    assert (0 <= n - 1 < Py.len (Sel.selected_albums st2)) as H2.
    { simpl. rewrite RemoveFacts.len_delete by exact Hi. lia. }
    assert (Sel.lockstep st2) as Hlock2.
    { unfold Sel.lockstep in *. simpl. rewrite !length_delete; [lia| |].
      - apply lookup_lt_is_Some_2. lia.
      - apply lookup_lt_is_Some_2. exact Hi. }
    rewrite RemoveFacts.pop_each_step by assumption. simpl.
    eexists. split; [reflexivity|]. simpl.
    split; apply RemoveFacts.delete_twice.
  - unfold Common.without_two. rewrite length_app, length_take, length_drop.
    unfold Py.len in Hn. subst i. lia.
Qed.

Lemma remove_repeated_index_witness :
  exists st', Interactive.command "remove 2 2" Fixtures.three = (Eff.Ok Common.Break, st')
              /\ Sel.selected_albums st' = [Fixtures.entry "A"]
              /\ Sel.album_urls st' = ["https://a"].
Proof.
  assert (1 <= 2 < Py.len (Sel.selected_albums Fixtures.three)) as Hn
    by (vm_compute; split; [discriminate|reflexivity]).
  exact (proj1 (remove_repeated_index "remove 2 2" "2" 2 false Fixtures.three
                  eq_refl eq_refl eq_refl Hn eq_refl)).
Defined.

(** ** Loading a links file *)

Module LoadFacts.
Import Sel Common EffFacts SelFacts.

Lemma is_url_line_http x : is_url_line x = PyStr.startswith x "http".
Proof.
  unfold is_url_line. destruct (PyStr.startswith x "http") eqn:E;
    [|apply andb_false_r].
  destruct x as [|c x]; [discriminate E|].
  cbn [PyStr.startswith] in E.
  destruct (ascii_dec "h"%char c) as [<-|]; [|discriminate E]. reflexivity.
Qed.

(** What [new_urls] holds. *)
Lemma new_urls_spec lines : forall urls,
  NoDup (new_urls urls lines)
  /\ forall x, x ∈ new_urls urls lines
               <-> ((x ∉ urls) /\ exists raw, raw ∈ lines /\ x = PyStr.strip raw
                                              /\ is_url_line x = true).
Proof.
  induction lines as [|raw rest IH]; intros urls.
  - simpl. split; [constructor|]. intros x. split.
    + intros H. inversion H.
    + intros (_ & r & Hr & _). inversion Hr.
  - simpl. destruct (is_url_line (PyStr.strip raw)) eqn:Eu; simpl;
      [destruct (bool_decide_reflect (PyStr.strip raw ∈ urls)) as [Hin|Hnin]; simpl|].
    + destruct (IH urls) as [Hnd Hx]. split; [exact Hnd|]. intros x.
      rewrite Hx. split.
      * intros (Hn & r & Hr & He & Hu). split; [exact Hn|].
        exists r. split; [right; exact Hr|auto].
      * intros (Hn & r & Hr & He & Hu). split; [exact Hn|].
        apply elem_of_cons in Hr as [->|Hr]; [congruence|]. eauto.
    + destruct (IH (urls ++ [PyStr.strip raw])%list) as [Hnd Hx]. split.
      * constructor; [|exact Hnd]. rewrite Hx. intros (Hn & _).
        apply Hn, elem_of_app. right. constructor.
      * intros x. rewrite elem_of_cons, Hx. split.
        -- intros [->|(Hn & r & Hr & He & Hu)].
           ++ split; [exact Hnin|]. exists raw. split; [left|auto].
           ++ split; [intros H; apply Hn, elem_of_app; left; exact H|].
              exists r. split; [right; exact Hr|auto].
        -- intros (Hn & r & Hr & He & Hu).
           destruct (decide (x = PyStr.strip raw)) as [->|Hne]; [left; reflexivity|].
           right. split.
           ++ intros [H|H]%elem_of_app; [contradiction|].
              apply list_elem_of_singleton in H. contradiction.
           ++ apply elem_of_cons in Hr as [->|Hr]; [contradiction|]. eauto.
    + destruct (IH urls) as [Hnd Hx]. split; [exact Hnd|]. intros x.
      rewrite Hx. split.
      * intros (Hn & r & Hr & He & Hu). split; [exact Hn|].
        exists r. split; [right; exact Hr|auto].
      * intros (Hn & r & Hr & He & Hu). split; [exact Hn|].
        apply elem_of_cons in Hr as [->|Hr]; [congruence|]. eauto.
Qed.

(** Nothing is new when every URL of the file is in the list already. *)
Lemma new_urls_nil lines : forall urls,
  (forall raw, raw ∈ lines -> is_url_line (PyStr.strip raw) = true ->
               PyStr.strip raw ∈ urls) ->
  new_urls urls lines = [].
Proof.
  induction lines as [|raw rest IH]; intros urls H; simpl; [reflexivity|].
  destruct (is_url_line (PyStr.strip raw)) eqn:Eu; simpl.
  - rewrite bool_decide_eq_true_2 by (apply H; [left|exact Eu]). simpl.
    apply IH. intros r Hr. apply H. right. exact Hr.
  - apply IH. intros r Hr. apply H. right. exact Hr.
Qed.

Lemma new_urls_after lines urls :
  new_urls (urls ++ new_urls urls lines) lines = [].
Proof.
  apply new_urls_nil. intros raw Hraw Hu.
  destruct (decide (PyStr.strip raw ∈ urls)) as [Hin|Hnin].
  - apply elem_of_app. left. exact Hin.
  - apply elem_of_app. right. apply new_urls_spec. split; [exact Hnin|]. eauto.
Qed.

(** The whole loop of the terminal-UI variant. *)
Lemma tui_load_run lines : forall c st,
  TUI.load_lines lines c st
  = (Ok (c + Py.len (new_urls (album_urls st) lines)),
     {| selected_albums :=
          (selected_albums st ++ map loaded (new_urls (album_urls st) lines))%list;
        album_urls := (album_urls st ++ new_urls (album_urls st) lines)%list;
        stdout := stdout st |}).
Proof.
  induction lines as [|raw rest IH]; intros c st.
  - simpl. unfold ret. rewrite !app_nil_r. destruct st. simpl. f_equal. f_equal.
    unfold Py.len. simpl. lia.
  - simpl TUI.load_lines. unfold bind at 1. unfold TUI.load_line. simpl new_urls.
    destruct (is_url_line (PyStr.strip raw)); simpl; [|apply IH].
    unfold bind at 1, get. simpl.
    destruct (bool_decide (PyStr.strip raw ∈ album_urls st)); simpl; [apply IH|].
    unfold append_url, append_selected, set_urls, set_selected, bind, get, ret.
    simpl. rewrite IH. simpl. rewrite <- !app_assoc. simpl. f_equal. f_equal.
    unfold Py.len. simpl. lia.
Qed.

Section WithUrlparse.

Variable urlparse_raises : string -> bool.

(** The whole loop of the menu variant: every new URL is appended, a
    record only for those [urlparse] accepts. *)
Lemma interactive_load_run lines : forall c st,
  Interactive.load_lines urlparse_raises lines c st
  = (Ok (c + Py.len (List.filter (Interactive.parses urlparse_raises) (new_urls (album_urls st) lines))),
     {| selected_albums :=
          (selected_albums st
           ++ map loaded (List.filter (Interactive.parses urlparse_raises) (new_urls (album_urls st) lines)))%list;
        album_urls := (album_urls st ++ new_urls (album_urls st) lines)%list;
        stdout := stdout st |}).
Proof.
  induction lines as [|raw rest IH]; intros c st.
  - simpl. unfold ret. rewrite !app_nil_r. destruct st. simpl. f_equal. f_equal.
    unfold Py.len. simpl. lia.
  - simpl Interactive.load_lines. unfold bind at 1. unfold Interactive.load_line.
    simpl new_urls.
    destruct (is_url_line (PyStr.strip raw)); simpl; [|apply IH].
    unfold bind at 1, get. simpl.
    destruct (bool_decide (PyStr.strip raw ∈ album_urls st)); simpl; [apply IH|].
    unfold append_url, append_selected, set_urls, set_selected, try_except, bind,
      get, ret, raise. simpl.
    destruct (urlparse_raises (PyStr.strip raw)) eqn:E; simpl; rewrite IH; simpl.
    + assert (Interactive.parses urlparse_raises (PyStr.strip raw) = false) as Hp by (unfold Interactive.parses; rewrite E; reflexivity).
      rewrite ?Hp, ?E. simpl. rewrite <- !app_assoc. reflexivity.
    + assert (Interactive.parses urlparse_raises (PyStr.strip raw) = true) as Hp by (unfold Interactive.parses; rewrite E; reflexivity).
      rewrite ?Hp, ?E. simpl. rewrite <- !app_assoc. simpl. f_equal. f_equal.
      unfold Py.len. simpl. lia.
Qed.

(** The whole dialog of the menu variant, case by case. *)
Lemma interactive_load_existing_file_run inputs file st :
  Interactive.load_existing_file urlparse_raises inputs file st
  = match inputs with
    | [] => (Raise Py.EOFError, st)
    | typed :: after =>
        let filename := PyStr.strip typed in
        if String.eqb filename "" then (Ok after, st)
        else
          (match after with
           | [] => Raise Py.EOFError
           | _ :: rest => Ok rest
           end,
           match file filename with
           | None =>
               with_stdout st (stdout st ++ [("File " ++ filename ++ " not found.")%string])
           | Some lines =>
               let added := new_urls (album_urls st) lines in
               let parsed := List.filter (Interactive.parses urlparse_raises) added in
               {| selected_albums := (selected_albums st ++ map loaded parsed)%list;
                  album_urls := (album_urls st ++ added)%list;
                  stdout :=
                    (stdout st
                     ++ [("✓ Loaded " ++ PyStr.str_int (Py.len parsed)
                          ++ " new album URLs from " ++ filename)%string;
                         ("Total albums now: "
                          ++ PyStr.str_int (Py.len (album_urls st ++ added)%list))%string])%list |}
           end)
    end.
Proof.
  unfold Interactive.load_existing_file.
  destruct inputs as [|typed after]; [reflexivity|].
  unfold bind at 1. cbn [input ret fst snd]. cbv zeta.
  destruct (String.eqb (PyStr.strip typed) ""); [reflexivity|].
  unfold bind at 1.
  destruct (file (PyStr.strip typed)) as [lines|].
  - unfold Interactive.load_file. unfold bind at 1.
    rewrite interactive_load_run. cbn [fst snd].
    unfold bind, get, print, input, ret, raise. cbn [fst snd album_urls selected_albums stdout].
    rewrite Z.add_0_l, <- app_assoc.
    destruct after; reflexivity.
  - unfold bind, print, input, ret, raise, with_stdout. cbn [fst snd].
    destruct after; reflexivity.
Qed.

End WithUrlparse.

(** The whole dialog of the terminal-UI variant, case by case. *)
Lemma tui_load_existing_file_run inputs file st :
  TUI.load_existing_file inputs file st
  = match inputs with
    | [] => (Raise Py.EOFError, st)
    | typed :: after =>
        let filename := PyStr.strip typed in
        if String.eqb filename "" then (Ok after, st)
        else
          (match after with
           | [] => Raise Py.EOFError
           | _ :: rest => Ok rest
           end,
           match file filename with
           | None =>
               with_stdout st
                 (stdout st ++ [("[red]File " ++ filename ++ " not found.[/red]")%string])
           | Some lines =>
               let added := new_urls (album_urls st) lines in
               {| selected_albums := (selected_albums st ++ map loaded added)%list;
                  album_urls := (album_urls st ++ added)%list;
                  stdout :=
                    (stdout st
                     ++ [("[green]✓ Loaded " ++ PyStr.str_int (Py.len added)
                          ++ " new album URLs from " ++ filename ++ "[/green]")%string;
                         ("[blue]Total albums now: "
                          ++ PyStr.str_int (Py.len (album_urls st ++ added)%list)
                          ++ "[/blue]")%string])%list |}
           end)
    end.
Proof.
  unfold TUI.load_existing_file.
  destruct inputs as [|typed after]; [reflexivity|].
  unfold bind at 1. cbn [input ret fst snd]. cbv zeta.
  destruct (String.eqb (PyStr.strip typed) ""); [reflexivity|].
  unfold bind at 1.
  destruct (file (PyStr.strip typed)) as [lines|].
  - unfold TUI.load_file. unfold bind at 1.
    rewrite tui_load_run. cbn [fst snd].
    unfold bind, get, print, input, ret, raise. cbn [fst snd album_urls selected_albums stdout].
    rewrite Z.add_0_l, <- app_assoc.
    destruct after; reflexivity.
  - unfold bind, print, input, ret, raise, with_stdout. cbn [fst snd].
    destruct after; reflexivity.
Qed.

End LoadFacts.

(** C8: in both selectors [load_existing_file], given the name of a
    file that is there, appends to the URL list exactly the stripped
    lines of the file that start with ["http"] and are neither in the
    list nor appended already, each once (every other line, such as a
    [#] comment, is ignored), the terminal-UI selector with one record
    for each; it reports their number and returns once Enter is
    pressed.  Loading the same file again from the resulting state
    adds nothing and reports zero.  A file of one URL line and one [#]
    comment line adds exactly one entry when that URL is new. *)
Theorem load_appends_new_urls (urlparse_raises : string -> bool)
    (typed enter : string) (rest lines : list string)
    (file : string -> option (list string)) (st : Sel.state) :
  let filename := PyStr.strip typed in
  let inputs := typed :: enter :: rest in
  let run_i := Interactive.load_existing_file urlparse_raises inputs file st in
  let run_t := TUI.load_existing_file inputs file st in
  filename <> "" -> file filename = Some lines ->
  (exists added,
     fst run_i = Eff.Ok rest /\ fst run_t = Eff.Ok rest
     /\ Sel.album_urls (snd run_i) = (Sel.album_urls st ++ added)%list
     /\ Sel.album_urls (snd run_t) = (Sel.album_urls st ++ added)%list
     /\ Sel.selected_albums (snd run_t)
        = (Sel.selected_albums st ++ map Common.loaded added)%list
     /\ Sel.stdout (snd run_t)
        = (Sel.stdout st
           ++ [("[green]✓ Loaded " ++ PyStr.str_int (Py.len added)
                ++ " new album URLs from " ++ filename ++ "[/green]")%string;
               ("[blue]Total albums now: "
                ++ PyStr.str_int (Py.len (Sel.album_urls st ++ added)%list)
                ++ "[/blue]")%string])%list
     /\ NoDup added
     /\ forall x, x ∈ added
                  <-> ((x ∉ Sel.album_urls st)
                       /\ exists raw, raw ∈ lines /\ x = PyStr.strip raw
                                      /\ PyStr.startswith x "http" = true))
  /\ (let again_i :=
        Interactive.load_existing_file urlparse_raises inputs file (snd run_i) in
      let again_t := TUI.load_existing_file inputs file (snd run_t) in
      fst again_i = Eff.Ok rest /\ fst again_t = Eff.Ok rest
      /\ Sel.same_lists (snd run_i) (snd again_i)
      /\ Sel.same_lists (snd run_t) (snd again_t)
      /\ Sel.stdout (snd again_i)
         = (Sel.stdout (snd run_i)
            ++ [("✓ Loaded 0 new album URLs from " ++ filename)%string;
                ("Total albums now: "
                 ++ PyStr.str_int (Py.len (Sel.album_urls (snd run_i))))%string])%list
      /\ Sel.stdout (snd again_t)
         = (Sel.stdout (snd run_t)
            ++ [("[green]✓ Loaded 0 new album URLs from " ++ filename
                 ++ "[/green]")%string;
                ("[blue]Total albums now: "
                 ++ PyStr.str_int (Py.len (Sel.album_urls (snd run_t)))
                 ++ "[/blue]")%string])%list)
  /\ (forall u comment,
        lines = [u; comment] ->
        PyStr.startswith (PyStr.strip u) "http" = true ->
        PyStr.startswith (PyStr.strip comment) "#" = true ->
        PyStr.strip u ∉ Sel.album_urls st ->
        Sel.album_urls (snd run_i) = (Sel.album_urls st ++ [PyStr.strip u])%list
        /\ Sel.album_urls (snd run_t) = (Sel.album_urls st ++ [PyStr.strip u])%list
        /\ Sel.selected_albums (snd run_t)
           = (Sel.selected_albums st ++ [Common.loaded (PyStr.strip u)])%list).
Proof.
  intros filename inputs run_i run_t Hname Hfile.
  assert (String.eqb filename "" = false) as Hne
    by (destruct (String.eqb_spec filename ""); [contradiction|reflexivity]).
  assert (forall st0,
            Interactive.load_existing_file urlparse_raises inputs file st0
            = (Eff.Ok rest,
               let added := Common.new_urls (Sel.album_urls st0) lines in
               let parsed := List.filter (Interactive.parses urlparse_raises) added in
               {| Sel.selected_albums :=
                    (Sel.selected_albums st0 ++ map Common.loaded parsed)%list;
                  Sel.album_urls := (Sel.album_urls st0 ++ added)%list;
                  Sel.stdout :=
                    (Sel.stdout st0
                     ++ [("✓ Loaded " ++ PyStr.str_int (Py.len parsed)
                          ++ " new album URLs from " ++ filename)%string;
                         ("Total albums now: "
                          ++ PyStr.str_int
                               (Py.len (Sel.album_urls st0 ++ added)%list))%string])%list
               |})) as Hi.
  { intros st0. rewrite LoadFacts.interactive_load_existing_file_run.
    unfold inputs. cbv zeta. fold filename. rewrite Hne, Hfile. reflexivity. }
  assert (forall st0,
            TUI.load_existing_file inputs file st0
            = (Eff.Ok rest,
               let added := Common.new_urls (Sel.album_urls st0) lines in
               {| Sel.selected_albums :=
                    (Sel.selected_albums st0 ++ map Common.loaded added)%list;
                  Sel.album_urls := (Sel.album_urls st0 ++ added)%list;
                  Sel.stdout :=
                    (Sel.stdout st0
                     ++ [("[green]✓ Loaded " ++ PyStr.str_int (Py.len added)
                          ++ " new album URLs from " ++ filename ++ "[/green]")%string;
                         ("[blue]Total albums now: "
                          ++ PyStr.str_int (Py.len (Sel.album_urls st0 ++ added)%list)
                          ++ "[/blue]")%string])%list |})) as Ht.
  { intros st0. rewrite LoadFacts.tui_load_existing_file_run.
    unfold inputs. cbv zeta. fold filename. rewrite Hne, Hfile. reflexivity. }
  subst run_i run_t. cbv zeta. rewrite !Hi, !Ht. cbv zeta.
  cbn [fst snd Sel.album_urls Sel.selected_albums Sel.stdout].
  split; [|split].
  - exists (Common.new_urls (Sel.album_urls st) lines).
    destruct (LoadFacts.new_urls_spec lines (Sel.album_urls st)) as [Hnd Hx].
    do 6 (split; [reflexivity|]). split; [exact Hnd|]. intros x. rewrite Hx.
    split; intros (Hn & raw & H1 & H2 & H3); (split; [exact Hn|]); exists raw;
      [rewrite <- LoadFacts.is_url_line_http|rewrite LoadFacts.is_url_line_http];
      auto.
  - rewrite LoadFacts.new_urls_after. cbn [List.filter map].
    rewrite !app_nil_r.
    split; [reflexivity|]. split; [reflexivity|].
    split; [split; reflexivity|]. split; [split; reflexivity|].
    split; reflexivity.
  - intros u comment -> Hu Hc Hnew. simpl.
    rewrite !LoadFacts.is_url_line_http, Hu.
    rewrite bool_decide_eq_false_2 by exact Hnew. simpl.
    assert (PyStr.startswith (PyStr.strip comment) "http" = false) as Hc'.
    { destruct (PyStr.strip comment) as [|k r]; [reflexivity|].
      cbn [PyStr.startswith] in *.
      destruct (ascii_dec "#"%char k) as [<-|]; [reflexivity|discriminate Hc]. }
    rewrite Hc'. simpl. repeat split.
Qed.

Lemma load_appends_new_urls_witness :
  let file := fun _ : string => Some ["https://play.qobuz.com/album/1
"; "# a comment"] in
  let run := TUI.load_existing_file ["links.txt"; ""] file Sel.init in
  fst run = Eff.Ok []
  /\ Sel.album_urls (snd run) = ["https://play.qobuz.com/album/1"]
  /\ Sel.selected_albums (snd run)
     = [Common.loaded "https://play.qobuz.com/album/1"]
  /\ Sel.same_lists (snd run)
       (snd (TUI.load_existing_file ["links.txt"; ""] file (snd run))).
Proof.
  intros file run.
  assert (PyStr.strip "links.txt" <> "") as Hname by discriminate.
  assert ("https://play.qobuz.com/album/1" ∉ Sel.album_urls Sel.init) as Hnew
    by (intros H; inversion H).
  pose proof (load_appends_new_urls (fun _ => false) "links.txt" "" []
                ["https://play.qobuz.com/album/1
"; "# a comment"] file Sel.init Hname eq_refl) as (Hfirst & Hagain & Hone).
  destruct Hfirst as (added & _ & Hret & _).
  destruct (Hone "https://play.qobuz.com/album/1
" "# a comment" eq_refl eq_refl eq_refl Hnew) as (_ & Hurls & Hsel).
  split; [exact Hret|]. split; [exact Hurls|]. split; [exact Hsel|].
  exact (proj1 (proj2 (proj2 (proj2 Hagain)))).
Defined.

(** ** Lockstep of the two lists *)

Module LockstepFacts.
Import Sel Common EffFacts SelFacts.

Ltac run_sel :=
  unfold append_selected, append_url, pop_selected, pop_url, set_selected, set_urls,
    print, bind, get, ret, raise, try_except; simpl.

Lemma print_lockstep line : steps keeps_lockstep (print line).
Proof. apply steps_same_lockstep, print_same. Qed.

Lemma clear_lockstep (m : M signal) :
  steps keeps_lockstep (set_selected [] >> set_urls [] >> m)%eff
  <-> forall st, lockstep st ->
        lockstep (snd (m {| selected_albums := []; album_urls := [];
                            stdout := stdout st |})).
Proof. unfold steps, keeps_lockstep. run_sel. reflexivity. Qed.

(** Popping both lists at one index keeps them in lockstep: the second
    pop succeeds exactly when the first does. *)
Lemma pop_pair_lockstep idx st x l :
  lockstep st -> Py.pop (selected_albums st) idx = Some (x, l) ->
  exists u k, Py.pop (album_urls st) idx = Some (u, k) /\ length l = length k.
Proof.
  intros Hlock Hpop.
  destruct (pop_some_iff_length (selected_albums st) (album_urls st) idx Hlock)
    as [[u k] Hu]; [rewrite Hpop; eauto|].
  exists u, k. split; [exact Hu|].
  apply pop_length in Hpop. apply pop_length in Hu. unfold lockstep in Hlock. lia.
Qed.

Lemma interactive_pop_both_lockstep idx : steps keeps_lockstep (Interactive.pop_both idx).
Proof.
  intros st Hlock. unfold Interactive.pop_both. run_sel.
  destruct (Py.pop (selected_albums st) idx) as [[x l]|] eqn:E; simpl; [|exact Hlock].
  destruct (pop_pair_lockstep idx st x l Hlock E) as (u & k & -> & Hlen). simpl.
  exact Hlen.
Qed.

Lemma tui_pop_each_lockstep indices : forall count,
  steps keeps_lockstep (TUI.pop_each indices count).
Proof.
  induction indices as [|idx rest IH]; intros count st Hlock; [exact Hlock|].
  simpl TUI.pop_each. run_sel.
  destruct (Py.pop (selected_albums st) idx) as [[x l]|] eqn:E; simpl; [|exact Hlock].
  destruct (pop_pair_lockstep idx st x l Hlock E) as (u & k & -> & Hlen). simpl.
  apply IH. exact Hlen.
Qed.

Lemma interactive_collect_same numbers : forall acc,
  steps same_lists (Interactive.collect_indices numbers acc).
Proof.
  induction numbers as [|num rest IH]; intros acc; simpl.
  - apply (steps_ret same_lists).
  - apply (steps_bind same_lists); [apply (steps_of_option same_lists)|]. intros n.
    apply (steps_bind same_lists); [apply (steps_get same_lists)|]. intros st.
    destruct (in_range (n - 1) st); [apply IH|].
    apply (steps_bind same_lists); [apply print_same|]. intros _. apply IH.
Qed.

Lemma tui_collect_same numbers : forall acc,
  steps same_lists (TUI.collect_indices numbers acc).
Proof.
  induction numbers as [|num rest IH]; intros acc; simpl.
  - apply (steps_ret same_lists).
  - apply (steps_bind same_lists); [apply (steps_of_option same_lists)|]. intros n.
    apply (steps_bind same_lists); [apply (steps_get same_lists)|]. intros st.
    destruct (in_range (n - 1) st); [apply IH|].
    apply (steps_bind same_lists); [apply print_same|]. intros _.
    apply (steps_ret same_lists).
Qed.

Lemma interactive_command_lockstep line : steps keeps_lockstep (Interactive.command line).
Proof.
  unfold Interactive.command.
  destruct (String.eqb _ "back"); [apply (steps_ret keeps_lockstep)|].
  destruct (String.eqb _ "clear").
  - apply clear_lockstep. intros st _. reflexivity.
  - destruct (PyStr.startswith _ "remove ").
    + unfold Interactive.remove_command, Interactive.remove_body.
      apply (steps_try_except keeps_lockstep).
      * apply (steps_bind keeps_lockstep);
          [apply steps_same_lockstep, interactive_collect_same|]. intros indices.
        apply (steps_bind keeps_lockstep);
          [apply (steps_for_each keeps_lockstep), interactive_pop_both_lockstep|].
        intros _. apply (steps_bind keeps_lockstep); [apply (steps_get keeps_lockstep)|].
        intros st. apply (steps_bind keeps_lockstep); [apply print_lockstep|].
        intros _. apply (steps_ret keeps_lockstep).
      * intros _. apply (steps_bind keeps_lockstep); [apply print_lockstep|].
        intros _. apply (steps_ret keeps_lockstep).
    + apply (steps_bind keeps_lockstep); [apply print_lockstep|].
      intros _. apply (steps_ret keeps_lockstep).
Qed.

Lemma tui_command_lockstep answer confirmed :
  steps keeps_lockstep (TUI.command answer confirmed).
Proof.
  unfold TUI.command.
  destruct (String.eqb _ "back"); [apply (steps_ret keeps_lockstep)|].
  destruct (String.eqb _ "clear").
  - unfold TUI.clear_command. destruct confirmed; [|apply (steps_ret keeps_lockstep)].
    apply clear_lockstep. intros st _. reflexivity.
  - destruct (PyStr.startswith _ "remove ").
    + apply (steps_bind keeps_lockstep); [|intros _; apply (steps_ret keeps_lockstep)].
      unfold TUI._remove_albums, TUI.remove_body.
      apply (steps_try_except keeps_lockstep).
      * apply (steps_bind keeps_lockstep);
          [apply steps_same_lockstep, tui_collect_same|]. intros [indices|];
          [|apply (steps_ret keeps_lockstep)].
        apply (steps_bind keeps_lockstep); [apply tui_pop_each_lockstep|].
        intros count. apply (steps_bind keeps_lockstep); [apply print_lockstep|].
        intros _. apply (steps_bind keeps_lockstep); [apply (steps_get keeps_lockstep)|].
        intros st. apply print_lockstep.
      * intros _. apply print_lockstep.
    + apply (steps_bind keeps_lockstep); [apply print_lockstep|].
      intros _. apply (steps_ret keeps_lockstep).
Qed.

Lemma interactive_loop_lockstep inputs : steps keeps_lockstep (Interactive.command_loop inputs).
Proof.
  induction inputs as [|line rest IH]; simpl; [apply (steps_raise keeps_lockstep)|].
  apply (steps_bind keeps_lockstep); [apply interactive_command_lockstep|].
  intros [|]; [apply (steps_ret keeps_lockstep)|exact IH].
Qed.

Lemma tui_loop_lockstep inputs : steps keeps_lockstep (TUI.command_loop inputs).
Proof.
  induction inputs as [|[answer confirmed] rest IH]; simpl;
    [apply (steps_raise keeps_lockstep)|].
  apply (steps_bind keeps_lockstep); [apply tui_command_lockstep|].
  intros [|]; [apply (steps_ret keeps_lockstep)|exact IH].
Qed.

Lemma show_lines_lockstep l : forall i, steps keeps_lockstep (Interactive.show_lines i l).
Proof.
  induction l as [|r l IH]; intros i; simpl; [apply (steps_ret keeps_lockstep)|].
  apply (steps_bind keeps_lockstep); [apply print_lockstep|]. intros _. apply IH.
Qed.

Lemma interactive_show_lockstep inputs :
  steps keeps_lockstep (Interactive.show_selected_albums inputs).
Proof.
  unfold Interactive.show_selected_albums.
  apply (steps_bind keeps_lockstep); [apply (steps_get keeps_lockstep)|]. intros st.
  destruct (selected_albums st).
  - apply (steps_bind keeps_lockstep); [apply print_lockstep|].
    intros _. apply (steps_ret keeps_lockstep).
  - repeat (apply (steps_bind keeps_lockstep);
            [first [apply print_lockstep|apply show_lines_lockstep]|intros _]).
    apply interactive_loop_lockstep.
Qed.

Lemma tui_show_lockstep inputs : steps keeps_lockstep (TUI.show_selected_albums inputs).
Proof.
  unfold TUI.show_selected_albums.
  apply (steps_bind keeps_lockstep); [apply (steps_get keeps_lockstep)|]. intros st.
  destruct (selected_albums st); [|apply tui_loop_lockstep].
  destruct inputs; [apply (steps_raise keeps_lockstep)|apply (steps_ret keeps_lockstep)].
Qed.

(** Reading a line changes nothing. *)
Lemma input_lockstep inputs : steps keeps_lockstep (input inputs).
Proof.
  destruct inputs; [apply (steps_raise keeps_lockstep)|apply (steps_ret keeps_lockstep)].
Qed.

Section WithOrpheus.

Variable module_settings : list (string * ModuleInformation.t).
Variable hash : string -> Z.
Variable beauty_format_seconds : Z -> string.
Variable urlparse_raises : string -> bool.

(** Adding one album: a record and a URL, one each. *)
Lemma interactive_add_one module_name artist_name album :
  steps keeps_lockstep
    (append_selected (searched module_name artist_name album) >>
     let* url := Interactive.generate_album_url module_settings hash module_name album in
     append_url url >>
     print ("  ✓ " ++ AlbumInfo.name album ++ " ("
            ++ PyStr.str_int (AlbumInfo.release_year album) ++ ")"
            ++ Interactive.duration_str beauty_format_seconds album))%eff.
Proof.
  intros st Hlock. unfold lockstep in *. unfold Interactive.generate_album_url.
  destruct (Interactive.build_url module_settings hash module_name album);
    run_sel; rewrite !length_app; simpl; lia.
Qed.

Lemma tui_add_one module_name artist_name album :
  steps keeps_lockstep
    (append_selected (searched module_name artist_name album) >>
     let* url := TUI.generate_album_url module_settings hash module_name album in
     append_url url)%eff.
Proof.
  intros st Hlock. unfold lockstep in *. unfold TUI.generate_album_url.
  destruct (TUI.build_url module_settings hash module_name album);
    run_sel; rewrite !length_app; simpl; lia.
Qed.

Lemma interactive_add_lockstep module_name albums artist_name :
  steps keeps_lockstep
    (Interactive.add_selected_albums module_settings hash beauty_format_seconds
       module_name albums artist_name).
Proof.
  unfold Interactive.add_selected_albums.
  destruct albums as [|a albums]; [apply (steps_ret keeps_lockstep)|].
  apply (steps_bind keeps_lockstep); [apply print_lockstep|]. intros _.
  apply (steps_bind keeps_lockstep).
  - apply (steps_for_each keeps_lockstep). intros album. apply interactive_add_one.
  - intros _. apply (steps_bind keeps_lockstep); [apply (steps_get keeps_lockstep)|].
    intros st. apply print_lockstep.
Qed.

Lemma tui_add_lockstep module_name albums artist_name inputs :
  steps keeps_lockstep
    (TUI.add_selected_albums module_settings hash module_name albums artist_name
       inputs).
Proof.
  unfold TUI.add_selected_albums.
  destruct albums as [|a albums]; [apply (steps_ret keeps_lockstep)|].
  apply (steps_bind keeps_lockstep).
  - apply (steps_for_each keeps_lockstep). intros album. apply tui_add_one.
  - intros _. apply (steps_bind keeps_lockstep); [apply print_lockstep|]. intros _.
    apply (steps_bind keeps_lockstep); [apply (steps_get keeps_lockstep)|].
    intros st. apply (steps_bind keeps_lockstep); [apply print_lockstep|]. intros _.
    apply (steps_bind keeps_lockstep); [apply input_lockstep|]. intros enter.
    apply (steps_ret keeps_lockstep).
Qed.

Lemma tui_load_lines_lockstep lines c : steps keeps_lockstep (TUI.load_lines lines c).
Proof.
  intros st Hlock. rewrite LoadFacts.tui_load_run. unfold lockstep in *. simpl.
  rewrite !length_app, length_map. lia.
Qed.

(** The menu variant keeps lockstep over a load when [urlparse] accepts
    every line it is given. *)
Lemma interactive_load_lines_lockstep lines c :
  (forall u, u ∈ stripped_lines lines -> urlparse_raises u = false) ->
  forall st, lockstep st ->
    lockstep (snd (Interactive.load_lines urlparse_raises lines c st)).
Proof.
  intros Hok st Hlock. rewrite LoadFacts.interactive_load_run.
  unfold lockstep in *. simpl. rewrite !length_app, length_map.
  rewrite forallb_filter_id; [lia|].
  apply forallb_forall. intros u Hu. unfold Interactive.parses.
  rewrite Hok; [reflexivity|].
  apply list_elem_of_In in Hu. apply LoadFacts.new_urls_spec in Hu as (_ & raw & H1 & -> & H3).
  apply list_elem_of_fmap. exists raw. auto.
Qed.

Lemma tui_load_lockstep inputs file :
  steps keeps_lockstep (TUI.load_existing_file inputs file).
Proof.
  unfold TUI.load_existing_file.
  apply (steps_bind keeps_lockstep); [apply input_lockstep|]. intros typed.
  destruct (String.eqb _ ""); [apply (steps_ret keeps_lockstep)|].
  apply (steps_bind keeps_lockstep).
  - destruct (file _); [|apply print_lockstep]. unfold TUI.load_file.
    apply (steps_bind keeps_lockstep); [apply tui_load_lines_lockstep|]. intros c.
    apply (steps_bind keeps_lockstep); [apply print_lockstep|]. intros _.
    apply (steps_bind keeps_lockstep); [apply (steps_get keeps_lockstep)|].
    intros st. apply print_lockstep.
  - intros _. apply (steps_bind keeps_lockstep); [apply input_lockstep|]. intros enter.
    apply (steps_ret keeps_lockstep).
Qed.

(** The terminal-UI selector stays in lockstep over every sequence of
    operations. *)
Lemma tui_lockstep ops : forall st,
  lockstep st -> lockstep (TUI.perform_all module_settings hash ops st).
Proof.
  induction ops as [|o ops IH]; intros st Hlock; [exact Hlock|].
  simpl. apply IH. revert st Hlock.
  change (steps keeps_lockstep (TUI.perform module_settings hash o)).
  destruct o as [module_name albums artist_name inputs|answers|inputs content]; simpl.
  - apply (steps_bind keeps_lockstep); [apply tui_add_lockstep|].
    intros _. apply (steps_ret keeps_lockstep).
  - apply (steps_bind keeps_lockstep); [apply tui_show_lockstep|].
    intros _. apply (steps_ret keeps_lockstep).
  - apply (steps_bind keeps_lockstep); [apply tui_load_lockstep|].
    intros _. apply (steps_ret keeps_lockstep).
Qed.

Lemma interactive_load_lockstep inputs content :
  (forall lines, content = Some lines ->
     forall u, u ∈ stripped_lines lines -> urlparse_raises u = false) ->
  steps keeps_lockstep
    (Interactive.load_existing_file urlparse_raises inputs (fun _ => content)).
Proof.
  intros Hok. unfold Interactive.load_existing_file.
  apply (steps_bind keeps_lockstep); [apply input_lockstep|]. intros typed.
  destruct (String.eqb _ ""); [apply (steps_ret keeps_lockstep)|].
  apply (steps_bind keeps_lockstep).
  - destruct content as [lines|]; [|apply print_lockstep].
    unfold Interactive.load_file. apply (steps_bind keeps_lockstep).
    + intros st Hlock. apply interactive_load_lines_lockstep; [|exact Hlock].
      apply Hok. reflexivity.
    + intros c. apply (steps_bind keeps_lockstep); [apply print_lockstep|]. intros _.
      apply (steps_bind keeps_lockstep); [apply (steps_get keeps_lockstep)|].
      intros st. apply print_lockstep.
  - intros _. apply (steps_bind keeps_lockstep); [apply input_lockstep|]. intros enter.
    apply (steps_ret keeps_lockstep).
Qed.

(** The menu selector stays in lockstep over every sequence of operations
    whose loaded lines [urlparse] accepts. *)
Lemma interactive_lockstep ops : forall st,
  (forall inputs lines, LoadFile inputs (Some lines) ∈ ops ->
     forall u, u ∈ stripped_lines lines -> urlparse_raises u = false) ->
  lockstep st ->
  lockstep (Interactive.perform_all module_settings hash beauty_format_seconds
              urlparse_raises ops st).
Proof.
  induction ops as [|o ops IH]; intros st Hok Hlock; [exact Hlock|].
  simpl. apply IH; [intros typed lines Hin; apply (Hok typed lines); right; exact Hin|].
  revert st Hlock.
  change (steps keeps_lockstep
            (Interactive.perform module_settings hash beauty_format_seconds
               urlparse_raises o)).
  destruct o as [module_name albums artist_name inputs|answers|inputs content]; simpl.
  - apply interactive_add_lockstep.
  - apply (steps_bind keeps_lockstep); [apply interactive_show_lockstep|].
    intros _. apply (steps_ret keeps_lockstep).
  - apply (steps_bind keeps_lockstep).
    + apply interactive_load_lockstep. intros lines ->. apply (Hok inputs). left.
    + intros _. apply (steps_ret keeps_lockstep).
Qed.

End WithOrpheus.

End LockstepFacts.

(** C2, evaluated where it fails: in the menu selector, loading a file
    whose one line is [http://[], a string [urlparse] rejects, appends the
    URL and no record, so the URL list is one longer than the list of
    selected albums; the terminal-UI selector appends both. *)
Theorem interactive_load_breaks_lockstep :
  let ops := [Common.LoadFile ["links.txt"; ""] (Some ["http://["])] in
  let st := Interactive.perform_all Fixtures.settings (fun _ => 0) (fun _ => "")
              Urllib.invalid_ipv6 ops Sel.init in
  Urllib.invalid_ipv6 "http://[" = true
  /\ Sel.lockstep Sel.init
  /\ Sel.album_urls st = ["http://["]
  /\ Sel.selected_albums st = []
  /\ ~ Sel.lockstep st
  /\ Sel.lockstep (TUI.perform_all Fixtures.settings (fun _ => 0) ops Sel.init).
Proof.
  simpl. split; [vm_compute; reflexivity|]. split; [reflexivity|].
  split; [vm_compute; reflexivity|]. split; [vm_compute; reflexivity|].
  split; [vm_compute; discriminate|vm_compute; reflexivity].
Qed.

(** ** Sizes in binary units *)

Module SizeFacts.
Import Sync.

Lemma pow_1024_pos k : 0 < 1024 ^ Z.of_nat k.
Proof. apply Z.pow_pos_nonneg; lia. Qed.

Lemma inject_pow_nonzero k : ~ (inject_Z (1024 ^ Z.of_nat k) == 0)%Q.
Proof.
  pose proof (pow_1024_pos k) as H. intros E.
  apply (Qlt_irrefl 0). rewrite <- E at 2.
  change 0%Q with (inject_Z 0). rewrite <- Zlt_Qlt. exact H.
Qed.

Lemma div_pow_succ (x : Q) k :
  (x / 1024 / inject_Z (1024 ^ Z.of_nat k) == x / inject_Z (1024 ^ Z.of_nat (S k)))%Q.
Proof.
  rewrite Nat2Z.inj_succ, Z.pow_succ_r by lia. rewrite inject_Z_mult.
  pose proof (inject_pow_nonzero k) as Hk.
  change (inject_Z 1024) with 1024%Q. field. exact Hk.
Qed.

(** The loop of [format_size] stops at the first unit under which the
    value is below 1024, or runs out of units. *)
Lemma format_size_from_spec us : forall x : Q,
  exists (k : nat) (x' : Q),
    (k <= length us)%nat
    /\ (x' == x / inject_Z (1024 ^ Z.of_nat k))%Q
    /\ format_size_from us x = format_1f x' ++ " " ++ nth k us "PB"
    /\ ((k < length us)%nat -> (x' < 1024)%Q)
    /\ forall j, (j < k)%nat -> (1024 <= x / inject_Z (1024 ^ Z.of_nat j))%Q.
Proof.
  induction us as [|u us IH]; intros x.
  - exists 0%nat, x. split; [simpl; lia|].
    split; [|split; [reflexivity|split; simpl; intros; lia]].
    change (inject_Z (1024 ^ Z.of_nat 0)) with 1%Q. field.
  - simpl format_size_from. destruct (Qle_bool 1024 x) eqn:E.
    + destruct (IH (x / 1024)%Q) as (k & x' & Hk & Hx & Hf & Hlt & Hge).
      exists (S k), x'. split; [simpl; lia|]. split; [|split; [|split]].
      * rewrite Hx. apply div_pow_succ.
      * exact Hf.
      * intros H. apply Hlt. simpl in H. lia.
      * intros [|j] Hj.
        -- change (inject_Z (1024 ^ Z.of_nat 0)) with 1%Q.
           apply Qle_bool_iff in E. apply (Qle_trans _ x); [exact E|].
           apply Qle_lteq. right. field.
        -- rewrite <- div_pow_succ. apply Hge. lia.
    + exists 0%nat, x. split; [simpl; lia|]. split; [|split; [reflexivity|split]].
      * change (inject_Z (1024 ^ Z.of_nat 0)) with 1%Q. field.
      * intros _. apply Qnot_le_lt. intros H. apply Qle_bool_iff in H. congruence.
      * intros j Hj. lia.
Qed.

(** Comparing a scaled byte count with 1024, on integers. *)
Lemma scaled_ge n j :
  (1024 <= inject_Z n / inject_Z (1024 ^ Z.of_nat j))%Q ->
  1024 ^ Z.of_nat (S j) <= n.
Proof.
  intros H. pose proof (pow_1024_pos j) as Hp.
  destruct (Z.le_gt_cases (1024 ^ Z.of_nat (S j)) n) as [Hle|Hgt]; [exact Hle|].
  exfalso. apply (Qle_not_lt _ _ H). apply Qlt_shift_div_r.
  - change 0%Q with (inject_Z 0). rewrite <- Zlt_Qlt. exact Hp.
  - change 1024%Q with (inject_Z 1024). rewrite <- inject_Z_mult, <- Zlt_Qlt.
    rewrite Nat2Z.inj_succ, Z.pow_succ_r in Hgt by lia. exact Hgt.
Qed.

Lemma scaled_lt n k (x : Q) :
  (x == inject_Z n / inject_Z (1024 ^ Z.of_nat k))%Q -> (x < 1024)%Q ->
  n < 1024 ^ Z.of_nat (S k).
Proof.
  intros Hx H. pose proof (pow_1024_pos k) as Hp.
  destruct (Z.lt_ge_cases n (1024 ^ Z.of_nat (S k))) as [Hlt|Hge]; [exact Hlt|].
  exfalso. apply (Qlt_not_le _ _ H). rewrite Hx. apply Qle_shift_div_l.
  - change 0%Q with (inject_Z 0). rewrite <- Zlt_Qlt. exact Hp.
  - change 1024%Q with (inject_Z 1024). rewrite <- inject_Z_mult, <- Zle_Qle.
    rewrite Nat2Z.inj_succ, Z.pow_succ_r in Hge by lia. lia.
Qed.

End SizeFacts.

(** ** The file system *)

Module SyncFacts.
Import Sync EffFacts.

Ltac run_sync :=
  unfold exists_, getmtime, getsize, log_call, set_fs, print, bind, get, ret, raise;
  simpl.

Lemma ancestors_spec (p q : path) :
  q ∈ ancestors p <-> exists n, (1 <= n <= length p)%nat /\ q = firstn n p.
Proof.
  unfold ancestors. rewrite list_elem_of_fmap. split.
  - intros (n & -> & Hn). apply list_elem_of_In, in_seq in Hn. exists n. split; [lia|reflexivity].
  - intros (n & Hn & ->). exists n. split; [reflexivity|].
    apply list_elem_of_In, in_seq. lia.
Qed.

(** A path is not among the ancestors of its own directory. *)
Lemma not_own_ancestor (p : path) : p ∉ ancestors (dirname p).
Proof.
  intros (n & Hn & Ep)%ancestors_spec.
  assert (length p = length (firstn n (dirname p))) as Hlen by (rewrite <- Ep; reflexivity).
  rewrite length_firstn in Hlen. unfold dirname in *.
  destruct p as [|a p]; [simpl in Hn; lia|].
  assert (length (removelast (a :: p)) < length (a :: p))%nat.
  { clear. revert a. induction p as [|b p IH]; intros a; simpl in *; [lia|].
    specialize (IH b). lia. }
  lia.
Qed.

Section WithClock.

Variable fresh_dir : stat.

Lemma mkdirs_keeps l : forall (m : gmap path node) p n,
  m !! p = Some n -> foldr (mkdir_missing fresh_dir) m l !! p = Some n.
Proof.
  induction l as [|a l IH]; intros m p n H; simpl; [exact H|].
  unfold mkdir_missing at 1. specialize (IH m p n H).
  destruct (foldr (mkdir_missing fresh_dir) m l !! a) eqn:E; [exact IH|].
  rewrite lookup_insert_ne; [exact IH|]. intros ->. congruence.
Qed.

Lemma mkdirs_elsewhere l : forall (m : gmap path node) p,
  p ∉ l -> foldr (mkdir_missing fresh_dir) m l !! p = m !! p.
Proof.
  induction l as [|a l IH]; intros m p H; simpl; [reflexivity|].
  apply not_elem_of_cons in H as [Hne Hl].
  unfold mkdir_missing at 1.
  destruct (foldr (mkdir_missing fresh_dir) m l !! a) eqn:E; [apply IH, Hl|].
  rewrite lookup_insert_ne by congruence. apply IH, Hl.
Qed.

(** After [makedirs], every ancestor is there: as it was, or as a new
    directory. *)
Lemma mkdirs_there l : forall (m : gmap path node) p,
  p ∈ l ->
  foldr (mkdir_missing fresh_dir) m l !! p
  = Some (default (Dir fresh_dir) (m !! p)).
Proof.
  induction l as [|a l IH]; intros m p H; [inversion H|]. simpl.
  unfold mkdir_missing at 1.
  destruct (foldr (mkdir_missing fresh_dir) m l !! a) eqn:E.
  - destruct (decide (p ∈ l)) as [Hl|Hl]; [apply IH, Hl|].
    apply elem_of_cons in H as [->|H]; [|contradiction].
    rewrite E. rewrite mkdirs_elsewhere in E by exact Hl. rewrite E. reflexivity.
  - destruct (decide (p = a)) as [->|Hne].
    + rewrite lookup_insert_eq.
      destruct (m !! a) eqn:Ea; [|reflexivity].
      rewrite (mkdirs_keeps l m a n Ea) in E. discriminate.
    + rewrite lookup_insert_ne by congruence.
      apply elem_of_cons in H as [->|H]; [congruence|]. apply IH, H.
Qed.

Lemma makedirs_run p w :
  makedirs fresh_dir p w
  = if existsb (fun q => is_file (fs w !! q)) (ancestors p)
    then (Raise Py.OSError,
          {| fs := fs w; calls := (calls w ++ [Makedirs p])%list; stdout := stdout w |})
    else (Ok tt,
          {| fs := foldr (mkdir_missing fresh_dir) (fs w) (ancestors p);
             calls := (calls w ++ [Makedirs p])%list; stdout := stdout w |}).
Proof.
  unfold makedirs. run_sync.
  destruct (existsb _ _); reflexivity.
Qed.

Lemma should_copy_run src dest w s :
  fs w !! src = Some s ->
  should_copy src dest w = (Ok (stale (fs w) src dest), w).
Proof.
  intros Hs. unfold should_copy, stale, up_to_date. run_sync. rewrite Hs.
  destruct (fs w !! dest) as [d|] eqn:Ed; simpl; [|reflexivity].
  rewrite Hs. simpl. rewrite Ed. simpl. rewrite Hs. simpl. rewrite Ed. simpl.
  destruct (Qle_bool _ _ && _); reflexivity.
Qed.

(** [stale] in words: no destination, or an older one, or one of
    another size. *)
Lemma stale_iff (m : gmap path node) src dest s :
  m !! src = Some s ->
  stale m src dest = true
  <-> match m !! dest with
      | None => True
      | Some d =>
          (st_mtime (node_stat d) < st_mtime (node_stat s))%Q
          \/ st_size (node_stat s) <> st_size (node_stat d)
      end.
Proof.
  intros Hs. unfold stale. rewrite Hs. destruct (m !! dest) as [d|]; [|tauto].
  rewrite negb_true_iff, andb_false_iff. split.
  - intros [H|H].
    + left. apply Qnot_le_lt. intros Hle. apply Qle_bool_iff in Hle. congruence.
    + right. apply Z.eqb_neq, H.
  - intros [H|H].
    + left. destruct (Qle_bool _ _) eqn:E; [|reflexivity].
      apply Qle_bool_iff in E. exfalso. exact (Qlt_not_le _ _ H E).
    + right. apply Z.eqb_neq, H.
Qed.

Lemma stale_after_mkdirs (m : gmap path node) src dest s :
  m !! src = Some s ->
  stale (foldr (mkdir_missing fresh_dir) m (ancestors (dirname dest))) src dest
  = stale m src dest.
Proof.
  intros Hs. unfold stale.
  rewrite (mkdirs_keeps _ m src s Hs), Hs.
  rewrite (mkdirs_elsewhere _ m dest (not_own_ancestor dest)). reflexivity.
Qed.

(** [copy2] logs its call, and returns or raises [OSError]. *)
Lemma copy2_run src dst w :
  exists r m,
    copy2 src dst w
    = (r, {| fs := m; calls := (calls w ++ [Copy2 src dst])%list; stdout := stdout w |})
    /\ (r = Ok tt \/ r = Raise Py.OSError).
Proof.
  unfold copy2. run_sync.
  destruct (fs w !! src) as [[s|s]|]; simpl; eauto.
  set (target := if is_dir (fs w !! dst) then _ else _).
  destruct (bool_decide (target = src)); simpl; eauto.
  destruct (is_dir (fs w !! target)); simpl; eauto.
  destruct (bool_decide (dirname target = []) || is_dir (fs w !! dirname target));
    simpl; eauto.
Qed.

Lemma copy2_ok src dst w s :
  fs w !! src = Some (File s) -> is_dir (fs w !! dst) = false -> dst <> src ->
  (dirname dst = [] \/ is_dir (fs w !! dirname dst) = true) ->
  exists w', copy2 src dst w = (Ok tt, w').
Proof.
  intros Hs Hd Hne Hparent. unfold copy2. run_sync. rewrite Hs, Hd. simpl.
  rewrite bool_decide_eq_false_2 by exact Hne. simpl.
  destruct Hparent as [-> | ->].
  - simpl.
    match goal with
    | |- context [is_dir ?x] => replace (is_dir x) with false by (symmetry; exact Hd)
    end. eauto.
  - rewrite ?orb_true_r.
    match goal with
    | |- context [is_dir ?x] => replace (is_dir x) with false by (symmetry; exact Hd)
    end. eauto.
Qed.

(** A normal run of [copy_file_with_structure] on a source that exists. *)
Lemma copy_normal_run src_file src_base dest_base w s :
  fs w !! src_file = Some s ->
  let rel_path := relpath src_file src_base in
  let dest_file := join dest_base rel_path in
  exists r w',
    copy_file_with_structure fresh_dir src_file src_base dest_base false w = (r, w')
    /\ match r with
       | Ok (was_copied, rel) =>
           rel = rel_path /\ was_copied = stale (fs w) src_file dest_file
           /\ calls w'
              = (calls w ++ Makedirs (dirname dest_file)
                   :: (if was_copied then [Copy2 src_file dest_file] else []))%list
       | Raise e => e = Py.OSError
       end.
Proof.
  intros Hs rel_path dest_file.
  unfold copy_file_with_structure. simpl negb. fold rel_path. fold dest_file.
  unfold bind at 1. rewrite makedirs_run.
  destruct (existsb _ _); [eexists _, _; split; reflexivity|].
  set (w1 := {| fs := _ |}).
  assert (fs w1 !! src_file = Some s) as Hs1 by (apply mkdirs_keeps, Hs).
  unfold bind at 1. rewrite (should_copy_run src_file dest_file w1 s Hs1).
  assert (stale (fs w1) src_file dest_file = stale (fs w) src_file dest_file) as ->
    by (apply stale_after_mkdirs with (s := s), Hs).
  destruct (stale (fs w) src_file dest_file) eqn:E.
  - destruct (copy2_run src_file dest_file w1) as (r & m & Hr & [-> | ->]);
      unfold bind; rewrite Hr; simpl; eexists _, _; (split; [reflexivity|]); simpl;
      [|reflexivity].
    split; [reflexivity|]. split; [reflexivity|]. rewrite <- app_assoc. reflexivity.
  - simpl. eexists _, _. split; [reflexivity|]. simpl. auto.
Qed.

(** A copy that returns has put the source file at its target. *)
Lemma copy2_inv src dst w w' :
  copy2 src dst w = (Ok tt, w') ->
  exists st,
    fs w !! src = Some (File st)
    /\ fs w' = <[(if is_dir (fs w !! dst) then (dst ++ [basename src])%list else dst)
                 := File st]> (fs w).
Proof.
  unfold copy2. run_sync.
  destruct (fs w !! src) as [[st|st]|]; simpl; try discriminate.
  set (target := if is_dir (fs w !! dst) then _ else _).
  destruct (bool_decide (target = src)); simpl; [discriminate|].
  destruct (is_dir (fs w !! target)); simpl; [discriminate|].
  destruct (bool_decide (dirname target = []) || is_dir (fs w !! dirname target));
    simpl; [|discriminate].
  intros [= <-]. exists st. split; reflexivity.
Qed.

(** The file system after a normal run of [copy_file_with_structure]
    that returns: the directories down to the destination are there,
    and the source file is at its target exactly when it was copied. *)
Lemma copy_normal_fs src_file src_base dest_base w s was_copied rel w' :
  fs w !! src_file = Some s ->
  let dest_file := join dest_base (relpath src_file src_base) in
  let made := foldr (mkdir_missing fresh_dir) (fs w) (ancestors (dirname dest_file)) in
  let target :=
    if is_dir (fs w !! dest_file) then (dest_file ++ [basename src_file])%list
    else dest_file in
  copy_file_with_structure fresh_dir src_file src_base dest_base false w
  = (Ok (was_copied, rel), w') ->
  fs w' = if was_copied then <[target := s]> made else made.
Proof.
  intros Hs dest_file made target.
  unfold copy_file_with_structure. simpl negb. fold dest_file.
  unfold bind at 1. rewrite makedirs_run.
  destruct (existsb _ _); [discriminate|].
  set (w1 := {| fs := _ |}).
  assert (fs w1 !! src_file = Some s) as Hs1 by (apply mkdirs_keeps, Hs).
  unfold bind at 1. rewrite (should_copy_run src_file dest_file w1 s Hs1).
  destruct (stale (fs w1) src_file dest_file).
  - unfold bind. destruct (copy2 src_file dest_file w1) as [[[]|e] w2] eqn:E;
      [|discriminate].
    cbn [ret]. intros [= <- <- <-].
    apply copy2_inv in E as (st & Hst & ->).
    rewrite Hs1 in Hst. injection Hst as ->.
    cbn [fs w1]. fold made.
    replace (is_dir (made !! dest_file)) with (is_dir (fs w !! dest_file)); [reflexivity|].
    unfold made. rewrite mkdirs_elsewhere by apply not_own_ancestor. reflexivity.
  - cbn [ret]. intros [= <- <- <-]. reflexivity.
Qed.

#[export] Instance untouched_preorder : PreOrder untouched.
Proof.
  split; unfold untouched.
  - intros w. split; reflexivity.
  - intros a b c [H1 H2] [H3 H4]. split; congruence.
Qed.

#[export] Instance nothing_removed_preorder : PreOrder nothing_removed.
Proof.
  split; unfold nothing_removed.
  - intros w. exists []. rewrite app_nil_r. split; reflexivity.
  - intros a b c (l1 & H1 & F1) (l2 & H2 & F2). exists (l1 ++ l2)%list.
    rewrite H2, H1, app_assoc. split; [reflexivity|].
    rewrite forallb_app, F1, F2. reflexivity.
Qed.

Lemma print_untouched line : steps untouched (print line).
Proof. intros w. split; reflexivity. Qed.

Lemma print_nothing_removed line : steps nothing_removed (print line).
Proof. intros w. exists []. simpl. rewrite app_nil_r. split; reflexivity. Qed.

Lemma makedirs_nothing_removed p : steps nothing_removed (makedirs fresh_dir p).
Proof.
  intros w. rewrite makedirs_run. exists [Makedirs p].
  destruct (existsb _ _); split; reflexivity.
Qed.

Lemma copy2_nothing_removed src dst : steps nothing_removed (copy2 src dst).
Proof.
  intros w. destruct (copy2_run src dst w) as (r & m & -> & _).
  exists [Copy2 src dst]. split; reflexivity.
Qed.

(** What only reads the world relates it to itself. *)
Section Reads.

Context (R : world -> world -> Prop) {HR : PreOrder R}.

Lemma exists_steps p : steps R (exists_ p).
Proof. intros w. reflexivity. Qed.

Lemma getmtime_steps p : steps R (getmtime p).
Proof. intros w. unfold getmtime, bind, get. simpl. destruct (fs w !! p); reflexivity. Qed.

Lemma getsize_steps p : steps R (getsize p).
Proof. intros w. unfold getsize, bind, get. simpl. destruct (fs w !! p); reflexivity. Qed.

Lemma get_all_files_steps d : steps R (get_all_files d).
Proof. intros w. reflexivity. Qed.

Lemma get_directory_size_steps d : steps R (get_directory_size d).
Proof. intros w. reflexivity. Qed.

Lemma should_copy_steps src dest : steps R (should_copy src dest).
Proof.
  unfold should_copy.
  apply (steps_bind R); [apply exists_steps|]. intros [|]; [|apply (steps_ret R)].
  apply (steps_bind R); [apply getmtime_steps|]. intros a.
  apply (steps_bind R); [apply getmtime_steps|]. intros b.
  apply (steps_bind R); [apply getsize_steps|]. intros c.
  apply (steps_bind R); [apply getsize_steps|]. intros d.
  destruct (up_to_date a b c d); apply (steps_ret R).
Qed.

(** [sync_music] relates the worlds as its printing and its mutating
    calls do, those it makes under the given flags. *)
Variable RICH_AVAILABLE : bool.
Variables dry_run delete_extra : bool.
Hypothesis Hprint : forall line, steps R (print line).
Hypothesis Hmakedirs : dry_run = false -> forall p, steps R (makedirs fresh_dir p).
Hypothesis Hcopy2 : dry_run = false -> forall src dst, steps R (copy2 src dst).
Hypothesis Hremove :
  delete_extra && negb dry_run = true -> forall p, steps R (remove p).

Lemma print_info_steps m : steps R (print_info RICH_AVAILABLE m).
Proof. apply Hprint. Qed.

Lemma print_plain_steps m : steps R (print_plain RICH_AVAILABLE m).
Proof. unfold print_plain. destruct RICH_AVAILABLE; [apply (steps_ret R)|apply Hprint]. Qed.

Lemma copy_file_steps src_file src_base dest_base :
  steps R (copy_file_with_structure fresh_dir src_file src_base dest_base dry_run).
Proof.
  unfold copy_file_with_structure.
  apply (steps_bind R).
  - destruct (negb dry_run) eqn:E; [|apply (steps_ret R)].
    apply Hmakedirs, negb_true_iff, E.
  - intros _. apply (steps_bind R); [apply should_copy_steps|].
    intros [|]; [|apply (steps_ret R)].
    apply (steps_bind R); [|intros _; apply (steps_ret R)].
    destruct (negb dry_run) eqn:E; [|apply (steps_ret R)].
    apply Hcopy2, negb_true_iff, E.
Qed.

Lemma sync_files_steps files : forall total i copied skipped,
  steps R (sync_files fresh_dir RICH_AVAILABLE files total i dry_run copied skipped).
Proof.
  induction files as [|f files IH]; intros total i copied skipped; simpl.
  - apply (steps_ret R).
  - apply (steps_bind R); [apply copy_file_steps|]. intros [[|] rel];
      (apply (steps_bind R); [apply print_plain_steps|]); intros _; apply IH.
Qed.

Lemma delete_extras_steps files : forall deleted,
  delete_extra && negb dry_run = true ->
  steps R (delete_extras RICH_AVAILABLE files dry_run deleted).
Proof.
  intros deleted Hd. revert deleted.
  induction files as [|f files IH]; intros deleted; simpl.
  - apply (steps_ret R).
  - apply (steps_bind R); [apply exists_steps|]. intros [|]; simpl; [apply IH|].
    apply (steps_bind R).
    + rewrite (proj2 (andb_prop _ _ Hd)). apply Hremove, Hd.
    + intros _. apply (steps_bind R); [apply print_info_steps|]. intros _. apply IH.
Qed.

Lemma sync_music_steps proceed :
  steps R (sync_music fresh_dir RICH_AVAILABLE proceed dry_run delete_extra).
Proof.
  unfold sync_music.
  apply (steps_bind R); [apply exists_steps|]. intros [|]; simpl;
    [|apply (steps_bind R); [apply Hprint|intros _; apply (steps_ret R)]].
  apply (steps_bind R); [apply exists_steps|]. intros dest_present.
  apply (steps_bind R).
  { destruct dest_present; simpl; [apply (steps_ret R)|].
    apply (steps_bind R); [apply Hprint|]. intros _.
    destruct (negb dry_run) eqn:E; [|apply (steps_ret R)].
    apply Hmakedirs, negb_true_iff, E. }
  intros _.
  do 4 (apply (steps_bind R); [apply print_plain_steps|intros _]).
  apply (steps_bind R);
    [destruct dry_run at 1; [apply print_plain_steps|apply (steps_ret R)]|intros _].
  apply (steps_bind R); [apply print_plain_steps|intros _].
  apply (steps_bind R); [apply print_info_steps|intros _].
  apply (steps_bind R); [apply get_all_files_steps|]. intros [|f files].
  { apply (steps_bind R); [apply Hprint|intros _; apply (steps_ret R)]. }
  apply (steps_bind R); [apply get_directory_size_steps|]. intros size.
  do 2 (apply (steps_bind R); [apply print_plain_steps|intros _]).
  destruct (negb dry_run && negb proceed).
  { apply (steps_bind R); [apply Hprint|intros _; apply (steps_ret R)]. }
  apply (steps_bind R); [apply sync_files_steps|]. intros [copied skipped].
  apply (steps_bind R).
  { destruct (bool_dec (delete_extra && negb dry_run) true) as [Hd|Hd];
      [rewrite Hd|rewrite (not_true_is_false _ Hd); apply (steps_ret R)].
    apply (steps_bind R); [apply print_info_steps|intros _].
    apply (steps_bind R); [apply get_all_files_steps|]. intros dest_files.
    apply (steps_bind R); [apply delete_extras_steps, Hd|]. intros deleted.
    destruct (0 <? deleted); [apply print_info_steps|apply (steps_ret R)]. }
  intros _.
  do 3 (apply (steps_bind R); [apply print_plain_steps|intros _]).
  apply (steps_bind R); [|intros _; apply (steps_ret R)].
  destruct dry_run at 1; apply Hprint.
Qed.

End Reads.

Lemma self_ancestor (p : path) : p <> [] -> p ∈ ancestors p.
Proof.
  intros H. apply ancestors_spec. exists (length p). split.
  - destruct p; [contradiction|simpl; lia].
  - symmetry. apply firstn_all.
Qed.

End WithClock.

End SyncFacts.

(** C5: [copy_file_with_structure] decides to copy a source file exactly
    when it has no counterpart at the destination, or the counterpart's
    modification time is strictly older, or the two sizes differ.  A dry
    run always returns that decision and changes nothing.  A normal run
    returns the same decision unless a system call fails, and calls
    [shutil.copy2] exactly when the decision is to copy; afterwards the
    directories down to the destination are there, the source file is
    at the destination exactly when it was copied, and every other path
    is as it was.  The run does return when the destination directory
    can be created and the copy made. *)
Theorem copy_iff_missing_older_or_resized (fresh_dir : Sync.stat)
    (src_file src_base dest_base : Sync.path) (dry_run : bool)
    (w : Sync.world) (s : Sync.node) :
  Sync.fs w !! src_file = Some s ->
  let rel_path := Sync.relpath src_file src_base in
  let dest_file := Sync.join dest_base rel_path in
  let target :=
    if Sync.is_dir (Sync.fs w !! dest_file)
    then (dest_file ++ [Sync.basename src_file])%list else dest_file in
  let needed :=
    match Sync.fs w !! dest_file with
    | None => True
    | Some d =>
        (Sync.st_mtime (Sync.node_stat d) < Sync.st_mtime (Sync.node_stat s))%Q
        \/ Sync.st_size (Sync.node_stat s) <> Sync.st_size (Sync.node_stat d)
    end in
  let run := Sync.copy_file_with_structure fresh_dir src_file src_base dest_base dry_run w in
  (dry_run = true ->
   exists was_copied, run = (Eff.Ok (was_copied, rel_path), w)
                      /\ (was_copied = true <-> needed))
  /\ (dry_run = false ->
      match fst run with
      | Eff.Ok (was_copied, rel) =>
          rel = rel_path /\ (was_copied = true <-> needed)
          /\ Sync.calls (snd run)
             = (Sync.calls w ++ Sync.Makedirs (Sync.dirname dest_file)
                  :: (if was_copied then [Sync.Copy2 src_file dest_file] else []))%list
          /\ (forall q,
                Sync.fs (snd run) !! q
                = if was_copied && bool_decide (q = target) then Some s
                  else if bool_decide (q ∈ Sync.ancestors (Sync.dirname dest_file))
                       then Some (default (Sync.Dir fresh_dir) (Sync.fs w !! q))
                       else Sync.fs w !! q)
          /\ (was_copied = true -> exists st, s = Sync.File st)
      | Eff.Raise e => e = Py.OSError
      end)
  /\ (dry_run = false ->
      (exists st, s = Sync.File st) ->
      (forall q, q ∈ Sync.ancestors (Sync.dirname dest_file) ->
                 Sync.is_file (Sync.fs w !! q) = false) ->
      Sync.is_dir (Sync.fs w !! dest_file) = false ->
      dest_file <> src_file ->
      exists was_copied w', run = (Eff.Ok (was_copied, rel_path), w')).
Proof.
  intros Hs rel_path dest_file target needed run.
  pose proof (SyncFacts.stale_iff (Sync.fs w) src_file dest_file s Hs) as Hstale.
  fold needed in Hstale.
  split; [|split].
  - intros ->. subst run. unfold Sync.copy_file_with_structure. simpl negb.
    fold rel_path. fold dest_file.
    unfold Eff.bind at 1. simpl.
    unfold Eff.bind at 1. rewrite (SyncFacts.should_copy_run src_file dest_file w s Hs).
    exists (Sync.stale (Sync.fs w) src_file dest_file). split; [|exact Hstale].
    destruct (Sync.stale _ _ _); reflexivity.
  - intros ->. subst run.
    destruct (SyncFacts.copy_normal_run fresh_dir src_file src_base dest_base w s Hs)
      as (r & w' & Hrun & Hr).
    rewrite Hrun. simpl. destruct r as [[was_copied rel]|e]; [|exact Hr].
    destruct Hr as (-> & -> & Hcalls). split; [reflexivity|]. split; [exact Hstale|].
    split; [exact Hcalls|].
    pose proof (SyncFacts.copy_normal_fs fresh_dir src_file src_base dest_base w s
                  _ _ w' Hs Hrun) as Hfs.
    cbv zeta in Hfs. fold rel_path dest_file target in Hfs.
    assert (forall q,
              foldr (Sync.mkdir_missing fresh_dir) (Sync.fs w)
                (Sync.ancestors (Sync.dirname dest_file)) !! q
              = if bool_decide (q ∈ Sync.ancestors (Sync.dirname dest_file))
                then Some (default (Sync.Dir fresh_dir) (Sync.fs w !! q))
                else Sync.fs w !! q) as Hmade.
    { intros q. destruct (bool_decide_reflect
                            (q ∈ Sync.ancestors (Sync.dirname dest_file))) as [Hq|Hq].
      - apply SyncFacts.mkdirs_there, Hq.
      - apply SyncFacts.mkdirs_elsewhere, Hq. }
    fold rel_path in Hrun |- *. fold dest_file in Hrun |- *.
    split.
    + intros q. rewrite Hfs.
      destruct (Sync.stale (Sync.fs w) src_file dest_file); cbn [andb];
        [|apply Hmade].
      destruct (bool_decide_reflect (q = target)) as [->|Hq].
      * apply lookup_insert_eq.
      * rewrite lookup_insert_ne by congruence. apply Hmade.
    + intros Hcopied. rewrite Hcopied in Hrun.
      revert Hrun. unfold Sync.copy_file_with_structure. simpl negb.
      fold rel_path. fold dest_file.
      unfold Eff.bind at 1. rewrite SyncFacts.makedirs_run.
      destruct (existsb _ _); [discriminate|].
      set (w1 := {| Sync.fs := _ |}).
      assert (Sync.fs w1 !! src_file = Some s) as Hs1
        by (apply SyncFacts.mkdirs_keeps, Hs).
      unfold Eff.bind at 1.
      rewrite (SyncFacts.should_copy_run src_file dest_file w1 s Hs1).
      destruct (Sync.stale (Sync.fs w1) src_file dest_file); [|discriminate].
      unfold Eff.bind.
      destruct (Sync.copy2 src_file dest_file w1) as [[[]|e] w2] eqn:E; [|discriminate].
      intros _. apply SyncFacts.copy2_inv in E as (st & Hst & _).
      rewrite Hs1 in Hst. injection Hst as ->. eauto.
  - intros -> [st ->] Hanc Hnd Hne. subst run.
    unfold Sync.copy_file_with_structure. simpl negb.
    fold rel_path. fold dest_file.
    unfold Eff.bind at 1. rewrite SyncFacts.makedirs_run.
    destruct (existsb _ _) eqn:Ex.
    { apply existsb_exists in Ex as (q & Hq & Hf). apply list_elem_of_In in Hq.
      rewrite (Hanc q Hq) in Hf. discriminate. }
    set (w1 := {| Sync.fs := _ |}).
    assert (Sync.fs w1 !! src_file = Some (Sync.File st)) as Hs1
      by (apply SyncFacts.mkdirs_keeps, Hs).
    unfold Eff.bind at 1.
    rewrite (SyncFacts.should_copy_run src_file dest_file w1 _ Hs1).
    destruct (Sync.stale (Sync.fs w1) src_file dest_file); [|simpl; eauto].
    destruct (SyncFacts.copy2_ok src_file dest_file w1 st Hs1) as [w2 Hw2].
    + simpl. rewrite SyncFacts.mkdirs_elsewhere by apply SyncFacts.not_own_ancestor.
      exact Hnd.
    + exact Hne.
    + destruct (decide (Sync.dirname dest_file = [])) as [E|E]; [left; exact E|].
      right. simpl.
      rewrite SyncFacts.mkdirs_there by (apply SyncFacts.self_ancestor, E).
      specialize (Hanc _ (SyncFacts.self_ancestor _ E)).
      destruct (Sync.fs w !! Sync.dirname dest_file) as [[?|?]|];
        simpl in *; [discriminate|reflexivity|reflexivity].
    + unfold Eff.bind. rewrite Hw2. simpl. eauto.
Qed.

(** C7: [format_size] reports a byte count, taken below 2^53 in absolute
    value where the divisions of the code are exact, under the smallest
    of the units B, KB, MB, GB, TB for which the count divided by the
    unit's power of 1024 is below 1024, and under PB when there is
    none; the number is printed with one decimal.  In particular 1023
    gives ["1023.0 B"], 1536 gives ["1.5 KB"] and 1024^4 gives
    ["1.0 TB"]. *)
Theorem format_size_smallest_unit (n : Z) :
  Z.abs n < 2 ^ 53 ->
  (exists (k : nat) (x : Q),
     (k <= 5)%nat
     /\ (x == inject_Z n / inject_Z (1024 ^ Z.of_nat k))%Q
     /\ Sync.format_size n
        = Sync.format_1f x ++ " " ++ nth k Sync.units "PB"
     /\ ((k < 5)%nat -> n < 1024 ^ Z.of_nat (S k))
     /\ forall j, (j < k)%nat -> 1024 ^ Z.of_nat (S j) <= n)
  /\ Sync.format_size 1023 = "1023.0 B"
  /\ Sync.format_size 1536 = "1.5 KB"
  /\ Sync.format_size (1024 ^ 4) = "1.0 TB".
Proof.
  intros _. split; [|repeat split; vm_compute; reflexivity].
  destruct (SizeFacts.format_size_from_spec Sync.units (inject_Z n))
    as (k & x & Hk & Hx & Hf & Hlt & Hge).
  exists k, x. split; [exact Hk|]. split; [exact Hx|]. split; [exact Hf|]. split.
  - intros H. apply (SizeFacts.scaled_lt n k x Hx). apply Hlt. exact H.
  - intros j Hj. apply SizeFacts.scaled_ge, Hge, Hj.
Qed.

Lemma format_size_smallest_unit_witness :
  exists (k : nat) (x : Q),
    (x == inject_Z 1536 / inject_Z (1024 ^ Z.of_nat k))%Q
    /\ Sync.format_size 1536 = Sync.format_1f x ++ " " ++ nth k Sync.units "PB"
    /\ Sync.format_size 1536 = "1.5 KB".
Proof.
  assert (Z.abs 1536 < 2 ^ 53) as Hbound by (vm_compute; reflexivity).
  destruct (format_size_smallest_unit 1536 Hbound)
    as ((k & x & _ & Hx & Hf & _) & _ & Hkb & _).
  exists k, x. split; [exact Hx|]. split; [exact Hf|exact Hkb].
Defined.

Lemma copy_iff_missing_older_or_resized_witness :
  let run :=
    Sync.copy_file_with_structure (SyncFixtures.at_time 200 0) SyncFixtures.song
      Sync.source_dir Sync.dest_dir false SyncFixtures.library in
  let dest_file := (Sync.dest_dir ++ ["album"; "song.flac"])%list in
  fst run = Eff.Ok (true, ["album"; "song.flac"])
  /\ Sync.fs (snd run) !! dest_file = Some (Sync.File (SyncFixtures.at_time 100 5000))
  /\ Sync.fs (snd run) !! Sync.dirname dest_file
     = Some (Sync.Dir (SyncFixtures.at_time 200 0))
  /\ Sync.fs (snd run) !! SyncFixtures.extra
     = Some (Sync.File (SyncFixtures.at_time 50 700))
  /\ Sync.calls (snd run)
     = [Sync.Makedirs (Sync.dirname dest_file); Sync.Copy2 SyncFixtures.song dest_file].
Proof.
  intros run dest_file.
  assert (Sync.fs SyncFixtures.library !! SyncFixtures.song
          = Some (Sync.File (SyncFixtures.at_time 100 5000))) as Hs
    by (vm_compute; reflexivity).
  destruct (copy_iff_missing_older_or_resized (SyncFixtures.at_time 200 0)
              SyncFixtures.song Sync.source_dir Sync.dest_dir false
              SyncFixtures.library _ Hs) as (_ & Hnormal & Hreturns).
  specialize (Hnormal eq_refl).
  destruct (Hreturns eq_refl) as (was_copied & w' & Hrun).
  - eexists. reflexivity.
  - apply Forall_forall. vm_compute. repeat constructor.
  - vm_compute. reflexivity.
  - discriminate.
  - fold run in Hrun, Hnormal. rewrite Hrun in Hnormal |- *. cbn [fst snd] in *.
    destruct Hnormal as (_ & Hiff & Hcalls & Hfs & _).
    assert (was_copied = true) as -> by (apply Hiff; vm_compute; exact I).
    split; [reflexivity|]. rewrite !Hfs, Hcalls.
    repeat split; vm_compute; reflexivity.
Defined.

(** ** A dry run returns *)

Module DryRunFacts.
Import Sync EffFacts.

Lemma files_under_present (d : path) (m : gmap path node) (p : path) :
  In p (files_under d m) -> is_Some (m !! p).
Proof.
  unfold files_under. destruct (is_dir (m !! d)); [|intros []].
  rewrite filter_In. intros [_ H].
  apply andb_prop in H as [_ H]. destruct (m !! p); [eauto|discriminate].
Qed.

Section WithClock.

Variable fresh_dir : stat.
Variable RICH_AVAILABLE : bool.
Variable w0 : world.

Lemma print_returns line : returns (untouched w0) (print line) (fun _ => untouched w0).
Proof. intros w H. exists tt. eexists. split; [reflexivity|exact H]. Qed.

Lemma print_plain_returns line :
  returns (untouched w0) (print_plain RICH_AVAILABLE line) (fun _ => untouched w0).
Proof. unfold print_plain. destruct RICH_AVAILABLE; [apply returns_ret|apply print_returns]. Qed.

Lemma exists_returns p : returns (untouched w0) (exists_ p) (fun _ => untouched w0).
Proof. intros w H. eexists _, _. split; [reflexivity|exact H]. Qed.

Lemma get_all_files_returns d :
  returns (untouched w0) (get_all_files d)
          (fun l w => untouched w0 w /\ l = files_under d (fs w0)).
Proof.
  intros w H. eexists _, _. split; [reflexivity|]. split; [exact H|].
  simpl. destruct H as [-> _]. reflexivity.
Qed.

Lemma get_directory_size_returns d :
  returns (untouched w0) (get_directory_size d) (fun _ => untouched w0).
Proof. intros w H. eexists _, _. split; [reflexivity|exact H]. Qed.

Lemma copy_file_returns src_file src_base dest_base :
  is_Some (fs w0 !! src_file) ->
  returns (untouched w0) (copy_file_with_structure fresh_dir src_file src_base dest_base true)
          (fun _ => untouched w0).
Proof.
  intros [s Hs] w H. pose proof H as [Hfs _]. rewrite <- Hfs in Hs.
  unfold copy_file_with_structure. simpl negb.
  unfold bind at 1. simpl.
  unfold bind at 1. rewrite (SyncFacts.should_copy_run _ _ w s Hs).
  destruct (stale _ _ _); eexists _, _; (split; [reflexivity|exact H]).
Qed.

Lemma sync_files_returns files : forall total i copied skipped,
  (forall f, In f files -> is_Some (fs w0 !! f)) ->
  returns (untouched w0) (sync_files fresh_dir RICH_AVAILABLE files total i true copied skipped)
          (fun _ => untouched w0).
Proof.
  induction files as [|f files IH]; intros total i copied skipped Hin; simpl.
  - apply returns_ret.
  - eapply returns_bind; [apply copy_file_returns, Hin; left; reflexivity|].
    intros [[|] rel]; (eapply returns_bind; [apply print_plain_returns|]); intros [];
      apply IH; intros g Hg; apply Hin; right; exact Hg.
Qed.

Lemma sync_music_returns proceed delete_extra :
  returns (untouched w0) (sync_music fresh_dir RICH_AVAILABLE proceed true delete_extra)
          (fun _ => untouched w0).
Proof.
  unfold sync_music. rewrite andb_false_r. simpl negb. cbv iota.
  eapply returns_bind; [apply exists_returns|]. intros [|]; simpl;
    [|eapply returns_bind; [apply print_returns|intros []; apply returns_ret]].
  eapply returns_bind; [apply exists_returns|]. intros dest_present.
  eapply returns_bind.
  { destruct dest_present; simpl; [apply returns_ret|].
    eapply returns_bind; [apply print_returns|]. intros []. apply returns_ret. }
  intros [].
  do 6 (eapply returns_bind; [apply print_plain_returns|intros []]).
  eapply returns_bind; [apply print_returns|intros []].
  eapply returns_bind; [apply get_all_files_returns|]. intros files.
  cbv beta. apply returns_split. intros E.
  destruct files as [|f files].
  { eapply returns_bind; [apply print_returns|intros []; apply returns_ret]. }
  eapply returns_bind; [apply get_directory_size_returns|]. intros size.
  do 2 (eapply returns_bind; [apply print_plain_returns|intros []]).
  eapply returns_bind.
  { apply sync_files_returns. intros g Hg.
    apply (files_under_present source_dir). rewrite <- E. exact Hg. }
  intros [copied skipped].
  eapply returns_bind; [apply returns_ret|intros []].
  do 3 (eapply returns_bind; [apply print_plain_returns|intros []]).
  eapply returns_bind; [apply print_returns|intros []; apply returns_ret].
Qed.

End WithClock.

End DryRunFacts.

(** ** What is never deleted *)

Module KeptFacts.
Import Sync EffFacts.

Lemma files_kept_preorder : PreOrder files_kept.
Proof.
  split; unfold files_kept.
  - intros w p H. exact H.
  - intros a b c H1 H2 p H. apply H2, H1, H.
Qed.

Lemma print_files_kept line : steps files_kept (print line).
Proof. intros w p H. exact H. Qed.

Lemma makedirs_files_kept fresh_dir p : steps files_kept (makedirs fresh_dir p).
Proof.
  intros w q H. rewrite SyncFacts.makedirs_run.
  destruct (existsb _ _); simpl; [exact H|].
  destruct (fs w !! q) as [n|] eqn:E; [|discriminate].
  rewrite (SyncFacts.mkdirs_keeps fresh_dir _ _ _ _ E). exact H.
Qed.

Lemma copy2_files_kept src dst : steps files_kept (copy2 src dst).
Proof.
  intros w q H. unfold copy2. SyncFacts.run_sync.
  destruct (fs w !! src) as [[s|s]|]; simpl; try exact H.
  set (target := if is_dir (fs w !! dst) then _ else _).
  destruct (bool_decide (target = src)); simpl; [exact H|].
  destruct (is_dir (fs w !! target)); simpl; [exact H|].
  destruct (bool_decide (dirname target = []) || is_dir (fs w !! dirname target));
    simpl; [|exact H].
  destruct (decide (q = target)) as [->|Hne].
  - rewrite lookup_insert_eq. reflexivity.
  - rewrite lookup_insert_ne by congruence. exact H.
Qed.

End KeptFacts.

(** C6: a dry run of [sync_music] returns and leaves the file system as
    it was, without one call of [makedirs], [copy2] or [remove]; what it
    does not do is the scan for extra files, so that with [dry_run] the
    flag [delete_extra] makes no difference at all.  Whatever the flags,
    unless [delete_extra] is given and [dry_run] is not, [os.remove] is
    never called and every regular file is still there afterwards. *)
Theorem dry_run_changes_nothing (fresh_dir : Sync.stat)
    (RICH_AVAILABLE proceed dry_run delete_extra : bool) (w : Sync.world) :
  (dry_run = true ->
   (exists result w',
      Sync.sync_music fresh_dir RICH_AVAILABLE proceed dry_run delete_extra w
      = (Eff.Ok result, w')
      /\ Sync.untouched w w')
   /\ Sync.sync_music fresh_dir RICH_AVAILABLE proceed dry_run delete_extra w
      = Sync.sync_music fresh_dir RICH_AVAILABLE proceed dry_run false w)
  /\ (delete_extra && negb dry_run = false ->
      Sync.nothing_removed w
        (snd (Sync.sync_music fresh_dir RICH_AVAILABLE proceed dry_run delete_extra w))
      /\ Sync.files_kept w
           (snd (Sync.sync_music fresh_dir RICH_AVAILABLE proceed dry_run delete_extra w))).
Proof.
  split.
  - intros ->. split.
    + apply (DryRunFacts.sync_music_returns fresh_dir RICH_AVAILABLE w proceed delete_extra w).
      split; reflexivity.
    + destruct delete_extra; reflexivity.
  - intros Hd. split.
    + apply (@SyncFacts.sync_music_steps fresh_dir Sync.nothing_removed
               SyncFacts.nothing_removed_preorder RICH_AVAILABLE dry_run delete_extra).
      * apply SyncFacts.print_nothing_removed.
      * intros _. apply SyncFacts.makedirs_nothing_removed.
      * intros _. apply SyncFacts.copy2_nothing_removed.
      * intros H. congruence.
    + apply (@SyncFacts.sync_music_steps fresh_dir Sync.files_kept
               KeptFacts.files_kept_preorder RICH_AVAILABLE dry_run delete_extra).
      * apply KeptFacts.print_files_kept.
      * intros _. apply KeptFacts.makedirs_files_kept.
      * intros _. apply KeptFacts.copy2_files_kept.
      * intros H. congruence.
Qed.

(** C6, the computation a dry run leaves out: on the sample library a
    normal run with [delete_extra] scans the destination, reports and
    removes the extra file; the dry run with [delete_extra] reports
    neither the scan nor the file, and prints what the dry run without
    the flag prints. *)
Lemma dry_run_skips_extra_file_scan :
  let fresh := SyncFixtures.at_time 200 0 in
  let normal := Sync.sync_music fresh false true false true SyncFixtures.library in
  let dry := Sync.sync_music fresh false true true true SyncFixtures.library in
  existsb (String.eqb "[INFO] Checking for extra files to delete...")
          (Sync.stdout (snd normal)) = true
  /\ existsb (String.eqb "[INFO] Deleted: old.mp3") (Sync.stdout (snd normal)) = true
  /\ Sync.fs (snd normal) !! SyncFixtures.extra = None
  /\ fst dry = Eff.Ok true
  /\ existsb (String.eqb "[INFO] Checking for extra files to delete...")
             (Sync.stdout (snd dry)) = false
  /\ existsb (String.eqb "[INFO] Deleted: old.mp3") (Sync.stdout (snd dry)) = false
  /\ dry = Sync.sync_music fresh false true true false SyncFixtures.library.
Proof. repeat split; vm_compute; reflexivity. Qed.

(** ** The login probe *)

Module LoginFacts.
Import Login.

Lemma join_comma_names (l : list string) (k : string) :
  In k l -> PyStr.contains (join_comma l) k = true.
Proof.
  induction l as [|a l IH]; intros H; [destruct H|].
  destruct H as [->|H].
  - destruct l as [|b l]; [|apply PyStrFacts.contains_self].
    simpl join_comma. rewrite <- (PyStrFacts.append_nil_r k) at 1.
    apply PyStrFacts.contains_self.
  - destruct l as [|b l]; [destruct H|].
    change (join_comma (a :: b :: l)) with (a ++ ", " ++ join_comma (b :: l)).
    apply PyStrFacts.contains_app_l, PyStrFacts.contains_app_l, IH, H.
Qed.

Lemma missing_spec (c : credentials) (k : string) :
  In k (missing c) <-> empty c k.
Proof.
  unfold missing, empty. rewrite in_map_iff. split.
  - intros ([k' v] & <- & H). apply filter_In in H as [H1 H2].
    exists v. split; [exact H1|]. apply negb_true_iff, H2.
  - intros (v & H1 & H2). exists (k, v). split; [reflexivity|].
    apply filter_In. split; [exact H1|]. apply negb_true_iff, H2.
Qed.

Lemma all_filled (c : credentials) :
  forallb truthy (map snd (items c)) = true <-> forall k, ~ empty c k.
Proof.
  rewrite forallb_forall. split.
  - intros H k (v & Hin & Hv). rewrite (H v) in Hv; [discriminate|].
    apply in_map_iff. exists (k, v). split; [reflexivity|exact Hin].
  - intros H v Hin. apply in_map_iff in Hin as ([k v'] & <- & Hin). simpl.
    destruct (truthy v') eqn:E; [reflexivity|]. exfalso. apply (H k). exists v'. auto.
Qed.

Lemma eq_str_spec (v : json) (s : string) : eq_str v s = true <-> v = JStr s.
Proof.
  destruct v; simpl; try (split; [discriminate|intros H; discriminate H]).
  rewrite String.eqb_eq. split; [intros ->; reflexivity|intros H; injection H; auto].
Qed.

Lemma has_placeholder_spec (c : credentials) :
  has_placeholder c = true
  <-> app_id c = JStr "YOUR_APP_ID" \/ app_secret c = JStr "YOUR_APP_SECRET"
      \/ email c = JStr "YOUR_QOBUZ_EMAIL" \/ password c = JStr "YOUR_QOBUZ_PASSWORD".
Proof.
  unfold has_placeholder. rewrite !orb_true_iff, !eq_str_spec. tauto.
Qed.

(** Loading from a file that holds a dictionary of qobuz settings. *)
Lemma load_parsed settings_path settings modules d :
  get_default settings "modules" (JObj []) = inr modules ->
  get_default modules "qobuz" JNull = inr (JObj d) ->
  d <> [] ->
  load_credentials_from_settings settings_path (Parsed settings)
  = let c := read_credentials d in
    if negb (forallb truthy (map snd (items c))) then
      inl ("Error: Missing credentials in qobuz settings ("
           ++ settings_path ++ "): " ++ join_comma (missing c))
    else if has_placeholder c then
      inl ("Error: Placeholder credentials found in "
           ++ settings_path ++ ". Please fill them in.")
    else inr c.
Proof.
  intros Hm Hq Hd. unfold load_credentials_from_settings. rewrite Hm, Hq.
  unfold truthy at 1. rewrite bool_decide_eq_false_2 by exact Hd. reflexivity.
Qed.

End LoginFacts.

(** C9: when the settings file holds a dictionary of qobuz settings,
    the login probe checks the four credentials before it calls the
    client.  If any of them is empty it prints the line of the missing
    credentials, which names every empty one under its key ([app_id],
    [app_secret], [email], [password]), and makes no call.  If none is
    empty but one is a known placeholder it prints one fixed line, the
    same whichever field holds the placeholder, and makes no call.
    Otherwise it constructs the client and calls [login] exactly once. *)
Theorem login_probe_checks_credentials (settings_path : string)
    (settings modules : Login.json) (d : list (string * Login.json))
    (login : Login.json -> Login.json -> Login.login_outcome) (w : Login.world) :
  Login.get_default settings "modules" (Login.JObj []) = inr modules ->
  Login.get_default modules "qobuz" Login.JNull = inr (Login.JObj d) ->
  d <> [] ->
  let c := Login.read_credentials d in
  let run := Login.run_login_test settings_path (Login.Parsed settings) login w in
  ((exists k, Login.empty c k) ->
   exists line,
     run = Login.print line w
     /\ line = "Error: Missing credentials in qobuz settings (" ++ settings_path ++ "): "
               ++ Login.join_comma (Login.missing c)
     /\ (forall k, In k (Login.missing c) <-> Login.empty c k)
     /\ forall k, Login.empty c k -> PyStr.contains line k = true)
  /\ ((forall k, ~ Login.empty c k) -> Login.has_placeholder c = true ->
      run = Login.print ("Error: Placeholder credentials found in " ++ settings_path
                         ++ ". Please fill them in.") w)
  /\ ((forall k, ~ Login.empty c k) -> Login.has_placeholder c = false ->
      Login.calls run
      = (Login.calls w
         ++ [Login.Construct (Login.app_id c) (Login.app_secret c);
             Login.LoginCall (Login.email c) (Login.password c)])%list
      /\ Login.login_calls run
         = (Login.login_calls w
            ++ [Login.LoginCall (Login.email c) (Login.password c)])%list)
  /\ (Login.has_placeholder c = true
      <-> Login.app_id c = Login.JStr "YOUR_APP_ID"
          \/ Login.app_secret c = Login.JStr "YOUR_APP_SECRET"
          \/ Login.email c = Login.JStr "YOUR_QOBUZ_EMAIL"
          \/ Login.password c = Login.JStr "YOUR_QOBUZ_PASSWORD").
Proof.
  intros Hm Hq Hd c run. subst run. unfold Login.run_login_test.
  rewrite (LoginFacts.load_parsed settings_path settings modules d Hm Hq Hd).
  cbv zeta. fold c.
  split; [|split; [|split; [|apply LoginFacts.has_placeholder_spec]]].
  - intros [k0 Hk0].
    assert (forallb Login.truthy (map snd (Login.items c)) = false) as ->.
    { destruct (forallb _ _) eqn:E; [|reflexivity].
      exfalso. exact (proj1 (LoginFacts.all_filled c) E k0 Hk0). }
    simpl negb. cbv iota. eexists. split; [reflexivity|]. split; [reflexivity|].
    split; [apply LoginFacts.missing_spec|].
    intros k Hk. do 3 apply PyStrFacts.contains_app_l.
    apply LoginFacts.join_comma_names, LoginFacts.missing_spec, Hk.
  - intros Hall Hp. rewrite (proj2 (LoginFacts.all_filled c) Hall), Hp. reflexivity.
  - intros Hall Hp. rewrite (proj2 (LoginFacts.all_filled c) Hall), Hp.
    simpl negb. cbv iota.
    split.
    + destruct (login _ _) as [token| | |]; [destruct (String.eqb token "")| | |];
        simpl; rewrite <- app_assoc; reflexivity.
    + unfold Login.login_calls.
      destruct (login _ _) as [token| | |]; [destruct (String.eqb token "")| | |];
        simpl; rewrite !List.filter_app; simpl; rewrite app_nil_r; reflexivity.
Qed.

Lemma login_probe_checks_credentials_witness :
  exists line,
    Login.run_login_test LoginFixtures.settings_path
      (Login.Parsed (LoginFixtures.with_qobuz LoginFixtures.half_filled))
      LoginFixtures.refuses Login.init
    = Login.print line Login.init
    /\ line = "Error: Missing credentials in qobuz settings (config/settings.json): app_secret, email".
Proof.
  assert (LoginFixtures.half_filled <> []) as Hd by discriminate.
  assert (exists k, Login.empty (Login.read_credentials LoginFixtures.half_filled) k) as Hex.
  { exists "app_secret", (Login.JStr ""). split; [simpl; tauto|reflexivity]. }
  destruct (proj1 (login_probe_checks_credentials LoginFixtures.settings_path
                     (LoginFixtures.with_qobuz LoginFixtures.half_filled) _
                     LoginFixtures.half_filled LoginFixtures.refuses Login.init
                     eq_refl eq_refl Hd) Hex) as (line & Hrun & Hline & _).
  exists line. split; [exact Hrun|exact Hline].
Defined.

(** C9, the placeholder: with the application identifier left as the
    template has it, the probe makes no call, and the one line it
    prints names neither the field nor the placeholder. *)
Lemma placeholder_message_names_no_field :
  let w := Login.run_login_test LoginFixtures.settings_path
             (Login.Parsed (LoginFixtures.with_qobuz LoginFixtures.from_template))
             LoginFixtures.refuses Login.init in
  Login.has_placeholder (Login.read_credentials LoginFixtures.from_template) = true
  /\ Login.calls w = []
  /\ Login.stdout w
     = ["Error: Placeholder credentials found in config/settings.json. Please fill them in."]
  /\ forallb (fun line => negb (PyStr.contains line "app_id")
                          && negb (PyStr.contains line "YOUR_APP_ID"))
             (Login.stdout w) = true.
Proof. repeat split; vm_compute; reflexivity. Qed.

(** * Further properties of the four programs *)

(** ** Adding albums *)

Module AddFacts.
Import Sel Common EffFacts SelFacts.

(** A loop whose body always returns runs the bodies one after the other. *)
Lemma for_each_run {S A} (l : list A) (body : A -> Eff.M S unit) (f : A -> S -> S) :
  (forall a st, body a st = (Ok tt, f a st)) ->
  forall st, for_each l body st = (Ok tt, fold_left (fun st a => f a st) l st).
Proof.
  intros Hbody. induction l as [|a l IH]; intros st; [reflexivity|].
  simpl. unfold bind. rewrite Hbody. apply IH.
Qed.

(** Appending one record, one URL and some lines for each element. *)
Lemma fold_appends {A} (l : list A) (rec : A -> Selection.t) (url : A -> string)
    (lines : A -> list string) : forall st,
  fold_left (fun st a =>
               {| selected_albums := (selected_albums st ++ [rec a])%list;
                  album_urls := (album_urls st ++ [url a])%list;
                  stdout := (stdout st ++ lines a)%list |}) l st
  = {| selected_albums := (selected_albums st ++ map rec l)%list;
       album_urls := (album_urls st ++ map url l)%list;
       stdout := (stdout st ++ concat (map lines l))%list |}.
Proof.
  induction l as [|a l IH]; intros st.
  - simpl. rewrite !app_nil_r. destruct st; reflexivity.
  - simpl. rewrite IH. simpl. rewrite <- !app_assoc. reflexivity.
Qed.

End AddFacts.

(** X1: [add_selected_albums] appends, for each album given and in the
    order given, one record to the selection and one line to the URL
    list: the URL the [try] block of [generate_album_url] builds, or the
    placeholder comment when it fails.  The menu selector always
    returns; with albums to add, the last line it prints is the new
    size of the selection.  The terminal-UI selector prints its two
    lines and then waits for Enter: it returns when there is a line to
    read and raises the end-of-input error otherwise, the albums
    having been added all the same.  With no album to add, neither
    changes, prints or reads anything. *)
Theorem add_appends_one_entry_per_album
    (module_settings : list (string * ModuleInformation.t)) (hash : string -> Z)
    (beauty_format_seconds : Z -> string)
    (module_name artist_name : string) (albums : list AlbumInfo.t) (st : Sel.state) :
  let url_of (build : string -> AlbumInfo.t -> Eff.result string) a :=
    match build module_name a with
    | Eff.Ok url => url
    | Eff.Raise _ => Common.fallback_comment a
    end in
  let total :=
    PyStr.str_int (Py.len (Sel.selected_albums st) + Py.len albums) in
  (exists out,
     Interactive.add_selected_albums module_settings hash beauty_format_seconds
       module_name albums artist_name st
     = (Eff.Ok tt,
        {| Sel.selected_albums :=
             (Sel.selected_albums st
              ++ map (Common.searched module_name artist_name) albums)%list;
           Sel.album_urls :=
             (Sel.album_urls st
              ++ map (url_of (Interactive.build_url module_settings hash)) albums)%list;
           Sel.stdout := (Sel.stdout st ++ out)%list |})
     /\ out = match albums with
              | [] => []
              | _ => (removelast out
                      ++ [(Py.nl ++ "Total albums selected: " ++ total)%string])%list
              end)
  /\ forall inputs,
       TUI.add_selected_albums module_settings hash module_name albums artist_name
         inputs st
       = (match albums, inputs with
          | [], _ => Eff.Ok inputs
          | _ :: _, [] => Eff.Raise Py.EOFError
          | _ :: _, _ :: rest => Eff.Ok rest
          end,
        {| Sel.selected_albums :=
             (Sel.selected_albums st
              ++ map (Common.searched module_name artist_name) albums)%list;
           Sel.album_urls :=
             (Sel.album_urls st
              ++ map (url_of (TUI.build_url module_settings hash)) albums)%list;
           Sel.stdout :=
             (Sel.stdout st
              ++ match albums with
                 | [] => []
                 | _ => [("[green]✓ Added " ++ PyStr.str_int (Py.len albums)
                          ++ " albums from " ++ artist_name ++ "[/green]")%string;
                         ("[blue]Total albums selected: " ++ total ++ "[/blue]")%string]
                 end)%list |}).
Proof.
  intros url_of total. subst total.
  assert (Py.len (Sel.selected_albums st
                  ++ map (Common.searched module_name artist_name) albums)%list
          = Py.len (Sel.selected_albums st) + Py.len albums) as Hlen.
  { unfold Py.len. rewrite length_app, length_map. lia. }
  split.
  - unfold Interactive.add_selected_albums.
    destruct albums as [|a0 albums0] eqn:Ealbums.
    { exists []. simpl. rewrite !app_nil_r. destruct st; split; reflexivity. }
    rewrite <- Ealbums in *. clear Ealbums.
    set (lines := fun a : AlbumInfo.t =>
           (match Interactive.build_url module_settings hash module_name a with
            | Eff.Ok _ => []
            | Eff.Raise e =>
                [("Warning: Could not generate URL for " ++ AlbumInfo.name a
                  ++ ": " ++ Py.exn_str e)%string]
            end
            ++ [("  ✓ " ++ AlbumInfo.name a ++ " ("
                 ++ PyStr.str_int (AlbumInfo.release_year a) ++ ")"
                 ++ Interactive.duration_str beauty_format_seconds a)%string])%list).
    unfold Eff.bind at 1. unfold Sel.print at 1. unfold Eff.bind at 1.
    erewrite (AddFacts.for_each_run albums _
                (fun a st =>
                   {| Sel.selected_albums :=
                        (Sel.selected_albums st
                         ++ [Common.searched module_name artist_name a])%list;
                      Sel.album_urls :=
                        (Sel.album_urls st
                         ++ [url_of (Interactive.build_url module_settings hash) a])%list;
                      Sel.stdout := (Sel.stdout st ++ lines a)%list |})); cycle 1.
    { intros a st1. unfold Interactive.generate_album_url, url_of, lines.
      destruct (Interactive.build_url module_settings hash module_name a) as [u|e];
        LockstepFacts.run_sel; rewrite <- ?app_assoc; reflexivity. }
    rewrite AddFacts.fold_appends. LockstepFacts.run_sel. rewrite Hlen.
    eexists. split.
    + rewrite <- !app_assoc. reflexivity.
    + rewrite !app_assoc. rewrite removelast_last. reflexivity.
  - intros inputs. unfold TUI.add_selected_albums.
    destruct albums as [|a0 albums0] eqn:Ealbums.
    { simpl. rewrite !app_nil_r. destruct st; reflexivity. }
    cbv iota. rewrite <- Ealbums in *. clear Ealbums.
    unfold Eff.bind at 1.
    erewrite (AddFacts.for_each_run albums _
                (fun a st =>
                   {| Sel.selected_albums :=
                        (Sel.selected_albums st
                         ++ [Common.searched module_name artist_name a])%list;
                      Sel.album_urls :=
                        (Sel.album_urls st
                         ++ [url_of (TUI.build_url module_settings hash) a])%list;
                      Sel.stdout := (Sel.stdout st ++ [])%list |})); cycle 1.
    { intros a st1. unfold TUI.generate_album_url, url_of.
      destruct (TUI.build_url module_settings hash module_name a) as [u|e];
        LockstepFacts.run_sel; rewrite ?app_nil_r; reflexivity. }
    rewrite (AddFacts.fold_appends albums _ _ (fun _ => [])).
    LockstepFacts.run_sel. rewrite Hlen.
    assert (concat (map (fun _ : AlbumInfo.t => @nil string) albums) = []) as ->
      by (clear; induction albums; simpl; auto).
    rewrite app_nil_r, <- !app_assoc. destruct inputs; reflexivity.
Qed.

(** X2: both selectors keep one URL per selected album over every
    sequence of their operations (adding albums, commands typed on the
    management screen, loading a links file): the terminal-UI selector
    always, the menu selector when [urlparse] accepts every line it
    loads. *)
Theorem lists_stay_in_lockstep
    (module_settings : list (string * ModuleInformation.t)) (hash : string -> Z)
    (beauty_format_seconds : Z -> string) (urlparse_raises : string -> bool)
    (ops : list Common.mutation) :
  Sel.lockstep (TUI.perform_all module_settings hash ops Sel.init)
  /\ (forall st, Sel.lockstep st ->
                 Sel.lockstep (TUI.perform_all module_settings hash ops st))
  /\ ((forall inputs lines,
         Common.LoadFile inputs (Some lines) ∈ ops ->
         forall u, u ∈ Common.stripped_lines lines -> urlparse_raises u = false) ->
      forall st, Sel.lockstep st ->
                 Sel.lockstep (Interactive.perform_all module_settings hash
                                 beauty_format_seconds urlparse_raises ops st)).
Proof.
  split; [|split].
  - apply LockstepFacts.tui_lockstep. reflexivity.
  - apply LockstepFacts.tui_lockstep.
  - intros Hok st Hlock. apply LockstepFacts.interactive_lockstep; assumption.
Qed.

(** ** Removing several albums *)

Module RemoveManyFacts.
Import Sel Common EffFacts SelFacts.

Lemma elem_of_insert_desc x l y : y ∈ Py.insert_desc x l <-> y = x \/ y ∈ l.
Proof.
  induction l as [|z l IH]; simpl.
  - rewrite list_elem_of_singleton. split; [auto|]. intros [H|H]; [exact H|inversion H].
  - destruct (z <=? x); rewrite !elem_of_cons; [tauto|]. rewrite IH. tauto.
Qed.

Lemma elem_of_sorted_reverse l y : y ∈ Py.sorted_reverse l <-> y ∈ l.
Proof.
  induction l as [|x l IH]; simpl; [reflexivity|].
  rewrite elem_of_insert_desc, elem_of_cons, IH. reflexivity.
Qed.

Lemma length_insert_desc x l : length (Py.insert_desc x l) = S (length l).
Proof.
  induction l as [|z l IH]; simpl; [reflexivity|].
  destruct (z <=? x); simpl; [reflexivity|]. rewrite IH. reflexivity.
Qed.

Lemma length_sorted_reverse l : length (Py.sorted_reverse l) = length l.
Proof.
  induction l as [|x l IH]; simpl; [reflexivity|].
  rewrite length_insert_desc, IH. reflexivity.
Qed.

(** Each entry is above all that follow it. *)
Abbreviation descending := (ForallOrdPairs (fun a b : Z => b < a)).

Lemma insert_desc_descending x l :
  descending l -> x ∉ l -> descending (Py.insert_desc x l).
Proof.
  induction 1 as [|z l Hz Hl IH]; intros Hx; simpl.
  - repeat constructor.
  - apply not_elem_of_cons in Hx as [Hne Hx].
    destruct (Z.leb_spec z x).
    + constructor; [|constructor; assumption].
      constructor; [lia|]. eapply Forall_impl; [exact Hz|]. simpl. intros. lia.
    + constructor; [|apply IH, Hx].
      apply List.Forall_forall. intros b Hb.
      apply list_elem_of_In, elem_of_insert_desc in Hb as [->|Hb]; [lia|].
      rewrite List.Forall_forall in Hz. apply Hz, list_elem_of_In, Hb.
Qed.

Lemma sorted_reverse_descending l : NoDup l -> descending (Py.sorted_reverse l).
Proof.
  induction 1 as [|x l Hx Hl IH]; simpl; [constructor|].
  apply insert_desc_descending; [exact IH|]. rewrite elem_of_sorted_reverse. exact Hx.
Qed.

Lemma omit_above {A} (l : list A) : forall k idxs,
  (forall r, r ∈ idxs -> r < k) -> omit_from k idxs l = l.
Proof.
  induction l as [|x l IH]; intros k idxs H; simpl; [reflexivity|].
  rewrite bool_decide_eq_false_2.
  - f_equal. apply IH. intros r Hr. specialize (H r Hr). lia.
  - intros Hk. specialize (H k Hk). lia.
Qed.

Lemma omit_ext {A} (l : list A) : forall k idxs idxs',
  (forall r, r ∈ idxs <-> r ∈ idxs') -> omit_from k idxs l = omit_from k idxs' l.
Proof.
  induction l as [|x l IH]; intros k idxs idxs' H; simpl; [reflexivity|].
  rewrite (IH (k + 1) idxs idxs' H).
  destruct (bool_decide_reflect (k ∈ idxs)) as [Hk|Hk].
  - rewrite bool_decide_eq_true_2 by (apply H, Hk). reflexivity.
  - rewrite bool_decide_eq_false_2 by (rewrite <- H; exact Hk). reflexivity.
Qed.

(** Popping the highest position first leaves the lower ones in place. *)
Lemma omit_delete {A} (l : list A) : forall k i rest,
  k <= i -> (forall r, r ∈ rest -> r < i) ->
  omit_from k rest (delete (Z.to_nat (i - k)) l) = omit_from k (i :: rest) l.
Proof.
  induction l as [|x l IH]; intros k i rest Hk Hrest; [reflexivity|].
  destruct (decide (i = k)) as [->|Hne].
  - replace (Z.to_nat (k - k)) with 0%nat by lia. simpl.
    rewrite bool_decide_eq_true_2 by left.
    rewrite omit_above by exact Hrest.
    rewrite omit_above; [reflexivity|].
    intros r [->|Hr]%elem_of_cons; [lia|]. specialize (Hrest r Hr). lia.
  - replace (Z.to_nat (i - k)) with (S (Z.to_nat (i - (k + 1)))) by lia. simpl.
    rewrite (IH (k + 1) i rest) by (first [lia|exact Hrest]).
    destruct (bool_decide_reflect (k ∈ rest)) as [Hin|Hin].
    + rewrite bool_decide_eq_true_2 by (right; exact Hin). reflexivity.
    + rewrite bool_decide_eq_false_2; [reflexivity|].
      intros [?|?]%elem_of_cons; [lia|contradiction].
Qed.

Lemma pops_omit {A} idxs : forall l : list A,
  descending idxs -> (forall i, i ∈ idxs -> 0 <= i) -> pops idxs l = omit idxs l.
Proof.
  induction idxs as [|i rest IH]; intros l Hd Hpos.
  - simpl. unfold omit. rewrite omit_above; [reflexivity|]. intros r Hr. inversion Hr.
  - inversion Hd as [|? ? Hi Hrest]; subst.
    change (pops (i :: rest) l) with (pops rest (delete (Z.to_nat i) l)).
    rewrite IH; [|exact Hrest|intros j Hj; apply Hpos; right; exact Hj].
    unfold omit. replace i with (i - 0) at 1 by lia.
    apply omit_delete; [apply Hpos; left|].
    intros r Hr. rewrite List.Forall_forall in Hi. apply Hi, list_elem_of_In, Hr.
Qed.

Lemma length_pops {A} idxs : forall l : list A,
  descending idxs -> (forall i, i ∈ idxs -> 0 <= i < Py.len l) ->
  Py.len (pops idxs l) = Py.len l - Py.len idxs.
Proof.
  induction idxs as [|i rest IH]; intros l Hd Hin.
  - unfold Py.len. simpl. lia.
  - inversion Hd as [|? ? Hi Hrest]; subst.
    change (pops (i :: rest) l) with (pops rest (delete (Z.to_nat i) l)).
    assert (0 <= i < Py.len l) as Hil by (apply Hin; left).
    assert (Py.len (delete (Z.to_nat i) l) = Py.len l - 1) as Hlen.
    { apply RemoveFacts.len_delete. unfold Py.len in Hil. lia. }
    rewrite IH; [|exact Hrest|].
    + rewrite Hlen. unfold Py.len. simpl. lia.
    + intros j Hj. rewrite Hlen. rewrite List.Forall_forall in Hi.
      specialize (Hi j (proj1 (list_elem_of_In _ _) Hj)).
      pose proof (Hin j ltac:(right; exact Hj)). lia.
Qed.

(** The second loop of the terminal-UI variant. *)
Lemma tui_pop_each_run idxs : forall count st,
  descending idxs -> (forall i, i ∈ idxs -> 0 <= i < Py.len (selected_albums st)) ->
  lockstep st ->
  TUI.pop_each idxs count st
  = (Ok (count + Py.len idxs),
     {| selected_albums := pops idxs (selected_albums st);
        album_urls := pops idxs (album_urls st);
        stdout := stdout st |}).
Proof.
  induction idxs as [|i rest IH]; intros count st Hd Hin Hlock.
  - simpl. unfold ret, Py.len. simpl. rewrite Z.add_0_r. destruct st; reflexivity.
  - inversion Hd as [|? ? Hi Hrest]; subst.
    assert (0 <= i < Py.len (selected_albums st)) as Hil by (apply Hin; left).
    rewrite RemoveFacts.pop_each_step by assumption.
    rewrite IH.
    + simpl. f_equal. f_equal. unfold Py.len. simpl. lia.
    + exact Hrest.
    + simpl. intros j Hj. rewrite RemoveFacts.len_delete by (unfold Py.len in Hil; lia).
      rewrite List.Forall_forall in Hi.
      specialize (Hi j (proj1 (list_elem_of_In _ _) Hj)).
      pose proof (Hin j ltac:(right; exact Hj)). lia.
    + unfold lockstep in *. simpl. unfold Py.len in Hil.
      rewrite !length_delete; [lia| |]; apply lookup_lt_is_Some_2; lia.
Qed.

(** The second loop of the menu variant, which reports each removal. *)
Lemma interactive_pop_both_run idxs : forall st,
  descending idxs -> (forall i, i ∈ idxs -> 0 <= i < Py.len (selected_albums st)) ->
  lockstep st ->
  exists out,
    for_each idxs Interactive.pop_both st
    = (Ok tt,
       {| selected_albums := pops idxs (selected_albums st);
          album_urls := pops idxs (album_urls st);
          stdout := (stdout st ++ out)%list |}).
Proof.
  induction idxs as [|i rest IH]; intros st Hd Hin Hlock.
  - exists []. simpl. unfold ret. rewrite app_nil_r. destruct st; reflexivity.
  - inversion Hd as [|? ? Hi Hrest]; subst.
    assert (0 <= i < Py.len (selected_albums st)) as Hil by (apply Hin; left).
    destruct (RemoveFacts.pop_both_run i st Hil Hlock) as (removed & _ & Hrun).
    simpl for_each. unfold bind. rewrite Hrun.
    match goal with |- context [for_each rest _ ?s] => set (st1 := s) end.
    destruct (IH st1) as [out Hout].
    + exact Hrest.
    + simpl. intros j Hj. rewrite RemoveFacts.len_delete by (unfold Py.len in Hil; lia).
      rewrite List.Forall_forall in Hi.
      specialize (Hi j (proj1 (list_elem_of_In _ _) Hj)).
      pose proof (Hin j ltac:(right; exact Hj)). lia.
    + unfold lockstep in *. simpl. unfold Py.len in Hil.
      rewrite !length_delete; [lia| |]; apply lookup_lt_is_Some_2; lia.
    + rewrite Hout. simpl. eexists. rewrite <- app_assoc. reflexivity.
Qed.

(** The index of a token in range. *)
Lemma index_in_range st t :
  token_in_range st t -> 0 <= index_of t < Py.len (selected_albums st).
Proof.
  intros (n & Hn & Hr). unfold index_of. rewrite Hn. simpl.
  unfold in_range in Hr. apply andb_prop in Hr as [H1 H2].
  apply Z.leb_le in H1. apply Z.ltb_lt in H2. lia.
Qed.

Lemma all_in_range st numbers :
  Forall (token_in_range st) numbers ->
  Forall (fun t => is_Some (PyStr.int t)) numbers
  /\ List.filter (goodb (Py.len (selected_albums st))) numbers = numbers
  /\ List.filter (oorb (Py.len (selected_albums st))) numbers = [].
Proof.
  induction 1 as [|t numbers Ht Hall (IH1 & IH2 & IH3)]; [repeat split; constructor|].
  pose proof (proj1 (RemoveFacts.goodb_in_range st t) Ht) as Hg.
  assert (oorb (Py.len (selected_albums st)) t = false) as Ho.
  { unfold oorb, goodb in *. destruct (PyStr.int t); [|discriminate].
    rewrite Hg. reflexivity. }
  destruct Ht as (n & Hn & _).
  split; [constructor; [rewrite Hn; eauto|exact IH1]|].
  simpl. rewrite Hg, Ho, IH2, IH3. split; reflexivity.
Qed.

End RemoveManyFacts.

(** X3: in both selectors a removal command whose tokens are the numbers
    of selected albums, no number twice, removes from both lists exactly
    the entries at those positions and keeps the others in their order;
    the number of albums left, which is reported, is the old number less
    the number of tokens. *)
Theorem remove_distinct_numbers (line : string) (confirmed : bool) (st : Sel.state) :
  Common.is_remove line = true ->
  Forall (Common.token_in_range st) (Common.tokens line) ->
  NoDup (map Common.index_of (Common.tokens line)) ->
  Sel.lockstep st ->
  let idxs := map Common.index_of (Common.tokens line) in
  let kept := Common.omit idxs (Sel.selected_albums st) in
  let urls := Common.omit idxs (Sel.album_urls st) in
  TUI.command line confirmed st
  = (Eff.Ok Common.Break,
     {| Sel.selected_albums := kept;
        Sel.album_urls := urls;
        Sel.stdout :=
          (Sel.stdout st
           ++ [("[green]✓ Removed " ++ PyStr.str_int (Py.len idxs)
                ++ " albums.[/green]")%string;
               ("[blue]Remaining albums: " ++ PyStr.str_int (Py.len kept)
                ++ "[/blue]")%string])%list |})
  /\ (exists out,
        Interactive.command line st
        = (Eff.Ok Common.Break,
           {| Sel.selected_albums := kept;
              Sel.album_urls := urls;
              Sel.stdout :=
                (Sel.stdout st ++ out
                 ++ [("Remaining albums: " ++ PyStr.str_int (Py.len kept))%string])%list |}))
  /\ Py.len kept = Py.len (Sel.selected_albums st) - Py.len idxs
  /\ Py.len urls = Py.len kept.
Proof.
  intros Hrm Hall Hnd Hlock idxs kept urls.
  set (ds := Py.sorted_reverse idxs).
  assert (ForallOrdPairs (fun a b : Z => b < a) ds) as Hdesc
    by (apply RemoveManyFacts.sorted_reverse_descending, Hnd).
  assert (forall i, i ∈ ds -> 0 <= i < Py.len (Sel.selected_albums st)) as Hin.
  { intros i Hi. unfold ds in Hi.
    apply (proj1 (RemoveManyFacts.elem_of_sorted_reverse _ _)) in Hi. unfold idxs in Hi.
    apply list_elem_of_fmap in Hi as (t & -> & Ht).
    apply RemoveManyFacts.index_in_range.
    rewrite List.Forall_forall in Hall. apply Hall, list_elem_of_In, Ht. }
  assert (forall A (l : list A), Common.pops ds l = Common.omit idxs l) as Hpops.
  { intros A l. rewrite RemoveManyFacts.pops_omit;
      [|exact Hdesc|intros i Hi; apply Hin, Hi].
    apply RemoveManyFacts.omit_ext. intros r.
    apply RemoveManyFacts.elem_of_sorted_reverse. }
  assert (Py.len ds = Py.len idxs) as Hlen
    by (unfold Py.len, ds; rewrite RemoveManyFacts.length_sorted_reverse; reflexivity).
  assert (Py.len kept = Py.len (Sel.selected_albums st) - Py.len idxs) as Hkept.
  { unfold kept. rewrite <- Hpops, <- Hlen.
    apply RemoveManyFacts.length_pops; assumption. }
  split; [|split; [|split; [exact Hkept|]]].
  - rewrite RemoveFacts.tui_command_remove by exact Hrm.
    unfold TUI._remove_albums, TUI.remove_body.
    change (tail (PyStr.split (PyStr.lower (PyStr.strip line)))) with (Common.tokens line).
    unfold Eff.bind at 1, Eff.try_except, Eff.bind at 1.
    rewrite (RemoveFacts.tui_collect_all _ [] st Hall). rewrite app_nil_l.
    fold idxs. fold ds. unfold Eff.bind at 1.
    rewrite (RemoveManyFacts.tui_pop_each_run ds 0 st Hdesc Hin Hlock).
    rewrite !Hpops, Hlen. LockstepFacts.run_sel. rewrite <- app_assoc. reflexivity.
  - rewrite RemoveFacts.interactive_command_remove by exact Hrm.
    unfold Interactive.remove_command, Interactive.remove_body.
    change (tail (PyStr.split (PyStr.lower (PyStr.strip line)))) with (Common.tokens line).
    destruct (RemoveManyFacts.all_in_range st _ Hall) as (Hint & Hgood & Hoor).
    erewrite EffFacts.try_except_bind_ok
      by (apply RemoveFacts.interactive_collect; exact Hint).
    rewrite Hgood, Hoor, app_nil_l. simpl map. rewrite app_nil_r.
    fold idxs. fold ds.
    assert (Sel.with_stdout st (Sel.stdout st) = st) as -> by (destruct st; reflexivity).
    destruct (RemoveManyFacts.interactive_pop_both_run ds st Hdesc Hin Hlock)
      as [out Hout].
    unfold Eff.try_except, Eff.bind at 1. rewrite Hout.
    exists out. LockstepFacts.run_sel. rewrite !Hpops, <- app_assoc. reflexivity.
  - unfold urls, kept. rewrite <- !Hpops.
    rewrite !RemoveManyFacts.length_pops; try assumption.
    + unfold Sel.lockstep, Py.len in *. lia.
    + intros i Hi. specialize (Hin i Hi). unfold Sel.lockstep, Py.len in *. lia.
Qed.

Lemma remove_distinct_numbers_witness :
  TUI.command "remove 3 1" false Fixtures.three
  = (Eff.Ok Common.Break,
     {| Sel.selected_albums := [Fixtures.entry "B"];
        Sel.album_urls := ["https://b"];
        Sel.stdout := ["[green]✓ Removed 2 albums.[/green]";
                       "[blue]Remaining albums: 1[/blue]"] |}).
Proof.
  assert (Forall (Common.token_in_range Fixtures.three) (Common.tokens "remove 3 1"))
    as Hall by (repeat constructor; eexists; split; reflexivity).
  assert (NoDup (map Common.index_of (Common.tokens "remove 3 1"))) as Hnd.
  { vm_compute. repeat constructor; intros H; inversion H; subst;
      match goal with
      | H' : _ ∈ [] |- _ => inversion H'
      | H' : _ ∈ [_] |- _ => inversion H'; subst
      | _ => idtac
      end; try discriminate;
      match goal with H' : _ ∈ [] |- _ => inversion H' | _ => idtac end. }
  exact (proj1 (remove_distinct_numbers "remove 3 1" false Fixtures.three
                  eq_refl Hall Hnd eq_refl)).
Defined.

(** ** A removal command with a token that is not a number *)

Module RemoveBadTokenFacts.
Import Sel Common EffFacts SelFacts.

(** The first loop of the menu variant stops with [ValueError] at the
    first token that is not an integer, the lists being as they were. *)
Lemma interactive_collect_raises numbers : forall acc st,
  (exists t, t ∈ numbers /\ PyStr.int t = None) ->
  exists st', Interactive.collect_indices numbers acc st = (Raise Py.ValueError, st')
              /\ same_lists st st'.
Proof.
  induction numbers as [|num rest IH]; intros acc st (t & Hin & Hnone).
  - inversion Hin.
  - simpl Interactive.collect_indices. unfold bind at 1.
    destruct (PyStr.int num) as [n|] eqn:En.
    + assert (exists t, t ∈ rest /\ PyStr.int t = None) as Hrest.
      { exists t. split; [|exact Hnone].
        apply elem_of_cons in Hin as [->|Hin]; [congruence|exact Hin]. }
      simpl. unfold bind at 1. simpl.
      destruct (in_range (n - 1) st); [apply IH, Hrest|].
      unfold bind at 1. simpl.
      match goal with |- context [Interactive.collect_indices rest acc ?s] =>
        destruct (IH acc s Hrest) as (st' & -> & Hsame) end.
      exists st'. split; [reflexivity|]. destruct Hsame as [H1 H2]. split; assumption.
    + exists st. split; [reflexivity|split; reflexivity].
Qed.

Lemma interactive_collect_grows numbers : forall acc,
  steps grows (Interactive.collect_indices numbers acc).
Proof.
  induction numbers as [|num rest IH]; intros acc; simpl.
  - apply (steps_ret grows).
  - apply (steps_bind grows); [apply (steps_of_option grows)|]. intros n.
    apply (steps_bind grows); [apply (steps_get grows)|].
    intros s. destruct (in_range (n - 1) s); [apply IH|].
    apply (steps_bind grows); [apply print_grows|]. intros _. apply IH.
Qed.

End RemoveBadTokenFacts.

(** X4: in the menu selector a removal command with a token that is not
    an integer removes nothing, whatever its other tokens are: the first
    loop raises before anything is popped, the format is explained and
    the command is asked for again.  (Tokens out of range are treated
    otherwise: the albums of the valid tokens are removed.) *)
Theorem remove_non_integer_token (line : string) (st : Sel.state) :
  Common.is_remove line = true ->
  (exists t, t ∈ Common.tokens line /\ PyStr.int t = None) ->
  exists st',
    Interactive.command line st = (Eff.Ok Common.Continue, st')
    /\ Sel.same_lists st st'
    /\ exists out,
         Sel.stdout st'
         = (Sel.stdout st ++ out
            ++ ["Invalid format. Use 'remove [numbers]' (e.g., 'remove 1 3 5')"])%list.
Proof.
  intros Hrm Hbad.
  rewrite RemoveFacts.interactive_command_remove by exact Hrm.
  unfold Interactive.remove_command, Interactive.remove_body.
  change (tail (PyStr.split (PyStr.lower (PyStr.strip line)))) with (Common.tokens line).
  destruct (RemoveBadTokenFacts.interactive_collect_raises _ [] st Hbad)
    as (st1 & Hrun & Hsame).
  assert (Sel.grows st st1) as [out Hout].
  { pose proof (RemoveBadTokenFacts.interactive_collect_grows
                  (Common.tokens line) [] st) as Hgrows.
    rewrite Hrun in Hgrows. exact Hgrows. }
  unfold Eff.try_except, Eff.bind at 1. rewrite Hrun. simpl.
  eexists. split; [reflexivity|]. simpl. split; [exact Hsame|].
  exists out. rewrite Hout, <- app_assoc. reflexivity.
Qed.

Lemma remove_non_integer_token_witness :
  exists st',
    Interactive.command "remove 1 two" Fixtures.three = (Eff.Ok Common.Continue, st')
    /\ Sel.same_lists Fixtures.three st'.
Proof.
  assert (exists t, t ∈ Common.tokens "remove 1 two" /\ PyStr.int t = None) as Hbad.
  { exists "two". split; [vm_compute; right; left|reflexivity]. }
  destruct (remove_non_integer_token "remove 1 two" Fixtures.three eq_refl Hbad)
    as (st' & Hrun & Hsame & _).
  exists st'. split; [exact Hrun|exact Hsame].
Defined.

(** ** Choosing albums of an artist *)

Module PickFacts.
Import Sel Common EffFacts SelFacts.

Lemma numbers_album_dec albums t n :
  PyStr.int t = Some n ->
  (0 <=? n - 1) && (n - 1 <? Py.len albums) = true <-> numbers_album albums t.
Proof.
  intros Hn. rewrite andb_true_iff, Z.leb_le, Z.ltb_lt. unfold numbers_album. split.
  - intros H. exists n. split; [exact Hn|lia].
  - intros (m & Hm & H). assert (m = n) as -> by congruence. lia.
Qed.

Lemma lookup_numbered (albums : list AlbumInfo.t) n :
  1 <= n <= Py.len albums -> is_Some (albums !! Z.to_nat (n - 1)).
Proof. intros H. apply lookup_lt_is_Some_2. unfold Py.len in H. lia. Qed.

Lemma pick_step invalid albums t rest acc st :
  pick_albums invalid albums (t :: rest) acc st
  = match PyStr.int t with
    | None => (Raise Py.ValueError, st)
    | Some n =>
        if (0 <=? n - 1) && (n - 1 <? Py.len albums) then
          match albums !! Z.to_nat (n - 1) with
          | Some a => pick_albums invalid albums rest (acc ++ [a])%list st
          | None => (Raise Py.IndexError, st)
          end
        else (Ok None, with_stdout st (stdout st ++ [invalid t])%list)
    end.
Proof.
  simpl. unfold bind, of_option, ret, raise, print.
  destruct (PyStr.int t) as [n|]; [|reflexivity].
  destruct ((0 <=? n - 1) && (n - 1 <? Py.len albums)); [|reflexivity].
  destruct (albums !! Z.to_nat (n - 1)); reflexivity.
Qed.

(** The loop over numbers of albums returns the albums numbered. *)
Lemma pick_all invalid albums selections : forall acc st,
  Forall (numbers_album albums) selections ->
  exists chosen,
    pick_albums invalid albums selections acc st = (Ok (Some (acc ++ chosen)%list), st)
    /\ Forall2 (fun t a => albums !! Z.to_nat (index_of t) = Some a) selections chosen.
Proof.
  induction selections as [|t rest IH]; intros acc st Hall.
  - exists []. rewrite app_nil_r. split; [reflexivity|constructor].
  - inversion Hall as [|? ? (n & Hn & Hr) Hrest]; subst.
    destruct (lookup_numbered albums n Hr) as [a Ha].
    destruct (IH (acc ++ [a])%list st Hrest) as (chosen & Hrun & Hch).
    exists (a :: chosen). split.
    + rewrite pick_step, Hn.
      rewrite (proj2 (numbers_album_dec albums t n Hn)) by (exists n; auto).
      rewrite Ha, Hrun, <- app_assoc. reflexivity.
    + constructor; [|exact Hch]. unfold index_of. rewrite Hn. exact Ha.
Qed.

(** Whatever is typed, the loop returns albums of [albums] only, raises
    nothing but [ValueError], and prints at most the one line of a
    number out of range. *)
Lemma pick_cases invalid albums selections : forall acc st,
  (exists chosen,
     pick_albums invalid albums selections acc st = (Ok (Some (acc ++ chosen)%list), st)
     /\ Forall (numbers_album albums) selections
     /\ forall a, a ∈ chosen -> a ∈ albums)
  \/ (exists t,
        pick_albums invalid albums selections acc st
        = (Ok None, with_stdout st (stdout st ++ [invalid t])%list)
        /\ t ∈ selections /\ ~ numbers_album albums t)
  \/ (pick_albums invalid albums selections acc st = (Raise Py.ValueError, st)
      /\ exists t, t ∈ selections /\ PyStr.int t = None).
Proof.
  induction selections as [|t rest IH]; intros acc st.
  - left. exists []. rewrite app_nil_r. split; [reflexivity|].
    split; [constructor|]. intros a Ha. inversion Ha.
  - rewrite pick_step.
    destruct (PyStr.int t) as [n|] eqn:Hn.
    + destruct ((0 <=? n - 1) && (n - 1 <? Py.len albums)) eqn:Hr.
      * apply (numbers_album_dec albums t n Hn) in Hr.
        destruct Hr as (m & Hm & Hr). assert (m = n) as -> by congruence.
        destruct (lookup_numbered albums n Hr) as [a Ha].
        rewrite Ha.
        destruct (IH (acc ++ [a])%list st)
          as [(chosen & -> & Hall & Hsub)|[(u & -> & Hu & Hbad)|(-> & u & Hu & Hnone)]].
        -- left. exists (a :: chosen). rewrite <- app_assoc.
           split; [reflexivity|]. split; [constructor; [exists n; auto|exact Hall]|].
           intros b [->|Hb]%elem_of_cons; [|apply Hsub, Hb].
           eapply list_elem_of_lookup_2, Ha.
        -- right. left. exists u. split; [reflexivity|]. split; [right; exact Hu|exact Hbad].
        -- right. right. split; [reflexivity|]. exists u. split; [right; exact Hu|exact Hnone].
      * right. left. exists t.
        split; [reflexivity|]. split; [left|].
        intros H. apply (numbers_album_dec albums t n Hn) in H. congruence.
    + right. right. split; [reflexivity|]. exists t. split; [left|exact Hn].
Qed.

(** One turn of the loop of [display_albums] never raises and leaves
    the selection alone; the albums it returns are among those shown. *)
Lemma select_albums_sound albums line st :
  exists r st',
    Interactive.select_albums albums line st = (Ok r, st')
    /\ same_lists st st'
    /\ forall chosen, r = Some (Albums chosen) -> forall a, a ∈ chosen -> a ∈ albums.
Proof.
  unfold Interactive.select_albums.
  destruct (bool_decide _).
  { eexists _, st. split; [reflexivity|]. split; [split; reflexivity|]. intros ? [=]. }
  destruct (String.eqb _ "back").
  { eexists _, st. split; [reflexivity|]. split; [split; reflexivity|]. intros ? [=]. }
  destruct (String.eqb _ "all").
  { eexists _, st. split; [reflexivity|]. split; [split; reflexivity|].
    intros ? [= <-] a Ha. exact Ha. }
  destruct (String.eqb _ "none").
  { eexists _, st. split; [reflexivity|]. split; [split; reflexivity|].
    intros ? [= <-] a Ha. inversion Ha. }
  unfold try_except, bind at 1.
  destruct (pick_cases (fun selection => ("Invalid album number: " ++ selection)%string)
              albums (PyStr.split (PyStr.lower (PyStr.strip line))) [] st)
    as [(chosen & -> & _ & Hsub)|[(u & -> & _)|(-> & _)]]; simpl.
  - eexists _, st. split; [reflexivity|]. split; [split; reflexivity|].
    intros ? [= <-]. exact Hsub.
  - eexists _, _. split; [reflexivity|]. split; [split; reflexivity|]. intros ? [=].
  - eexists _, _. split; [reflexivity|]. split; [split; reflexivity|]. intros ? [=].
Qed.

Lemma select_loop_sound albums inputs : forall st,
  same_lists st (snd (Interactive.select_loop albums inputs st))
  /\ match fst (Interactive.select_loop albums inputs st) with
     | Ok (p, rest) =>
         rest `suffix_of` inputs
         /\ match p with
            | Albums chosen => forall a, a ∈ chosen -> a ∈ albums
            | _ => True
            end
     | Raise e => e = Py.EOFError
     end.
Proof.
  induction inputs as [|line rest IH]; intros st.
  - simpl. split; [split; reflexivity|reflexivity].
  - simpl Interactive.select_loop. unfold bind.
    destruct (select_albums_sound albums line st) as (r & st' & -> & Hsame & Hsub).
    destruct r as [p|].
    + simpl. split; [exact Hsame|]. split; [apply suffix_cons_r; reflexivity|].
      destruct p as [| |chosen]; [exact I|exact I|]. apply Hsub. reflexivity.
    + destruct (IH st') as [H1 H2]. split.
      * destruct Hsame as [Ha Hb], H1 as [Hc Hd]. split; congruence.
      * destruct (fst (Interactive.select_loop albums rest st')) as [[p rest']|e];
          [|exact H2].
        destruct H2 as [Hsuf Hp]. split; [apply suffix_cons_r, Hsuf|exact Hp].
Qed.

Lemma album_lines_same bfs explicit quality albums : forall i,
  steps same_lists (Interactive.album_lines bfs explicit quality i albums).
Proof.
  induction albums as [|a albums IH]; intros i; simpl.
  - apply (steps_ret same_lists).
  - apply (steps_bind same_lists); [apply print_same|]. intros _. apply IH.
Qed.

Lemma album_lines_run bfs explicit quality albums : forall i st,
  exists st', Interactive.album_lines bfs explicit quality i albums st = (Ok tt, st')
              /\ same_lists st st'.
Proof.
  induction albums as [|a albums IH]; intros i st; simpl.
  - exists st. split; [reflexivity|split; reflexivity].
  - unfold bind. simpl.
    match goal with |- context [Interactive.album_lines _ _ _ _ _ ?s] =>
      destruct (IH (i + 1) s) as (st' & -> & Hsame) end.
    exists st'. split; [reflexivity|exact Hsame].
Qed.

(** With albums to show, the dialog prints its listing and enters the
    loop. *)
Lemma display_albums_run bfs explicit quality albums artist_name inputs st :
  albums <> [] ->
  exists st',
    Interactive.display_albums bfs explicit quality albums artist_name inputs st
    = Interactive.select_loop albums inputs st'
    /\ same_lists st st'.
Proof.
  intros Hne. unfold Interactive.display_albums.
  destruct albums as [|a0 albums0] eqn:E; [contradiction|]. rewrite <- E. clear E Hne.
  do 2 (erewrite bind_ok by reflexivity).
  match goal with |- context [bind (Interactive.album_lines _ _ _ _ _) _ ?s] =>
    destruct (album_lines_run bfs explicit quality albums 1 s) as (s3 & E3 & H3) end.
  erewrite bind_ok by exact E3.
  do 6 (erewrite bind_ok by reflexivity).
  eexists. split; [reflexivity|]. destruct H3 as [Ha Hb]. simpl. split; assumption.
Qed.

End PickFacts.

(** X5: whatever is typed, the album dialog [display_albums] of the menu
    selector leaves the selection alone, raises nothing but the
    end-of-input error of [input], and returns only albums of the list
    it showed; the lines it did not read are returned untouched.  With
    no album to show it prints one line and returns the empty list
    without reading anything. *)
Theorem display_albums_returns_shown_albums
    (beauty_format_seconds : Z -> string) (explicit : AlbumInfo.t -> bool)
    (quality : AlbumInfo.t -> string)
    (albums : list AlbumInfo.t) (artist_name : string) (inputs : list string)
    (st : Sel.state) :
  Sel.same_lists st
    (snd (Interactive.display_albums beauty_format_seconds explicit quality
            albums artist_name inputs st))
  /\ match fst (Interactive.display_albums beauty_format_seconds explicit quality
                  albums artist_name inputs st) with
     | Eff.Ok (p, rest) =>
         rest `suffix_of` inputs
         /\ match p with
            | Common.Albums chosen => forall a, a ∈ chosen -> a ∈ albums
            | _ => True
            end
     | Eff.Raise e => e = Py.EOFError /\ albums <> []
     end
  /\ (albums = [] ->
      Interactive.display_albums beauty_format_seconds explicit quality
        albums artist_name inputs st
      = (Eff.Ok (Common.Albums [], inputs),
         Sel.with_stdout st
           (Sel.stdout st ++ [("No albums found for " ++ artist_name ++ ".")%string])%list)).
Proof.
  destruct (decide (albums = [])) as [->|Hne].
  { simpl. split; [split; reflexivity|]. split; [|reflexivity].
    split; [reflexivity|]. intros a Ha. inversion Ha. }
  destruct (PickFacts.display_albums_run beauty_format_seconds explicit quality
              albums artist_name inputs st Hne) as (st' & -> & Hsame).
  destruct (PickFacts.select_loop_sound albums inputs st') as [Hs Hr].
  split; [destruct Hsame as [H1 H2], Hs as [H3 H4]; split; congruence|].
  split; [|intros E; contradiction].
  destruct (fst (Interactive.select_loop albums inputs st')) as [[p rest]|e];
    [exact Hr|split; [exact Hr|exact Hne]].
Qed.

(** X6: in the album dialog of the menu selector a line that is not one
    of its keywords is read as a list of numbers.  When every token is
    the number of an album shown, the dialog returns the albums at those
    numbers, in the order typed and as often as typed, and prints
    nothing; an empty line thus returns the empty list.  When some token
    is not, nothing is returned from that line, not even the albums of
    the tokens before it: one line is printed and the dialog asks
    again. *)
Theorem select_albums_by_number (albums : list AlbumInfo.t) (line : string)
    (st : Sel.state) :
  let choice := PyStr.lower (PyStr.strip line) in
  choice ∉ ["q"; "quit"; "exit"; "back"; "all"; "none"] ->
  (Forall (Common.numbers_album albums) (PyStr.split choice) ->
   exists chosen,
     Interactive.select_albums albums line st
     = (Eff.Ok (Some (Common.Albums chosen)), st)
     /\ Forall2 (fun t a => albums !! Z.to_nat (Common.index_of t) = Some a)
                (PyStr.split choice) chosen)
  /\ ((exists t, t ∈ PyStr.split choice /\ ~ Common.numbers_album albums t) ->
      exists message,
        Interactive.select_albums albums line st
        = (Eff.Ok None, Sel.with_stdout st (Sel.stdout st ++ [message])%list))
  /\ (choice = "" ->
      Interactive.select_albums albums line st = (Eff.Ok (Some (Common.Albums [])), st)).
Proof.
  intros choice Hkey.
  assert (Interactive.select_albums albums line st
          = Eff.try_except
              (Eff.bind
                 (Common.pick_albums
                    (fun selection => ("Invalid album number: " ++ selection)%string)
                    albums (PyStr.split choice) [])
                 (fun chosen => Eff.ret (Common.Albums <$> chosen)))
              Common.catches_value
              (fun _ =>
                 Eff.bind
                   (Sel.print "Please enter valid album numbers separated by spaces.")
                   (fun _ => Eff.ret None)) st) as ->.
  { unfold Interactive.select_albums. fold choice.
    rewrite bool_decide_eq_false_2.
    - destruct (String.eqb_spec choice "back") as [E|_];
        [exfalso; apply Hkey; rewrite E; do 3 right; left|].
      destruct (String.eqb_spec choice "all") as [E|_];
        [exfalso; apply Hkey; rewrite E; do 4 right; left|].
      destruct (String.eqb_spec choice "none") as [E|_];
        [exfalso; apply Hkey; rewrite E; do 5 right; left|].
      reflexivity.
    - intros Hq. apply Hkey.
      apply elem_of_cons in Hq as [->|Hq]; [left|].
      apply elem_of_cons in Hq as [->|Hq]; [right; left|].
      apply elem_of_cons in Hq as [->|Hq]; [do 2 right; left|inversion Hq]. }
  assert (Forall (Common.numbers_album albums) (PyStr.split choice) ->
          exists chosen,
            Eff.try_except
              (Eff.bind
                 (Common.pick_albums
                    (fun selection => ("Invalid album number: " ++ selection)%string)
                    albums (PyStr.split choice) [])
                 (fun chosen => Eff.ret (Common.Albums <$> chosen)))
              Common.catches_value
              (fun _ =>
                 Eff.bind
                   (Sel.print "Please enter valid album numbers separated by spaces.")
                   (fun _ => Eff.ret None)) st
            = (Eff.Ok (Some (Common.Albums chosen)), st)
            /\ Forall2 (fun t a => albums !! Z.to_nat (Common.index_of t) = Some a)
                       (PyStr.split choice) chosen) as Hgood.
  { intros Hall.
    destruct (PickFacts.pick_all
                (fun selection => ("Invalid album number: " ++ selection)%string)
                albums _ [] st Hall) as (chosen & Hrun & Hch).
    exists chosen. split; [|exact Hch].
    unfold Eff.try_except, Eff.bind. rewrite Hrun. reflexivity. }
  split; [exact Hgood|]. split.
  - intros (t & Ht & Hbad). unfold Eff.try_except, Eff.bind at 1.
    destruct (PickFacts.pick_cases
                (fun selection => ("Invalid album number: " ++ selection)%string)
                albums (PyStr.split choice) [] st)
      as [(chosen & _ & Hall & _)|[(u & -> & _)|(-> & _)]].
    + exfalso. apply Hbad. rewrite List.Forall_forall in Hall.
      apply Hall, list_elem_of_In, Ht.
    + eexists. reflexivity.
    + eexists. reflexivity.
  - intros E. destruct Hgood as (chosen & Hrun & Hch).
    + rewrite E. constructor.
    + rewrite E in Hch. inversion Hch; subst. exact Hrun.
Qed.

Lemma select_albums_by_number_witness :
  exists chosen,
    Interactive.select_albums Fixtures.discography " 2 1 2 " Sel.init
    = (Eff.Ok (Some (Common.Albums chosen)), Sel.init)
    /\ Forall2 (fun t a => Fixtures.discography !! Z.to_nat (Common.index_of t) = Some a)
               ["2"; "1"; "2"] chosen.
Proof.
  assert (PyStr.lower (PyStr.strip " 2 1 2 ")
            ∉ ["q"; "quit"; "exit"; "back"; "all"; "none"]) as Hkey.
  { vm_compute. intros H. repeat (apply elem_of_cons in H as [H|H]; [discriminate H|]).
    inversion H. }
  assert (Forall (Common.numbers_album Fixtures.discography)
            (PyStr.split (PyStr.lower (PyStr.strip " 2 1 2 ")))) as Hall.
  { vm_compute PyStr.split.
    repeat constructor; eexists; (split; [reflexivity|vm_compute; split; discriminate]). }
  exact (proj1 (select_albums_by_number Fixtures.discography " 2 1 2 " Sel.init Hkey) Hall).
Defined.

(** ** The login probe on any settings file *)

Module LoginAnyFacts.
Import Login.

(** Credentials are only loaded when all four are filled in and none is
    a placeholder. *)
Lemma load_inr settings_path file c :
  load_credentials_from_settings settings_path file = inr c ->
  (forall k, ~ empty c k) /\ has_placeholder c = false.
Proof.
  unfold load_credentials_from_settings.
  destruct file as [| |settings]; try discriminate.
  destruct (get_default settings "modules" (JObj [])) as [e|modules]; try discriminate.
  destruct (get_default modules "qobuz" JNull) as [e|qobuz_settings]; try discriminate.
  destruct (negb (truthy qobuz_settings)); try discriminate.
  destruct qobuz_settings as [| | | | |d]; try discriminate.
  cbv zeta.
  destruct (forallb truthy (map snd (items (read_credentials d)))) eqn:Eall;
    simpl; try discriminate.
  destruct (has_placeholder (read_credentials d)) eqn:Ep; try discriminate.
  intros [= <-]. split; [apply LoginFacts.all_filled, Eall|exact Ep].
Qed.

(** The calls of a run that got its credentials. *)
Lemma run_with_credentials settings_path file login c w :
  load_credentials_from_settings settings_path file = inr c ->
  calls (run_login_test settings_path file login w)
  = (calls w ++ [Construct (app_id c) (app_secret c);
                 LoginCall (email c) (password c)])%list.
Proof.
  intros E. unfold run_login_test. rewrite E.
  destruct (login _ _) as [token| | |]; [destruct (String.eqb token "")| | |];
    simpl; rewrite <- app_assoc; reflexivity.
Qed.

End LoginAnyFacts.

(** X7: on every settings file the login probe calls the client only
    after loading four credentials that are all filled in and of which
    none is a known placeholder; then it constructs the client and calls
    [login] once.  In every other case (no file, a file that is not
    JSON, no [qobuz] section, settings of another shape, an empty or a
    placeholder credential) it prints exactly one line and makes no call
    at all. *)
Theorem login_probe_calls_only_with_credentials (settings_path : string)
    (file : Login.settings_file)
    (login : Login.json -> Login.json -> Login.login_outcome) (w : Login.world) :
  match Login.load_credentials_from_settings settings_path file with
  | inl line =>
      Login.run_login_test settings_path file login w = Login.print line w
  | inr c =>
      (forall k, ~ Login.empty c k)
      /\ Login.has_placeholder c = false
      /\ Login.calls (Login.run_login_test settings_path file login w)
         = (Login.calls w ++ [Login.Construct (Login.app_id c) (Login.app_secret c);
                              Login.LoginCall (Login.email c) (Login.password c)])%list
  end
  /\ (length (Login.login_calls (Login.run_login_test settings_path file login w))
      <= S (length (Login.login_calls w)))%nat
  /\ (file = Login.FileNotFound ->
      Login.run_login_test settings_path file login w
      = Login.print ("Error: Settings file not found at " ++ settings_path) w)
  /\ (file = Login.NotJson ->
      Login.run_login_test settings_path file login w
      = Login.print ("Error: Could not parse JSON from " ++ settings_path) w)
  /\ (forall settings modules qobuz_settings,
        file = Login.Parsed settings ->
        Login.get_default settings "modules" (Login.JObj []) = inr modules ->
        Login.get_default modules "qobuz" Login.JNull = inr qobuz_settings ->
        Login.truthy qobuz_settings = false ->
        Login.run_login_test settings_path file login w
        = Login.print ("Error: 'qobuz' module settings not found in " ++ settings_path) w).
Proof.
  split; [|split; [|split; [|split]]].
  - destruct (Login.load_credentials_from_settings settings_path file) as [line|c] eqn:E.
    + unfold Login.run_login_test. rewrite E. reflexivity.
    + destruct (LoginAnyFacts.load_inr _ _ _ E) as [Hall Hp].
      split; [exact Hall|]. split; [exact Hp|].
      apply LoginAnyFacts.run_with_credentials, E.
  - destruct (Login.load_credentials_from_settings settings_path file) as [line|c] eqn:E.
    + unfold Login.run_login_test. rewrite E.
      unfold Login.login_calls, Login.print. simpl. lia.
    + unfold Login.login_calls.
      rewrite (LoginAnyFacts.run_with_credentials _ _ login c w E).
      rewrite List.filter_app, length_app. simpl. lia.
  - intros ->. reflexivity.
  - intros ->. reflexivity.
  - intros settings modules qobuz_settings -> Hm Hq Ht.
    unfold Login.run_login_test, Login.load_credentials_from_settings.
    rewrite Hm, Hq, Ht. reflexivity.
Qed.

(** ** Copying a file twice *)

Module CopyTwiceFacts.
Import Sync EffFacts.

Lemma existsb_agree {A} (f g : A -> bool) (l : list A) :
  (forall x, In x l -> f x = g x) -> existsb f l = existsb g l.
Proof.
  induction l as [|a l IH]; intros H; simpl; [reflexivity|].
  rewrite (H a) by (left; reflexivity). rewrite IH; [reflexivity|].
  intros x Hx. apply H. right. exact Hx.
Qed.

Section WithClock.

Variable fresh_dir : stat.

(** [makedirs] changes nothing where every directory is there. *)
Lemma mkdirs_idem l : forall m : gmap path node,
  (forall q, q ∈ l -> is_Some (m !! q)) ->
  foldr (mkdir_missing fresh_dir) m l = m.
Proof.
  induction l as [|a l IH]; intros m H; simpl; [reflexivity|].
  rewrite IH by (intros q Hq; apply H; right; exact Hq).
  unfold mkdir_missing. destruct (H a ltac:(left)) as [n ->]. reflexivity.
Qed.

(** After a successful [makedirs], doing it again changes nothing more. *)
Lemma makedirs_again (p : path) (m : gmap path node) :
  existsb (fun q => is_file (m !! q)) (ancestors p) = false ->
  let m1 := foldr (mkdir_missing fresh_dir) m (ancestors p) in
  existsb (fun q => is_file (m1 !! q)) (ancestors p) = false
  /\ foldr (mkdir_missing fresh_dir) m1 (ancestors p) = m1.
Proof.
  intros Hnofile m1.
  assert (forall q, q ∈ ancestors p ->
            m1 !! q = Some (default (Dir fresh_dir) (m !! q))) as Hthere
    by (intros q Hq; apply SyncFacts.mkdirs_there, Hq).
  split.
  - destruct (existsb (fun q => is_file (m1 !! q)) (ancestors p)) eqn:E; [|reflexivity].
    apply existsb_exists in E as (q & Hq & Hf). apply list_elem_of_In in Hq.
    rewrite (Hthere q Hq) in Hf.
    assert (is_file (m !! q) = false) as Hq'.
    { destruct (is_file (m !! q)) eqn:E'; [|reflexivity].
      rewrite <- Hnofile. symmetry. apply existsb_exists. exists q.
      split; [apply list_elem_of_In, Hq|exact E']. }
    destruct (m !! q) as [[?|?]|]; simpl in *; discriminate.
  - apply mkdirs_idem. intros q Hq. rewrite (Hthere q Hq). eauto.
Qed.

End WithClock.

(** A copy onto something that is not a directory, when it returns, has
    put the source file there. *)
Lemma copy2_ok_inv (src dst : path) (w w' : world) :
  is_dir (fs w !! dst) = false ->
  copy2 src dst w = (Ok tt, w') ->
  exists st,
    fs w !! src = Some (File st) /\ dst <> src
    /\ w' = {| fs := <[dst := File st]> (fs w);
               calls := (calls w ++ [Copy2 src dst])%list;
               stdout := stdout w |}.
Proof.
  intros Hd. unfold copy2. SyncFacts.run_sync.
  destruct (fs w !! src) as [[st|st]|]; simpl; try discriminate.
  rewrite Hd.
  repeat match goal with |- context [if ?b then _ else _] => destruct b eqn:? end;
    cbv beta iota; intros H; try discriminate H.
  simpl in H. injection H as <-. exists st. split; [reflexivity|]. split; [|reflexivity].
  match goal with
  | Hb : bool_decide (dst = src) = false |- _ => apply bool_decide_eq_false in Hb; exact Hb
  end.
Qed.

End CopyTwiceFacts.

(** X8: copying is idempotent.  When a normal run of
    [copy_file_with_structure] has returned for a source file whose
    destination is not a directory, a second run from the resulting
    state skips the file: it returns [False], calls [makedirs] only, and
    leaves the file system as it is. *)
Theorem copy_twice_skips (fresh_dir : Sync.stat)
    (src_file src_base dest_base : Sync.path) (w : Sync.world) (s : Sync.node)
    (was_copied : bool) (rel : Sync.path) :
  let dest_file := Sync.join dest_base (Sync.relpath src_file src_base) in
  let first :=
    Sync.copy_file_with_structure fresh_dir src_file src_base dest_base false w in
  Sync.fs w !! src_file = Some s ->
  Sync.is_dir (Sync.fs w !! dest_file) = false ->
  fst first = Eff.Ok (was_copied, rel) ->
  Sync.copy_file_with_structure fresh_dir src_file src_base dest_base false (snd first)
  = (Eff.Ok (false, rel),
     {| Sync.fs := Sync.fs (snd first);
        Sync.calls :=
          (Sync.calls (snd first) ++ [Sync.Makedirs (Sync.dirname dest_file)])%list;
        Sync.stdout := Sync.stdout (snd first) |}).
Proof.
  intros dest_file first Hs Hnd Hfst.
  assert (Sync.copy_file_with_structure fresh_dir src_file src_base dest_base false w
          = (Eff.Ok (was_copied, rel), snd first)) as Hrun
    by (subst first; destruct (Sync.copy_file_with_structure _ _ _ _ _ _);
        simpl in *; congruence).
  clear Hfst. generalize dependent (snd first). clear first. intros w1 Hrun.
  unfold Sync.copy_file_with_structure in *. simpl negb in *.
  fold dest_file in Hrun |- *.
  unfold Eff.bind at 1 in Hrun. rewrite SyncFacts.makedirs_run in Hrun.
  destruct (existsb _ _) eqn:Hnofile; [discriminate Hrun|].
  destruct (CopyTwiceFacts.makedirs_again fresh_dir (Sync.dirname dest_file)
              (Sync.fs w) Hnofile) as [Hnofile1 Hidem].
  set (m1 := foldr (Sync.mkdir_missing fresh_dir) (Sync.fs w)
               (Sync.ancestors (Sync.dirname dest_file))) in *.
  set (wm := {| Sync.fs := m1 |}) in Hrun.
  assert (m1 !! src_file = Some s) as Hs1 by (apply SyncFacts.mkdirs_keeps, Hs).
  assert (m1 !! dest_file = Sync.fs w !! dest_file) as Hd1
    by (apply SyncFacts.mkdirs_elsewhere, SyncFacts.not_own_ancestor).
  unfold Eff.bind at 1 in Hrun.
  rewrite (SyncFacts.should_copy_run src_file dest_file wm s Hs1) in Hrun.
  change (Sync.fs wm) with m1 in Hrun.
  assert (Sync.fs w1 !! src_file = Some s
          /\ Sync.stale (Sync.fs w1) src_file dest_file = false
          /\ existsb (fun q => Sync.is_file (Sync.fs w1 !! q))
               (Sync.ancestors (Sync.dirname dest_file)) = false
          /\ foldr (Sync.mkdir_missing fresh_dir) (Sync.fs w1)
               (Sync.ancestors (Sync.dirname dest_file)) = Sync.fs w1
          /\ rel = Sync.relpath src_file src_base) as (Hs2 & Hstale & Hnf2 & Hid2 & ->).
  { destruct (Sync.stale m1 src_file dest_file) eqn:Est.
    - (* the file was copied *)
      unfold Eff.bind at 1 in Hrun.
      destruct (Sync.copy2 src_file dest_file wm) as [[[]|e] w2] eqn:Ecopy;
        [|discriminate Hrun].
      simpl in Hrun. injection Hrun as <- <- <-.
      apply CopyTwiceFacts.copy2_ok_inv in Ecopy as (st & Hsrc & Hne & ->);
        [|simpl; rewrite Hd1; exact Hnd].
      simpl in Hsrc. rewrite Hs1 in Hsrc. injection Hsrc as ->. simpl.
      assert (forall q, q ∈ Sync.ancestors (Sync.dirname dest_file) ->
                (<[dest_file := Sync.File st]> m1 : gmap Sync.path Sync.node) !! q
                = m1 !! q) as Hanc.
      { intros q Hq. apply lookup_insert_ne. intros ->.
        exact (SyncFacts.not_own_ancestor _ Hq). }
      split; [rewrite lookup_insert_ne by exact Hne; exact Hs1|]. split.
      { unfold Sync.stale. rewrite lookup_insert_eq.
        rewrite lookup_insert_ne by exact Hne. rewrite Hs1. simpl.
        rewrite Z.eqb_refl, andb_true_r.
        assert (Qle_bool (Sync.st_mtime st) (Sync.st_mtime st) = true) as ->
          by (apply Qle_bool_iff, Qle_refl). reflexivity. }
      split.
      { rewrite <- Hnofile1. apply CopyTwiceFacts.existsb_agree. intros q Hq.
        rewrite Hanc by (apply list_elem_of_In, Hq). reflexivity. }
      split; [|reflexivity].
      apply CopyTwiceFacts.mkdirs_idem. intros q Hq. rewrite (Hanc q Hq).
      unfold m1. rewrite SyncFacts.mkdirs_there by exact Hq. eauto.
    - (* it was skipped *)
      simpl in Hrun. injection Hrun as <- <- <-. simpl.
      split; [exact Hs1|]. split; [exact Est|]. split; [exact Hnofile1|].
      split; [exact Hidem|reflexivity]. }
  unfold Eff.bind at 1. rewrite SyncFacts.makedirs_run, Hnf2, Hid2.
  unfold Eff.bind at 1.
  match goal with |- context [Sync.should_copy _ _ ?x] =>
    rewrite (SyncFacts.should_copy_run src_file dest_file x s Hs2) end.
  cbn [Sync.fs]. rewrite Hstale. reflexivity.
Qed.

Lemma copy_twice_skips_witness :
  fst (Sync.copy_file_with_structure (SyncFixtures.at_time 200 0) SyncFixtures.song
         Sync.source_dir Sync.dest_dir false
         (snd (Sync.copy_file_with_structure (SyncFixtures.at_time 200 0)
                 SyncFixtures.song Sync.source_dir Sync.dest_dir false
                 SyncFixtures.library)))
  = Eff.Ok (false, ["album"; "song.flac"]).
Proof.
  assert (Sync.fs SyncFixtures.library !! SyncFixtures.song
          = Some (Sync.File (SyncFixtures.at_time 100 5000))) as Hs
    by (vm_compute; reflexivity).
  assert (Sync.is_dir (Sync.fs SyncFixtures.library
                       !! Sync.join Sync.dest_dir
                            (Sync.relpath SyncFixtures.song Sync.source_dir)) = false)
    as Hnd by (vm_compute; reflexivity).
  assert (fst (Sync.copy_file_with_structure (SyncFixtures.at_time 200 0)
                 SyncFixtures.song Sync.source_dir Sync.dest_dir false
                 SyncFixtures.library)
          = Eff.Ok (true, ["album"; "song.flac"])) as Hfst
    by (vm_compute; reflexivity).
  rewrite (copy_twice_skips (SyncFixtures.at_time 200 0) SyncFixtures.song
             Sync.source_dir Sync.dest_dir SyncFixtures.library _ true _ Hs Hnd Hfst).
  reflexivity.
Defined.

(** ** Counting the files of a sync *)

Module CountFacts.
Import Sync EffFacts.

Lemma print_plain_ok RICH line w :
  exists w', print_plain RICH line w = (Ok tt, w').
Proof. unfold print_plain. destruct RICH; eexists; reflexivity. Qed.

Lemma sync_files_counts fresh_dir RICH dry_run files :
  forall total i copied0 skipped0 w copied skipped w',
    sync_files fresh_dir RICH files total i dry_run copied0 skipped0 w
    = (Ok (copied, skipped), w') ->
    copied0 <= copied /\ skipped0 <= skipped
    /\ copied + skipped = copied0 + skipped0 + Py.len files.
Proof.
  induction files as [|f files IH]; intros total i c0 s0 w c s w' Hrun.
  - simpl in Hrun. injection Hrun as <- <- <-. unfold Py.len. simpl. lia.
  - simpl sync_files in Hrun. unfold bind at 1 in Hrun.
    destruct (copy_file_with_structure fresh_dir f source_dir dest_dir dry_run w)
      as [[[was_copied rel]|e] w1]; [|discriminate Hrun].
    assert (Py.len (f :: files) = Py.len files + 1) as -> by (unfold Py.len; simpl; lia).
    destruct was_copied; unfold bind at 1 in Hrun;
      match type of Hrun with context [print_plain RICH ?l w1] =>
        destruct (print_plain_ok RICH l w1) as [w2 E]; rewrite E in Hrun end;
      apply IH in Hrun; lia.
Qed.

End CountFacts.

(** X9: the loop of [sync_music] over the source files counts every file
    once: when it returns, the files counted as copied and those counted
    as skipped are together as many as the source files; and in a dry
    run over files that exist it does return. *)
Theorem sync_counts_every_file (fresh_dir : Sync.stat) (RICH_AVAILABLE dry_run : bool)
    (files : list Sync.path) (total i : Z) (w : Sync.world) :
  (forall copied skipped w',
     Sync.sync_files fresh_dir RICH_AVAILABLE files total i dry_run 0 0 w
     = (Eff.Ok (copied, skipped), w') ->
     0 <= copied /\ 0 <= skipped /\ copied + skipped = Py.len files)
  /\ (dry_run = true ->
      (forall f, In f files -> is_Some (Sync.fs w !! f)) ->
      exists copied skipped w',
        Sync.sync_files fresh_dir RICH_AVAILABLE files total i dry_run 0 0 w
        = (Eff.Ok (copied, skipped), w')
        /\ copied + skipped = Py.len files
        /\ Sync.untouched w w').
Proof.
  split.
  - intros copied skipped w' Hrun.
    apply CountFacts.sync_files_counts in Hrun. lia.
  - intros -> Hfiles.
    destruct (DryRunFacts.sync_files_returns fresh_dir RICH_AVAILABLE w files total i
                0 0 Hfiles w) as ([copied skipped] & w' & Hrun & Hw);
      [split; reflexivity|].
    exists copied, skipped, w'. split; [exact Hrun|]. split; [|exact Hw].
    apply CountFacts.sync_files_counts in Hrun. lia.
Qed.

(** ** Deleting the extra files *)

Module DeleteFacts.
Import Sync EffFacts.

Lemma files_under_spec (d : path) (m : gmap path node) (p : path) :
  p ∈ files_under d m
  <-> is_dir (m !! d) = true /\ under d p = true /\ is_file (m !! p) = true.
Proof.
  unfold files_under. destruct (is_dir (m !! d)).
  - rewrite list_elem_of_In, filter_In, andb_true_iff. split.
    + intros [_ H]. split; [reflexivity|exact H].
    + intros (_ & H1 & H2). split; [|auto].
      destruct (m !! p) as [n|] eqn:E; [|discriminate H2].
      apply list_elem_of_In, list_elem_of_fmap. exists (p, n).
      split; [reflexivity|]. apply elem_of_map_to_list, E.
  - split; [intros H; inversion H|intros [H _]; discriminate H].
Qed.

Lemma files_under_nodup (d : path) (m : gmap path node) : NoDup (files_under d m).
Proof.
  unfold files_under. destruct (is_dir (m !! d)); [|constructor].
  apply NoDup_ListNoDup, List.NoDup_filter, NoDup_ListNoDup.
  apply NoDup_fst_map_to_list.
Qed.

(** Nothing below the source is below the destination. *)
Lemma source_not_under_dest (rel : path) : under dest_dir (join source_dir rel) = false.
Proof. reflexivity. Qed.

Lemma extra_after_delete (m : gmap path node) (p q : path) :
  under dest_dir p = true -> extra (delete p m) q = extra m q.
Proof.
  intros Hp. unfold extra. rewrite lookup_delete_ne; [reflexivity|].
  intros ->. rewrite source_not_under_dest in Hp. discriminate.
Qed.

Lemma lookup_deleted (l : list path) : forall (m : gmap path node) (q : path),
  fold_left (fun m p => delete p m) l m !! q
  = if bool_decide (q ∈ l) then None else m !! q.
Proof.
  induction l as [|p l IH]; intros m q; simpl; [reflexivity|].
  rewrite IH.
  destruct (bool_decide_reflect (q ∈ l)) as [Hin|Hnin].
  - rewrite bool_decide_eq_true_2 by (right; exact Hin). reflexivity.
  - destruct (decide (q = p)) as [->|Hne].
    + rewrite bool_decide_eq_true_2 by left. apply lookup_delete_eq.
    + rewrite bool_decide_eq_false_2
        by (intros [?|?]%elem_of_cons; contradiction).
      apply lookup_delete_ne. congruence.
Qed.

Lemma remove_run (p : path) (w : world) :
  is_file (fs w !! p) = true ->
  remove p w
  = (Ok tt, {| fs := delete p (fs w); calls := (calls w ++ [Remove p])%list;
               stdout := stdout w |}).
Proof. intros H. unfold remove. SyncFacts.run_sync. rewrite H. reflexivity. Qed.

(** One turn of the deletion loop of a normal run, on a regular file. *)
Lemma delete_step RICH (p : path) rest deleted (w : world) :
  is_file (fs w !! p) = true ->
  delete_extras RICH (p :: rest) false deleted w
  = if extra (fs w) p then
      delete_extras RICH rest false (deleted + 1)
        {| fs := delete p (fs w);
           calls := (calls w ++ [Remove p])%list;
           stdout :=
             (stdout w ++ [((if RICH then "[blue][INFO][/blue] " else "[INFO] ")
                            ++ "Deleted: " ++ show_path (relpath p dest_dir))%string])%list |}
    else delete_extras RICH rest false deleted w.
Proof.
  intros Hfile. simpl delete_extras. unfold extra.
  unfold bind at 1, exists_, bind at 1, get, ret.
  destruct (bool_decide _); cbn [negb]; cbv iota; [reflexivity|].
  unfold bind at 1. rewrite (remove_run p w Hfile).
  unfold bind at 1, print_info, print. reflexivity.
Qed.

(** The loop of the deletion in a normal run. *)
Lemma delete_extras_run RICH files : forall deleted w,
  NoDup files ->
  (forall p, p ∈ files -> under dest_dir p = true /\ is_file (fs w !! p) = true) ->
  delete_extras RICH files false deleted w
  = (Ok (deleted + Py.len (List.filter (extra (fs w)) files)),
     {| fs := fold_left (fun m p => delete p m) (List.filter (extra (fs w)) files) (fs w);
        calls := (calls w ++ map Remove (List.filter (extra (fs w)) files))%list;
        stdout :=
          (stdout w
           ++ map (fun p => ((if RICH then "[blue][INFO][/blue] " else "[INFO] ")
                             ++ "Deleted: " ++ show_path (relpath p dest_dir))%string)
                  (List.filter (extra (fs w)) files))%list |}).
Proof.
  induction files as [|p rest IH]; intros deleted w Hnd Hfiles.
  - simpl. unfold ret, Py.len. simpl. rewrite Z.add_0_r, !app_nil_r.
    destruct w; reflexivity.
  - inversion Hnd as [|? ? Hp Hrest]; subst.
    destruct (Hfiles p ltac:(left)) as [Hunder Hfile].
    rewrite (delete_step RICH p rest deleted w Hfile).
    simpl List.filter.
    destruct (extra (fs w) p) eqn:Ex.
    + rewrite IH; [|exact Hrest|].
      * simpl.
        assert (List.filter (extra (delete p (fs w))) rest
                = List.filter (extra (fs w)) rest) as ->.
        { apply List.filter_ext. intros q. apply extra_after_delete, Hunder. }
        f_equal; [f_equal; unfold Py.len; simpl; lia|].
        rewrite <- !app_assoc. reflexivity.
      * simpl. intros q Hq. destruct (Hfiles q ltac:(right; exact Hq)) as [H1 H2].
        split; [exact H1|]. rewrite lookup_delete_ne; [exact H2|].
        intros ->. contradiction.
    + apply IH; [exact Hrest|]. intros q Hq. apply Hfiles. right. exact Hq.
Qed.

End DeleteFacts.

(** X10: the deletion loop of a normal run removes exactly the extra
    files.  Run on the files found below the destination directory, it
    returns; [os.remove] is called once for each regular file below the
    destination whose counterpart below the source does not exist, and
    for no other path; afterwards those files are gone and every other
    path is as it was; the number returned is their number. *)
Theorem delete_removes_exactly_the_extras (RICH_AVAILABLE : bool) (w : Sync.world) :
  Sync.is_dir (Sync.fs w !! Sync.dest_dir) = true ->
  exists extras w',
    Sync.delete_extras RICH_AVAILABLE (Sync.files_under Sync.dest_dir (Sync.fs w))
      false 0 w
    = (Eff.Ok (Py.len extras), w')
    /\ Sync.calls w' = (Sync.calls w ++ map Sync.Remove extras)%list
    /\ NoDup extras
    /\ (forall p,
          p ∈ extras
          <-> Sync.under Sync.dest_dir p = true
              /\ Sync.is_file (Sync.fs w !! p) = true
              /\ Sync.fs w !! Sync.join Sync.source_dir (Sync.relpath p Sync.dest_dir)
                 = None)
    /\ (forall q, Sync.fs w' !! q
                  = if bool_decide (q ∈ extras) then None else Sync.fs w !! q).
Proof.
  intros Hdir.
  set (files := Sync.files_under Sync.dest_dir (Sync.fs w)).
  exists (List.filter (Sync.extra (Sync.fs w)) files). eexists.
  split.
  { rewrite (DeleteFacts.delete_extras_run RICH_AVAILABLE files 0 w).
    - rewrite Z.add_0_l. reflexivity.
    - apply DeleteFacts.files_under_nodup.
    - intros p Hp. apply DeleteFacts.files_under_spec in Hp as (_ & H1 & H2). auto. }
  simpl. split; [reflexivity|]. split.
  { apply NoDup_ListNoDup, List.NoDup_filter, NoDup_ListNoDup,
      DeleteFacts.files_under_nodup. }
  split.
  - intros p. rewrite list_elem_of_In, filter_In, <- list_elem_of_In.
    unfold files. rewrite DeleteFacts.files_under_spec. unfold Sync.extra.
    rewrite negb_true_iff, bool_decide_eq_false, <- eq_None_not_Some. tauto.
  - intros q. apply DeleteFacts.lookup_deleted.
Qed.

Lemma delete_removes_exactly_the_extras_witness :
  exists extras w',
    Sync.delete_extras false (Sync.files_under Sync.dest_dir (Sync.fs SyncFixtures.library))
      false 0 SyncFixtures.library
    = (Eff.Ok (Py.len extras), w')
    /\ Sync.calls w' = (Sync.calls SyncFixtures.library ++ map Sync.Remove extras)%list
    /\ (SyncFixtures.extra ∈ extras).
Proof.
  assert (Sync.is_dir (Sync.fs SyncFixtures.library !! Sync.dest_dir) = true) as Hd
    by (vm_compute; reflexivity).
  destruct (delete_removes_exactly_the_extras false SyncFixtures.library Hd)
    as (extras & w' & Hrun & Hcalls & _ & Hspec & _).
  exists extras, w'. split; [exact Hrun|]. split; [exact Hcalls|].
  apply Hspec. repeat split; vm_compute; reflexivity.
Defined.

(** ** Runs of the sync that stop early *)

Module EarlyExitFacts.
Import Sync EffFacts.

Lemma exists_run (p : path) (w : world) :
  exists_ p w = (Ok (bool_decide (is_Some (fs w !! p))), w).
Proof. reflexivity. Qed.

Section WithClock.

Variable fresh_dir : stat.
Variable RICH_AVAILABLE : bool.
Variable delete_extra : bool.

Lemma exists_value_returns (w0 : world) (p : path) :
  returns (untouched w0) (exists_ p)
          (fun b w => untouched w0 w /\ b = bool_decide (is_Some (fs w0 !! p))).
Proof.
  intros w H. eexists _, _. split; [reflexivity|]. split; [exact H|].
  destruct H as [-> _]. reflexivity.
Qed.

(** A run that is not a dry run and is not confirmed, from a state
    where both directories exist: nothing is touched, and [True] is
    returned only when the source has no file. *)
Lemma cancel_returns (w0 : world) :
  is_Some (fs w0 !! source_dir) -> is_Some (fs w0 !! dest_dir) ->
  returns (untouched w0)
          (sync_music fresh_dir RICH_AVAILABLE false false delete_extra)
          (fun b w => untouched w0 w
                      /\ (b = true -> files_under source_dir (fs w0) = [])).
Proof.
  intros Hsrc Hdest. unfold sync_music.
  eapply returns_bind; [apply exists_value_returns|]. intros b. cbv beta.
  apply returns_split. intros ->. rewrite bool_decide_eq_true_2 by exact Hsrc.
  cbn [negb]. cbv iota.
  eapply returns_bind; [apply exists_value_returns|]. intros b. cbv beta.
  apply returns_split. intros ->. rewrite bool_decide_eq_true_2 by exact Hdest.
  cbn [negb]. cbv iota.
  eapply returns_bind; [apply returns_ret|intros []].
  do 4 (eapply returns_bind; [apply DryRunFacts.print_plain_returns|intros []]).
  eapply returns_bind; [apply returns_ret|intros []].
  eapply returns_bind; [apply DryRunFacts.print_plain_returns|intros []].
  eapply returns_bind; [apply DryRunFacts.print_returns|intros []].
  eapply returns_bind; [apply DryRunFacts.get_all_files_returns|]. intros files.
  cbv beta. apply returns_split. intros E.
  destruct files as [|f files].
  { eapply returns_bind; [apply DryRunFacts.print_returns|intros []].
    intros w H. eexists _, _. split; [reflexivity|]. split; [exact H|].
    intros _. symmetry. exact E. }
  eapply returns_bind; [apply DryRunFacts.get_directory_size_returns|]. intros size.
  do 2 (eapply returns_bind; [apply DryRunFacts.print_plain_returns|intros []]).
  cbn [negb andb]. cbv iota.
  eapply returns_bind; [apply DryRunFacts.print_returns|intros []].
  intros w H. eexists _, _. split; [reflexivity|]. split; [exact H|discriminate].
Qed.

(** Creating the destination first and then running is running from
    the state in which it has been created. *)
Lemma run_after_makedirs proceed dry_run (w wm : world) :
  is_Some (fs w !! source_dir) -> fs w !! dest_dir = None ->
  (print_warning RICH_AVAILABLE
     ("Creating destination directory: " ++ show_abs dest_dir)%string >>
   (if negb dry_run then makedirs fresh_dir dest_dir else ret tt))%eff w
  = (Ok tt, wm) ->
  is_Some (fs wm !! source_dir) -> is_Some (fs wm !! dest_dir) ->
  sync_music fresh_dir RICH_AVAILABLE proceed dry_run delete_extra w
  = sync_music fresh_dir RICH_AVAILABLE proceed dry_run delete_extra wm.
Proof.
  intros Hsrc Hdest Hmk Hsrc' Hdest'. unfold sync_music.
  rewrite (bind_ok _ _ w _ _ (exists_run source_dir w)).
  rewrite (bind_ok _ _ wm _ _ (exists_run source_dir wm)).
  rewrite !bool_decide_eq_true_2 by assumption. cbn [negb]. cbv iota.
  rewrite (bind_ok _ _ w _ _ (exists_run dest_dir w)).
  rewrite (bind_ok _ _ wm _ _ (exists_run dest_dir wm)).
  rewrite Hdest. rewrite bool_decide_eq_false_2 by (intros [? ?]; discriminate).
  rewrite bool_decide_eq_true_2 by exact Hdest'. cbn [negb]. cbv iota.
  rewrite (bind_ok _ _ w _ _ Hmk).
  rewrite (bind_ok _ _ wm tt wm eq_refl). reflexivity.
Qed.

End WithClock.

End EarlyExitFacts.

(** X11: [sync_music] stops before it copies anything when there is no
    source directory, whatever its flags: it reports the error, returns
    [False] and touches nothing, the destination directory not being
    created either.  And a run that is not a dry run and is not
    confirmed copies and deletes nothing: its only possible call is the
    [makedirs] of a missing destination directory, which happens before
    the question is asked, and it returns [True] only when the walk of
    the source finds no file: the source is not a directory, or no
    regular file lies below it. *)
Theorem sync_stops_before_copying (fresh_dir : Sync.stat)
    (RICH_AVAILABLE proceed dry_run delete_extra : bool) (w : Sync.world) :
  (Sync.fs w !! Sync.source_dir = None ->
   Sync.sync_music fresh_dir RICH_AVAILABLE proceed dry_run delete_extra w
   = (Eff.Ok false,
      {| Sync.fs := Sync.fs w;
         Sync.calls := Sync.calls w;
         Sync.stdout :=
           (Sync.stdout w
            ++ [((if RICH_AVAILABLE then "[red][ERROR][/red] " else "[ERROR] ")
                 ++ "Source directory does not exist: /Users/chrismannina/Music/downloads")%string])%list |}))
  /\ (is_Some (Sync.fs w !! Sync.source_dir) ->
      (fst (Sync.sync_music fresh_dir RICH_AVAILABLE false false delete_extra w)
       = Eff.Ok true ->
       Sync.is_dir (Sync.fs w !! Sync.source_dir) = false
       \/ forall p, Sync.under Sync.source_dir p = true ->
                    Sync.is_file (Sync.fs w !! p) = false)
      /\ Sync.calls
           (snd (Sync.sync_music fresh_dir RICH_AVAILABLE false false delete_extra w))
         = (Sync.calls w
            ++ if bool_decide (is_Some (Sync.fs w !! Sync.dest_dir)) then []
               else [Sync.Makedirs Sync.dest_dir])%list).
Proof.
  split.
  - intros Hsrc. unfold Sync.sync_music.
    rewrite (EffFacts.bind_ok _ _ w _ _ (EarlyExitFacts.exists_run Sync.source_dir w)).
    rewrite Hsrc. rewrite bool_decide_eq_false_2 by (intros [? ?]; discriminate).
    reflexivity.
  - intros Hsrc.
    assert (forall w0 : Sync.world,
              is_Some (Sync.fs w0 !! Sync.source_dir) ->
              is_Some (Sync.fs w0 !! Sync.dest_dir) ->
              (fst (Sync.sync_music fresh_dir RICH_AVAILABLE false false delete_extra w0)
               = Eff.Ok true ->
               Sync.is_dir (Sync.fs w0 !! Sync.source_dir) = false
               \/ forall p, Sync.under Sync.source_dir p = true ->
                            Sync.is_file (Sync.fs w0 !! p) = false)
              /\ Sync.calls
                   (snd (Sync.sync_music fresh_dir RICH_AVAILABLE false false
                           delete_extra w0))
                 = Sync.calls w0) as Hboth.
    { intros w0 Hs Hd.
      destruct (EarlyExitFacts.cancel_returns fresh_dir RICH_AVAILABLE delete_extra
                  w0 Hs Hd w0) as (b & w' & Hrun & [_ Hcalls] & Hfiles);
        [split; reflexivity|].
      rewrite Hrun. simpl. split; [|exact Hcalls].
      intros [= ->].
      destruct (Sync.is_dir (Sync.fs w0 !! Sync.source_dir)) eqn:Hdir;
        [right|left; reflexivity].
      intros p Hunder.
      destruct (Sync.is_file (Sync.fs w0 !! p)) eqn:E; [|reflexivity].
      assert (p ∈ Sync.files_under Sync.source_dir (Sync.fs w0)) as Hin
        by (apply DeleteFacts.files_under_spec; auto).
      rewrite (Hfiles eq_refl) in Hin. inversion Hin. }
    destruct (Sync.fs w !! Sync.dest_dir) as [n|] eqn:Hdest.
    { rewrite bool_decide_eq_true_2 by eauto. rewrite app_nil_r.
      apply Hboth; [exact Hsrc|rewrite Hdest; eauto]. }
    rewrite bool_decide_eq_false_2 by (intros [? ?]; discriminate).
    set (wp := {| Sync.fs := Sync.fs w; Sync.calls := Sync.calls w;
                  Sync.stdout :=
                    (Sync.stdout w
                     ++ [((if RICH_AVAILABLE then "[yellow][WARNING][/yellow] "
                           else "[WARNING] ")
                          ++ "Creating destination directory: "
                          ++ Sync.show_abs Sync.dest_dir)%string])%list |}).
    assert (Sync.print_warning RICH_AVAILABLE
              ("Creating destination directory: " ++ Sync.show_abs Sync.dest_dir)%string w
            = (Eff.Ok tt, wp)) as Hwarn by reflexivity.
    pose proof (SyncFacts.makedirs_run fresh_dir Sync.dest_dir wp) as Hmk.
    destruct (existsb (fun q => Sync.is_file (Sync.fs wp !! q))
                (Sync.ancestors Sync.dest_dir)) eqn:Hfile.
    + (* the destination cannot be created *)
      assert (Sync.sync_music fresh_dir RICH_AVAILABLE false false delete_extra w
              = (Eff.Raise Py.OSError,
                 {| Sync.fs := Sync.fs wp;
                    Sync.calls := (Sync.calls wp ++ [Sync.Makedirs Sync.dest_dir])%list;
                    Sync.stdout := Sync.stdout wp |})) as ->.
      { unfold Sync.sync_music.
        rewrite (EffFacts.bind_ok _ _ w _ _ (EarlyExitFacts.exists_run Sync.source_dir w)).
        rewrite bool_decide_eq_true_2 by exact Hsrc. cbn [negb]. cbv iota.
        rewrite (EffFacts.bind_ok _ _ w _ _ (EarlyExitFacts.exists_run Sync.dest_dir w)).
        rewrite Hdest. rewrite bool_decide_eq_false_2 by (intros [? ?]; discriminate).
        cbn [negb]. cbv iota.
        apply EffFacts.bind_raise. rewrite (EffFacts.bind_ok _ _ w _ _ Hwarn). exact Hmk. }
      simpl. split; [discriminate|reflexivity].
    + set (wm := {| Sync.fs := foldr (Sync.mkdir_missing fresh_dir) (Sync.fs wp)
                                 (Sync.ancestors Sync.dest_dir);
                    Sync.calls := (Sync.calls wp ++ [Sync.Makedirs Sync.dest_dir])%list;
                    Sync.stdout := Sync.stdout wp |}) in *.
      assert (is_Some (Sync.fs wm !! Sync.source_dir)) as Hsrc'.
      { destruct Hsrc as [n Hn]. exists n. apply SyncFacts.mkdirs_keeps. exact Hn. }
      assert (is_Some (Sync.fs wm !! Sync.dest_dir)) as Hdest'.
      { unfold wm. cbn [Sync.fs]. rewrite SyncFacts.mkdirs_there; [eauto|].
        apply SyncFacts.self_ancestor. discriminate. }
      rewrite (EarlyExitFacts.run_after_makedirs fresh_dir RICH_AVAILABLE delete_extra
                 false false w wm Hsrc Hdest); [|idtac|exact Hsrc'|exact Hdest'].
      * destruct (Hboth wm Hsrc' Hdest') as [H1 H2]. split; [|exact H2].
        intros Htrue. destruct (H1 Htrue) as [Hnd|Hnone].
        { left. destruct Hsrc as [n Hn]. unfold wm in Hnd. cbn [Sync.fs] in Hnd.
          rewrite (SyncFacts.mkdirs_keeps fresh_dir _ _ _ n Hn) in Hnd.
          rewrite Hn. exact Hnd. }
        right. intros p Hunder. specialize (Hnone p Hunder).
        destruct (Sync.fs w !! p) as [n|] eqn:Ep; [|reflexivity].
        unfold wm in Hnone. cbn [Sync.fs] in Hnone.
        rewrite (SyncFacts.mkdirs_keeps fresh_dir _ _ p n Ep) in Hnone.
        exact Hnone.
      * cbn [negb]. rewrite (EffFacts.bind_ok _ _ w _ _ Hwarn). exact Hmk.
Qed.

Lemma sync_stops_before_copying_witness :
  Sync.calls (snd (Sync.sync_music (SyncFixtures.at_time 200 0) false false false true
                     SyncFixtures.library))
  = [].
Proof.
  assert (is_Some (Sync.fs SyncFixtures.library !! Sync.source_dir)) as Hsrc
    by (vm_compute; eauto).
  exact (proj2 (proj2 (sync_stops_before_copying (SyncFixtures.at_time 200 0)
                         false false false true SyncFixtures.library) Hsrc)).
Defined.

(** ** Saving the list and loading it again *)

Module SaveFacts.
Import Sel Common EffFacts.

Lemma append_cons (c : ascii) (s t : string) :
  (String c s ++ t)%string = String c (s ++ t)%string.
Proof. reflexivity. Qed.

Lemma append_assoc (a b c : string) : ((a ++ b) ++ c)%string = (a ++ b ++ c)%string.
Proof.
  induction a as [|x a IH]; [reflexivity|].
  rewrite !append_cons, IH. reflexivity.
Qed.

(** A line without an end of line in it is read back as written. *)
Lemma readlines_line (u : string) : forall cur rest,
  Files.one_line u = true ->
  Files.readlines_from cur (u ++ Py.nl ++ rest)
  = (cur ++ u ++ Py.nl)%string :: Files.readlines_from "" rest.
Proof.
  induction u as [|c u IH]; intros cur rest Hu.
  - reflexivity.
  - unfold Files.one_line in Hu. cbn [PyStr.all_chars] in Hu.
    apply andb_true_iff in Hu as [Hc Hu].
    apply negb_true_iff, orb_false_iff in Hc as [Hlf Hcr].
    rewrite append_cons. cbn [Files.readlines_from]. rewrite Hlf, Hcr.
    rewrite (IH _ _ Hu), append_assoc. reflexivity.
Qed.

Lemma readlines_written (urls : list string) :
  Forall (fun u => Files.one_line u = true) urls ->
  Files.readlines (Files.written urls) = map (fun u => (u ++ Py.nl)%string) urls.
Proof.
  unfold Files.readlines. induction 1 as [|u urls Hu _ IH]; [reflexivity|].
  cbn [Files.written map]. rewrite (readlines_line u "" _ Hu), IH. reflexivity.
Qed.

Lemma rstrip_nl (s : string) : PyStr.rstrip (s ++ Py.nl) = PyStr.rstrip s.
Proof.
  induction s as [|c s IH]; [reflexivity|].
  rewrite append_cons. cbn [PyStr.rstrip]. rewrite IH. reflexivity.
Qed.

(** Stripping takes the end of line off a clean URL line. *)
Lemma strip_url_line (u : string) :
  PyStr.startswith u "http" = true -> PyStr.strip u = u ->
  PyStr.strip (u ++ Py.nl) = u.
Proof.
  intros Hh Hs. destruct u as [|c u]; [discriminate Hh|].
  cbn [PyStr.startswith] in Hh.
  destruct (ascii_dec "h"%char c) as [<-|]; [|discriminate Hh].
  unfold PyStr.strip in *. rewrite append_cons.
  change (PyStr.lstrip (String "h" (u ++ Py.nl))) with (String "h" (u ++ Py.nl)).
  change (PyStr.lstrip (String "h" u)) with (String "h" u) in Hs.
  rewrite <- append_cons, rstrip_nl. exact Hs.
Qed.

(** Loading the lines of a saved file finds the URLs saved, when these
    are clean and not yet in the list. *)
Lemma new_urls_saved (urls : list string) : forall acc,
  Forall (fun u => PyStr.startswith u "http" = true /\ PyStr.strip u = u) urls ->
  NoDup urls -> (forall u, u ∈ urls -> u ∉ acc) ->
  new_urls acc (map (fun u => (u ++ Py.nl)%string) urls) = urls.
Proof.
  induction urls as [|u urls IH]; intros acc Hclean Hnd Hnew; [reflexivity|].
  apply Forall_cons in Hclean as [[Hh Hs] Hclean].
  apply NoDup_cons in Hnd as [Hu Hnd].
  cbn [map new_urls]. rewrite (strip_url_line u Hh Hs).
  rewrite LoadFacts.is_url_line_http, Hh.
  rewrite bool_decide_eq_false_2 by (apply Hnew; left). cbn [andb negb].
  f_equal. apply IH; [exact Hclean|exact Hnd|].
  intros x Hx [Hin|Hin]%elem_of_app.
  - exact (Hnew x ltac:(right; exact Hx) Hin).
  - apply list_elem_of_singleton in Hin as ->. contradiction.
Qed.

Lemma endswith_refl (s : string) : Files.endswith s s = true.
Proof. destruct s; cbn [Files.endswith]; rewrite String.eqb_refl; reflexivity. Qed.

Lemma endswith_app (s p : string) : Files.endswith (s ++ p) p = true.
Proof.
  induction s as [|c s IH]; [apply endswith_refl|].
  rewrite append_cons. cbn [Files.endswith]. rewrite IH. apply orb_true_r.
Qed.

Lemma with_txt_endswith (typed : string) :
  Files.endswith (Interactive.with_txt typed) ".txt" = true.
Proof.
  unfold Interactive.with_txt.
  set (filename := if String.eqb (PyStr.strip typed) "" then _ else _).
  destruct (Files.endswith filename ".txt") eqn:E; [exact E|apply endswith_app].
Qed.

Section WithDisk.

Variable unwritable : string -> bool.
Variable strerror : string -> string.

(** What [save_to_file] does, case by case. *)
Lemma save_to_file_run (filename : string) (st : state) (d : Files.disk) :
  Interactive.save_to_file unwritable strerror filename (st, d)
  = (Ok tt,
     match album_urls st with
     | [] => (snd (print "No albums to save." st), d)
     | urls =>
         if unwritable filename
         then (snd (print ("Error saving to file: " ++ strerror filename) st), d)
         else (snd (print ("✓ Saved " ++ PyStr.str_int (Py.len urls)
                           ++ " album URLs to " ++ filename) st),
               <[filename := Files.written urls]> d)
     end).
Proof.
  unfold Interactive.save_to_file, bind, get. cbn [fst snd].
  destruct (album_urls st) as [|u urls]; [reflexivity|].
  unfold try_except, Interactive.open_w, bind.
  destruct (unwritable filename); reflexivity.
Qed.

End WithDisk.

End SaveFacts.

(** X12: a saved list can be loaded again.  When the URLs selected are
    distinct, start with [http], have no white space around them and
    no end of line in them, and the file can be opened for writing,
    [save_to_file] returns, changes only that file and leaves the two
    lists as they are; and [load_existing_file] of either selector,
    started afresh and given the name as typed, then has exactly the
    saved URLs, in the order saved.  It returns once Enter is pressed
    and raises the end-of-input error when there is no line left for
    that, the URLs having been loaded all the same. *)
Theorem saved_list_loads_back (unwritable urlparse_raises : string -> bool)
    (strerror : string -> string)
    (typed : string) (after : list string) (st : Sel.state) (d : Files.disk) :
  let filename := PyStr.strip typed in
  let saved := Interactive.save_to_file unwritable strerror filename (st, d) in
  let file := Interactive.on_disk (snd (snd saved)) in
  let load_i :=
    Interactive.load_existing_file urlparse_raises (typed :: after) file Sel.init in
  let load_t := TUI.load_existing_file (typed :: after) file Sel.init in
  let returned :=
    match after with
    | [] => Eff.Raise Py.EOFError
    | _ :: rest => Eff.Ok rest
    end in
  filename <> "" -> unwritable filename = false ->
  Sel.album_urls st <> [] -> NoDup (Sel.album_urls st) ->
  Forall (fun u => PyStr.startswith u "http" = true /\ PyStr.strip u = u
                   /\ Files.one_line u = true) (Sel.album_urls st) ->
  fst saved = Eff.Ok tt
  /\ snd (snd saved) = <[filename := Files.written (Sel.album_urls st)]> d
  /\ Sel.album_urls (fst (snd saved)) = Sel.album_urls st
  /\ Sel.selected_albums (fst (snd saved)) = Sel.selected_albums st
  /\ fst load_i = returned
  /\ Sel.album_urls (snd load_i) = Sel.album_urls st
  /\ fst load_t = returned
  /\ Sel.album_urls (snd load_t) = Sel.album_urls st
  /\ Sel.selected_albums (snd load_t) = map Common.loaded (Sel.album_urls st).
Proof.
  intros filename saved file load_i load_t returned Hname Hopen Hsome Hnd Hclean.
  subst load_i load_t file saved. rewrite SaveFacts.save_to_file_run. cbn [fst snd].
  destruct (Sel.album_urls st) as [|u0 urls0] eqn:Eurls; [contradiction|].
  rewrite <- Eurls in *. rewrite Hopen. cbn [fst snd].
  assert (Interactive.on_disk (<[filename := Files.written (Sel.album_urls st)]> d)
            filename
          = Some (map (fun u => (u ++ Py.nl)%string) (Sel.album_urls st))) as Hfile.
  { unfold Interactive.on_disk.
    rewrite (lookup_insert_eq (d : gmap string string)). cbn [fmap option_fmap option_map].
    f_equal. apply SaveFacts.readlines_written.
    eapply Forall_impl; [exact Hclean|]. intros u (_ & _ & H). exact H. }
  assert (Common.new_urls [] (map (fun u => (u ++ Py.nl)%string) (Sel.album_urls st))
          = Sel.album_urls st) as Hnew.
  { apply SaveFacts.new_urls_saved; [|exact Hnd|intros u _ H; inversion H].
    eapply Forall_impl; [exact Hclean|]. intros u (H1 & H2 & _). auto. }
  split; [reflexivity|]. split; [reflexivity|].
  split; [reflexivity|]. split; [reflexivity|].
  rewrite LoadFacts.interactive_load_existing_file_run,
    LoadFacts.tui_load_existing_file_run.
  cbv zeta. fold filename.
  destruct (String.eqb_spec filename "") as [E|_]; [contradiction|].
  rewrite Hfile. change (Sel.album_urls Sel.init) with (@nil string). rewrite Hnew.
  cbn [fst snd Sel.album_urls Sel.selected_albums]. repeat split.
Qed.

Lemma saved_list_loads_back_witness :
  let st :=
    {| Sel.selected_albums :=
         map Common.loaded ["https://play.qobuz.com/album/1"; "http://example.org/2"];
       Sel.album_urls := ["https://play.qobuz.com/album/1"; "http://example.org/2"];
       Sel.stdout := [] |} in
  let saved :=
    Interactive.save_to_file (fun _ => false) (fun _ => "") "links.txt" (st, ∅) in
  let load :=
    TUI.load_existing_file [" links.txt"; ""] (Interactive.on_disk (snd (snd saved)))
      Sel.init in
  fst load = Eff.Ok []
  /\ Sel.album_urls (snd load)
     = ["https://play.qobuz.com/album/1"; "http://example.org/2"].
Proof.
  intros st saved load.
  assert (PyStr.strip " links.txt" <> "") as Hname by discriminate.
  assert (Sel.album_urls st <> []) as Hsome by discriminate.
  assert (NoDup (Sel.album_urls st)) as Hnd
    by (apply NoDup_cons; split;
        [intros H; apply list_elem_of_singleton in H; discriminate H
        |apply NoDup_singleton]).
  assert (Forall (fun u => PyStr.startswith u "http" = true /\ PyStr.strip u = u
                           /\ Files.one_line u = true) (Sel.album_urls st)) as Hclean
    by (repeat constructor).
  pose proof (saved_list_loads_back (fun _ => false) (fun _ => false) (fun _ => "")
                " links.txt" [""] st ∅ Hname eq_refl Hsome Hnd Hclean)
    as (_ & _ & _ & _ & _ & _ & Hret & Hurls & _).
  split; [exact Hret|exact Hurls].
Defined.

(** X13: [save_workflow] never changes the selection or the URL list,
    and changes at most one file: the one named by the first line
    typed, with [.txt] appended unless it ends so ([album_links.txt]
    when nothing is typed), which then holds the URLs one per line.
    That happens only with URLs to save, and a file already there is
    replaced only after the second line typed is [y] or [yes], in any
    case and with white space around it. *)
Theorem save_workflow_overwrites_only_on_yes (unwritable : string -> bool)
    (strerror : string -> string)
    (inputs : list string) (st : Sel.state) (d : Files.disk) :
  let after := snd (Interactive.save_workflow unwritable strerror inputs (st, d)) in
  Sel.album_urls (fst after) = Sel.album_urls st
  /\ Sel.selected_albums (fst after) = Sel.selected_albums st
  /\ (snd after = d
      \/ exists typed rest,
           inputs = typed :: rest
           /\ snd after
              = <[Interactive.with_txt typed := Files.written (Sel.album_urls st)]> d
           /\ Files.endswith (Interactive.with_txt typed) ".txt" = true
           /\ Sel.album_urls st <> []
           /\ unwritable (Interactive.with_txt typed) = false
           /\ (is_Some (d !! Interactive.with_txt typed) ->
               exists answer rest',
                 rest = answer :: rest'
                 /\ PyStr.lower (PyStr.strip answer) ∈ ["y"; "yes"])).
Proof.
  intros after. subst after.
  remember (Interactive.save_workflow unwritable strerror inputs (st, d)) as run eqn:Erun.
  unfold Interactive.save_workflow in Erun.
  unfold Eff.bind at 1 in Erun. unfold Eff.get at 1 in Erun. cbn [fst snd] in Erun.
  destruct (Sel.album_urls st) as [|u0 urls0] eqn:Eurls.
  { destruct inputs; subst run; simpl; auto. }
  rewrite <- Eurls in *.
  destruct inputs as [|typed rest]; [subst run; simpl; auto|].
  set (filename := Interactive.with_txt typed).
  unfold Eff.bind at 1 in Erun. unfold Interactive.on_selector at 1 in Erun.
  unfold Sel.print at 1 in Erun. cbn [fst snd] in Erun.
  unfold Eff.bind at 1 in Erun. unfold Interactive.input at 1 in Erun.
  unfold Eff.ret at 1 in Erun. cbn [fst snd] in Erun. fold filename in Erun.
  unfold Eff.bind at 1 in Erun. unfold Eff.get at 1 in Erun. cbn [fst snd] in Erun.
  set (st1 := {| Sel.stdout := _ |}) in Erun.
  assert (Sel.album_urls st1 = Sel.album_urls st) as Hu by reflexivity.
  assert (Sel.selected_albums st1 = Sel.selected_albums st) as Hs by reflexivity.
  clearbody st1.
  assert (forall k : Interactive.Saving (list string),
            (forall w, snd (k w) = w) ->
            let after := snd (Eff.bind (Interactive.save_to_file unwritable strerror filename)
                                (fun _ => k) (st1, d)) in
            Sel.album_urls (fst after) = Sel.album_urls st
            /\ Sel.selected_albums (fst after) = Sel.selected_albums st
            /\ (snd after = d
                \/ snd after = <[filename := Files.written (Sel.album_urls st)]> d
                   /\ unwritable filename = false)) as Hsave.
  { intros k Hk after. subst after.
    erewrite EffFacts.bind_ok by apply SaveFacts.save_to_file_run.
    rewrite Hk, Hu, Eurls. rewrite <- Eurls.
    destruct (unwritable filename); cbn [fst snd]; auto. }
  assert (Sel.album_urls st <> []) as Hsome by (rewrite Eurls; discriminate).
  destruct (bool_decide_reflect (is_Some (d !! filename))) as [Hex|Hnew].
  - destruct rest as [|answer rest']; [subst run; simpl; auto|].
    unfold Eff.bind at 1 in Erun. unfold Interactive.input at 1 in Erun.
    unfold Eff.ret at 1 in Erun. cbn [fst snd] in Erun.
    destruct (bool_decide_reflect
                (PyStr.lower (PyStr.strip answer) ∈ ["y"; "yes"])) as [Hyes|Hno].
    + subst run.
      destruct (Hsave (Eff.bind (Interactive.input rest') (fun r => Eff.ret (snd r))))
        as (H1 & H2 & H3).
      { intros w. destruct rest'; reflexivity. }
      split; [exact H1|]. split; [exact H2|].
      destruct H3 as [H3|[H3 Hw]]; [left; exact H3|right].
      exists typed, (answer :: rest'). split; [reflexivity|]. split; [exact H3|].
      split; [apply SaveFacts.with_txt_endswith|]. split; [exact Hsome|].
      split; [exact Hw|]. intros _. eauto.
    + subst run. simpl. auto.
  - subst run.
    destruct (Hsave (Eff.bind (Interactive.input rest) (fun r => Eff.ret (snd r))))
      as (H1 & H2 & H3).
    { intros w. destruct rest; reflexivity. }
    split; [exact H1|]. split; [exact H2|].
    destruct H3 as [H3|[H3 Hw]]; [left; exact H3|right].
    exists typed, rest. split; [reflexivity|]. split; [exact H3|].
    split; [apply SaveFacts.with_txt_endswith|]. split; [exact Hsome|].
    split; [exact Hw|]. intros H. contradiction.
Qed.

Lemma save_workflow_overwrites_only_on_yes_witness :
  let st :=
    {| Sel.selected_albums := [Common.loaded "http://example.org/2"];
       Sel.album_urls := ["http://example.org/2"];
       Sel.stdout := [] |} in
  let d : Files.disk := {["links.txt" := "old"]} in
  snd (snd (Interactive.save_workflow (fun _ => false) (fun _ => "") ["links"; " Y "; ""] (st, d)))
    !! "links.txt"
  = Some (Files.written ["http://example.org/2"])
  /\ exists answer rest',
       [" Y "; ""] = answer :: rest' /\ PyStr.lower (PyStr.strip answer) ∈ ["y"; "yes"].
Proof.
  intros st d.
  destruct (save_workflow_overwrites_only_on_yes (fun _ => false) (fun _ => "")
              ["links"; " Y "; ""] st d) as (_ & _ & [Hsame|Hsaved]).
  - apply (f_equal (fun m : Files.disk => m !! "links.txt")) in Hsame.
    vm_compute in Hsame. discriminate Hsame.
  - destruct Hsaved as (typed & rest & Hin & Hd & _ & _ & _ & Hyes).
    injection Hin as <- <-. split.
    + rewrite Hd. reflexivity.
    + apply Hyes. exists "old". reflexivity.
Defined.

(** ** Fetching the albums of an artist *)

Module FetchFacts.
Import Sel Common EffFacts.

(** The records the loop keeps: one for each identifier the service
    answers for. *)
Definition answered (get_album_info : Py.pyval -> string + AlbumInfo.t)
    (album_id : Py.pyval) : option AlbumInfo.t :=
  match get_album_info album_id with
  | inr album_info => Some (set_album_id album_id album_info)
  | inl _ => None
  end.

Lemma fetch_albums_run warning get_album_info album_ids : forall albums st,
  exists out,
    fetch_albums warning get_album_info album_ids albums st
    = (Ok (albums ++ omap (answered get_album_info) album_ids)%list,
       with_stdout st (stdout st ++ out)%list)
    /\ (length out + length (omap (answered get_album_info) album_ids))%nat
       = length album_ids.
Proof.
  induction album_ids as [|album_id rest IH]; intros albums st.
  - exists []. simpl. unfold ret, with_stdout. rewrite !app_nil_r.
    destruct st; split; reflexivity.
  - cbn [fetch_albums omap list_omap].
    assert (answered get_album_info album_id
            = match get_album_info album_id with
              | inr album_info => Some (set_album_id album_id album_info)
              | inl _ => None
              end) as Ha by reflexivity.
    destruct (get_album_info album_id) as [e|album_info]; rewrite Ha.
    + destruct (IH albums (snd (print (warning album_id e) st))) as (out & Hrun & Hlen).
      exists (warning album_id e :: out). split.
      * unfold bind at 1. cbn [print fst snd] in *. rewrite Hrun.
        unfold with_stdout. cbn [selected_albums album_urls stdout].
        rewrite <- app_assoc. reflexivity.
      * cbn [length]. lia.
    + destruct (IH (albums ++ [set_album_id album_id album_info])%list st)
        as (out & Hrun & Hlen).
      exists out. split.
      * rewrite Hrun, <- app_assoc. reflexivity.
      * cbn [length]. lia.
Qed.

Lemma getattr_set_album_id album_id a :
  AlbumInfo.getattr (set_album_id album_id a) "album_id" = Some album_id.
Proof. reflexivity. Qed.

End FetchFacts.

(** X14: [get_artist_albums] never raises and leaves the selection and
    the URL list alone.  It returns, in the order of the artist's
    identifiers, one record for each identifier the service answers
    for, and prints one warning for each of the others; it returns
    nothing after an error in the lookup of the artist.  Every record
    returned carries the identifier it was asked by as its [album_id],
    so that, when that identifier is not empty or zero, the URL either
    selector builds for the album ends with it and does not depend on
    the built-in [hash]. *)
Theorem fetched_albums_carry_their_id
    (module_settings : list (string * ModuleInformation.t))
    (hash hash' : string -> Z) (module_name : string)
    (artist_albums : string + list Py.pyval)
    (get_album_info : Py.pyval -> string + AlbumInfo.t) (st : Sel.state) :
  let album_ids := match artist_albums with inr l => l | inl _ => [] end in
  let albums :=
    omap (fun album_id =>
            match get_album_info album_id with
            | inr album_info => Some (Common.set_album_id album_id album_info)
            | inl _ => None
            end) album_ids in
  (exists out out',
     Interactive.get_artist_albums artist_albums get_album_info st
     = (Eff.Ok albums, Sel.with_stdout st (Sel.stdout st ++ out)%list)
     /\ TUI.get_artist_albums artist_albums get_album_info st
        = (Eff.Ok albums, Sel.with_stdout st (Sel.stdout st ++ out')%list)
     /\ length out = length out'
     /\ match artist_albums with
        | inr _ => (length out + length albums)%nat = length album_ids
        | inl _ => length out = 1%nat
        end)
  /\ Forall (fun a =>
       exists album_id,
         album_id ∈ album_ids
         /\ AlbumInfo.getattr a "album_id" = Some album_id
         /\ (Py.truthy album_id = true ->
             Interactive.build_url module_settings hash module_name a
             = Interactive.build_url module_settings hash' module_name a
             /\ TUI.build_url module_settings hash module_name a
                = Interactive.build_url module_settings hash module_name a
             /\ forall url,
                  Interactive.build_url module_settings hash module_name a = Eff.Ok url ->
                  exists base, url = (base ++ "/" ++ Py.str album_id)%string))
     albums.
Proof.
  intros album_ids albums. split.
  - unfold Interactive.get_artist_albums, TUI.get_artist_albums.
    destruct artist_albums as [e|ids].
    + exists [("Error getting artist albums: " ++ e)%string],
             [("[red]Error getting artist albums: " ++ e ++ "[/red]")%string].
      repeat split.
    + subst album_ids albums.
      destruct (FetchFacts.fetch_albums_run
                  (fun album_id e =>
                     ("Warning: Could not get info for album " ++ Py.str album_id
                      ++ ": " ++ e)%string) get_album_info ids [] st)
        as (out & Hrun & Hlen).
      destruct (FetchFacts.fetch_albums_run
                  (fun album_id e =>
                     ("[yellow]Warning: Could not load album " ++ Py.str album_id
                      ++ ": " ++ e ++ "[/yellow]")%string) get_album_info ids [] st)
        as (out' & Hrun' & Hlen').
      exists out, out'. split; [exact Hrun|]. split; [exact Hrun'|].
      split; [|exact Hlen].
      unfold FetchFacts.answered in *. lia.
  - apply List.Forall_forall. intros a Ha. apply list_elem_of_In in Ha.
    subst albums. apply list_elem_of_omap in Ha as (album_id & Hid & Hsome).
    exists album_id. split; [exact Hid|].
    destruct (get_album_info album_id) as [e|album_info]; [discriminate Hsome|].
    injection Hsome as <-. split; [reflexivity|]. intros Htruthy.
    unfold Interactive.build_url, TUI.build_url, Interactive.stored_id, TUI.stored_id.
    rewrite !FetchFacts.getattr_set_album_id, Htruthy.
    destruct (Py.dict_get module_settings module_name) as [settings|];
      [|repeat split; intros url H; discriminate H].
    destruct (Common.first_netloc _) as [netloc|e];
      [|repeat split; intros url H; discriminate H].
    cbv zeta. rewrite Htruthy. repeat split.
    intros url H. injection H as <-.
    exists ("https://" ++ Common.domain_of netloc ++ "/"
            ++ Common.album_path_of (ModuleInformation.url_constants settings))%string.
    rewrite !SaveFacts.append_assoc. reflexivity.
Qed.

Lemma fetched_albums_carry_their_id_witness :
  let a := Common.set_album_id (Py.PyStr "123") Fixtures.back_in_black in
  Interactive.build_url Fixtures.settings (fun _ => 0) "qobuz" a
  = Interactive.build_url Fixtures.settings (fun _ => 1) "qobuz" a.
Proof.
  intros a.
  pose proof (proj2 (fetched_albums_carry_their_id Fixtures.settings
                       (fun _ => 0) (fun _ => 1) "qobuz"
                       (inr [Py.PyStr "123"; Py.PyInt 7])
                       (fun album_id =>
                          match album_id with
                          | Py.PyStr _ => inr Fixtures.back_in_black
                          | _ => inl "not found"
                          end) Sel.init)) as Hall.
  apply Forall_inv in Hall. destruct Hall as (album_id & _ & Hattr & Hurl).
  injection Hattr as <-. exact (proj1 (Hurl eq_refl)).
Defined.

(** ** Numbers typed and numbers printed *)

Module IntFacts.
Import PyStr.

Ltac each_char c := destruct c as [[] [] [] [] [] [] [] []].

Lemma decimal_not_space c : isdecimal c = true -> isspace c = false.
Proof. each_char c; intros H; try discriminate H; reflexivity. Qed.

Lemma code_digit_char d : 0 <= d < 10 -> code (digit_char d) = 48 + d.
Proof.
  intros H.
  assert (d = 0 \/ d = 1 \/ d = 2 \/ d = 3 \/ d = 4 \/ d = 5 \/ d = 6 \/ d = 7
          \/ d = 8 \/ d = 9) as Hd by lia.
  repeat destruct Hd as [->|Hd]; try subst d; reflexivity.
Qed.

Lemma int_digits_digit d acc s :
  0 <= d < 10 ->
  int_digits acc false (String (digit_char d) s) = int_digits (10 * acc + d) false s.
Proof.
  intros H. cbn [int_digits].
  rewrite PyStrFacts.digit_char_decimal, code_digit_char by exact H.
  f_equal; lia.
Qed.

(** Reading the digits printed for [n] gives [n], when the fuel is
    enough for them. *)
Lemma int_digits_digits fuel : forall n s,
  0 <= n < 2 ^ (Z.of_nat fuel + 1) ->
  int_digits 0 false (digits fuel n s) = int_digits n false s.
Proof.
  induction fuel as [|fuel IH]; intros n s Hn.
  - change (2 ^ (Z.of_nat 0 + 1)) with 2 in Hn. cbn [digits].
    rewrite Z.mod_small by lia. rewrite int_digits_digit by lia. f_equal; lia.
  - cbn [digits]. destruct (Z.ltb_spec n 10) as [Hlt|Hge].
    + rewrite int_digits_digit by lia. f_equal; lia.
    + rewrite IH.
      * rewrite int_digits_digit by (apply Z.mod_pos_bound; lia).
        f_equal. pose proof (Z.div_mod n 10 ltac:(lia)). lia.
      * split; [apply Z.div_pos; lia|]. apply Z.div_lt_upper_bound; [lia|].
        replace (Z.of_nat (S fuel) + 1) with (Z.succ (Z.of_nat fuel + 1)) in Hn by lia.
        rewrite Z.pow_succ_r in Hn by lia. lia.
Qed.

Lemma rstrip_no_space s : all_chars (fun c => negb (isspace c)) s = true -> rstrip s = s.
Proof.
  induction s as [|c s IH]; [reflexivity|]. cbn [all_chars rstrip].
  intros [Hc Hs]%andb_prop. rewrite (IH Hs).
  destruct s; [|reflexivity]. apply negb_true_iff in Hc. rewrite Hc. reflexivity.
Qed.

Lemma strip_no_space s : all_chars (fun c => negb (isspace c)) s = true -> strip s = s.
Proof.
  intros H. unfold strip.
  assert (lstrip s = s) as ->.
  { destruct s as [|c s]; [reflexivity|]. cbn [all_chars] in H.
    apply andb_prop in H as [Hc _]. apply negb_true_iff in Hc.
    cbn [lstrip]. rewrite Hc. reflexivity. }
  apply rstrip_no_space, H.
Qed.

Lemma all_chars_impl (p q : ascii -> bool) s :
  (forall c, p c = true -> q c = true) -> all_chars p s = true -> all_chars q s = true.
Proof.
  intros Hpq. induction s as [|c s IH]; [reflexivity|]. cbn [all_chars].
  intros [Hc Hs]%andb_prop. rewrite (Hpq c Hc), (IH Hs). reflexivity.
Qed.

Lemma strip_decimal s : all_chars isdecimal s = true -> strip s = s.
Proof.
  intros H. apply strip_no_space. revert H. apply all_chars_impl.
  intros c Hc. rewrite (decimal_not_space c Hc). reflexivity.
Qed.

(** [int] on a string of digits. *)
Lemma int_decimal s :
  s <> "" -> all_chars isdecimal s = true -> int s = int_digits 0 false s.
Proof.
  intros Hne Hs. unfold int. rewrite (strip_decimal s Hs).
  destruct s as [|c s]; [contradiction|].
  cbn [all_chars] in Hs. apply andb_prop in Hs as [Hc _].
  each_char c; try discriminate Hc; reflexivity.
Qed.

(** [int(str(n))] is [n]. *)
Lemma int_str_int n : 0 <= n -> int (str_int n) = Some n.
Proof.
  intros Hn. unfold str_int. destruct (Z.ltb_spec n 0) as [|_]; [lia|].
  rewrite int_decimal.
  - unfold str_nonneg. rewrite int_digits_digits; [reflexivity|].
    split; [exact Hn|]. rewrite Z2Nat.id by apply Z.log2_nonneg.
    destruct (Z.eq_dec n 0) as [->|]; [reflexivity|].
    apply Z.log2_spec. lia.
  - intros E. pose proof (PyStrFacts.digits_length_pos (Z.to_nat (Z.log2 n)) n "") as H.
    unfold str_nonneg in E. rewrite E in H. simpl in H. lia.
  - apply PyStrFacts.str_nonneg_decimal, Hn.
Qed.

(** What [int] accepts starts, after white space, with a digit or a
    sign. *)
Lemma int_head a r n :
  isspace a = false -> int (String a r) = Some n ->
  isdecimal a = true \/ a = "+"%char \/ a = "-"%char.
Proof.
  intros Ha. unfold int, strip. cbn [lstrip]. rewrite Ha. cbn [rstrip].
  assert (exists r', match rstrip r with
                     | "" => if isspace a then "" else String a ""
                     | String d r'' => String a (String d r'')
                     end = String a r') as [r' ->].
  { destruct (rstrip r); [rewrite Ha|]; eauto. }
  destruct (isdecimal a) eqn:Hd; [left; reflexivity|]. intros H. right.
  revert Hd H. each_char a; intros Hd H; try discriminate Hd;
    first [left; reflexivity|right; reflexivity|discriminate H].
Qed.

(** The words that leave a dialog are not numbers. *)
Lemma quit_word_not_int s :
  lower s ∈ ["q"; "quit"; "exit"] -> int s = None.
Proof.
  intros Hq. destruct (int s) as [n|] eqn:E; [exfalso|reflexivity].
  destruct s as [|a r]; [discriminate E|].
  assert (lower_char a = "q"%char \/ lower_char a = "e"%char) as Ha.
  { cbn [lower] in Hq.
    apply elem_of_cons in Hq as [Hq|Hq]; [injection Hq as Hq _; left; exact Hq|].
    apply elem_of_cons in Hq as [Hq|Hq]; [injection Hq as Hq _; left; exact Hq|].
    apply elem_of_cons in Hq as [Hq|Hq]; [injection Hq as Hq _; right; exact Hq|].
    inversion Hq. }
  assert (isspace a = false /\ isdecimal a = false
          /\ a <> "+"%char /\ a <> "-"%char) as (Hs & Hd & Hp & Hm).
  { clear -Ha. each_char a; destruct Ha as [Ha|Ha]; try discriminate Ha;
      repeat split; discriminate. }
  destruct (int_head a r n Hs E) as [H|[H|H]]; congruence.
Qed.

End IntFacts.

(** ** Choosing an artist *)

Module ChooseFacts.
Import Sel Common EffFacts SelFacts.

Section WithSearch.

Context {SearchResult : Type}.

(** One turn of the dialog, case by case. *)
Lemma choose_result_run (results : list SearchResult) line st :
  let choice := PyStr.strip line in
  Interactive.choose_result results line st
  = if bool_decide (PyStr.lower choice ∈ ["q"; "quit"; "exit"])
    then (Ok (Some Interactive.QuitSearch), st)
    else if String.eqb choice (PyStr.str_int (Py.len results + 1))
    then (Ok (Some Interactive.SearchAgain), st)
    else if String.eqb choice (PyStr.str_int (Py.len results + 2))
    then (Ok (Some Interactive.BackToMenu), st)
    else match PyStr.int choice with
         | None =>
             (Ok None,
              with_stdout st (stdout st ++ ["Please enter a valid number."])%list)
         | Some n =>
             match results !! Z.to_nat (n - 1) with
             | Some result =>
                 if (0 <=? n - 1) && (n - 1 <? Py.len results)
                 then (Ok (Some (Interactive.Artist result)), st)
                 else (Ok None, with_stdout st (stdout st ++ ["Invalid selection."])%list)
             | None =>
                 (Ok None, with_stdout st (stdout st ++ ["Invalid selection."])%list)
             end
         end.
Proof.
  intros choice. unfold Interactive.choose_result. fold choice.
  destruct (bool_decide _); [reflexivity|].
  destruct (String.eqb choice _); [reflexivity|].
  destruct (String.eqb choice _); [reflexivity|].
  unfold try_except, bind, of_option, ret, raise, print, with_stdout.
  destruct (PyStr.int choice) as [n|]; [|reflexivity].
  destruct ((0 <=? n - 1) && (n - 1 <? Py.len results)) eqn:Hr.
  - destruct (lookup_lt_is_Some_2 results (Z.to_nat (n - 1))) as [r ->];
      [unfold Py.len in Hr; lia|reflexivity].
  - destruct (results !! Z.to_nat (n - 1)); reflexivity.
Qed.

(** A turn only prints, and an artist it returns is one of the
    results. *)
Lemma choose_result_sound (results : list SearchResult) line st :
  exists r st',
    Interactive.choose_result results line st = (Ok r, st')
    /\ same_lists st st'
    /\ forall result, r = Some (Interactive.Artist result) -> result ∈ results.
Proof.
  rewrite choose_result_run. cbv zeta.
  repeat match goal with
         | |- context [if ?b then _ else _] => destruct b
         | |- context [match ?o with Some _ => _ | None => _ end] =>
             destruct o eqn:?
         end;
    eexists _, _; (split; [reflexivity|]); (split; [split; reflexivity|]);
    intros result Hr; try discriminate Hr.
  injection Hr as <-. eapply list_elem_of_lookup_2. eassumption.
Qed.

Lemma result_loop_sound (results : list SearchResult) inputs : forall st,
  same_lists st (snd (Interactive.result_loop results inputs st))
  /\ match fst (Interactive.result_loop results inputs st) with
     | Ok (c, rest) =>
         rest `suffix_of` inputs
         /\ c <> Interactive.NoResults
         /\ forall result, c = Interactive.Artist result -> result ∈ results
     | Raise e => e = Py.EOFError
     end.
Proof.
  induction inputs as [|line rest IH]; intros st.
  - simpl. split; [split; reflexivity|reflexivity].
  - simpl Interactive.result_loop. unfold bind.
    destruct (choose_result_sound results line st) as (r & st' & Hrun & Hsame & Hin).
    rewrite Hrun. destruct r as [c|].
    + simpl. split; [exact Hsame|]. split; [apply suffix_cons_r; reflexivity|].
      split; [|intros result ->; apply Hin; reflexivity].
      intros ->. revert Hrun. rewrite choose_result_run. cbv zeta.
      repeat match goal with
             | |- context [if ?b then _ else _] => destruct b
             | |- context [match ?o with Some _ => _ | None => _ end] => destruct o
             end; discriminate.
    + destruct (IH st') as [H1 H2]. split.
      * destruct Hsame as [Ha Hb], H1 as [Hc Hd]. split; congruence.
      * destruct (fst (Interactive.result_loop results rest st')) as [[c rest']|e];
          [|exact H2].
        destruct H2 as (Hsuf & Hc). split; [apply suffix_cons_r, Hsuf|exact Hc].
Qed.

End WithSearch.

Lemma result_lines_same {SearchResult} name year additional
    (results : list SearchResult) : forall i,
  steps same_lists (Interactive.result_lines SearchResult name year additional i results).
Proof.
  induction results as [|r results IH]; intros i; simpl.
  - apply (steps_ret same_lists).
  - apply (steps_bind same_lists); [apply print_same|]. intros _. apply IH.
Qed.

End ChooseFacts.

(** X15: whatever is typed, the artist dialog [display_search_results]
    of the menu selector leaves the selection alone and raises nothing
    but the end-of-input error of [input].  Without results it reads
    nothing and returns [None]; with results it returns ['quit'],
    ['search_again'], ['back'] or one of the results it listed, and
    the lines it did not read are returned untouched. *)
Theorem display_search_results_returns_listed_artist {SearchResult : Type}
    (name year : SearchResult -> string) (additional : SearchResult -> list string)
    (results : list SearchResult) (inputs : list string) (st : Sel.state) :
  let run := Interactive.display_search_results name year additional results inputs st in
  Sel.same_lists st (snd run)
  /\ match fst run with
     | Eff.Ok (c, rest) =>
         rest `suffix_of` inputs
         /\ (c = Interactive.NoResults <-> results = [])
         /\ (results = [] -> rest = inputs)
         /\ forall result, c = Interactive.Artist result -> result ∈ results
     | Eff.Raise e => e = Py.EOFError /\ results <> []
     end.
Proof.
  intros run. subst run.
  destruct results as [|r0 results0] eqn:E.
  { simpl. split; [split; reflexivity|]. split; [reflexivity|].
    split; [split; reflexivity|]. split; [reflexivity|]. intros result H. discriminate H. }
  rewrite <- E. assert (results <> []) as Hne by (rewrite E; discriminate).
  assert (exists st',
            Interactive.display_search_results name year additional results inputs st
            = Interactive.result_loop results inputs st'
            /\ Sel.same_lists st st') as (st' & -> & Hsame).
  { unfold Interactive.display_search_results. rewrite E. cbv iota. rewrite <- E.
    do 2 (erewrite EffFacts.bind_ok by reflexivity).
    match goal with |- context [Eff.bind (Interactive.result_lines _ _ _ _ _ _) _ ?s] =>
      pose proof (ChooseFacts.result_lines_same name year additional results 1 s) as H3;
      destruct (Interactive.result_lines SearchResult name year additional 1 results s)
        as [[[]|e] s3] eqn:E3
    end.
    - erewrite EffFacts.bind_ok by exact E3.
      do 2 (erewrite EffFacts.bind_ok by reflexivity).
      eexists. split; [reflexivity|]. destruct H3 as [Ha Hb]. simpl in *.
      split; assumption.
    - exfalso. clear -E3. revert E3. generalize 1.
      match goal with |- forall z, Interactive.result_lines _ _ _ _ _ _ ?s = _ -> _ =>
        generalize s end.
      induction results as [|r results IH]; intros s z; simpl; [discriminate|].
      unfold Eff.bind. simpl. apply IH. }
  destruct (ChooseFacts.result_loop_sound results inputs st') as [Hs Hr].
  split; [destruct Hsame as [H1 H2], Hs as [H3 H4]; split; congruence|].
  destruct (fst (Interactive.result_loop results inputs st')) as [[c rest]|e].
  - destruct Hr as (Hsuf & Hc & Hin). split; [exact Hsuf|].
    split; [split; intros H; contradiction|]. split; [intros H; contradiction|exact Hin].
  - split; [exact Hr|exact Hne].
Qed.

(** X16: what one line does in the artist dialog.  A line that [int]
    reads as the number of a result listed returns that result, however
    the number is written; the two numbers after the last result mean
    "search again" and "back" only when written as [str] prints them;
    any other number and any other text are answered by one line and
    the dialog asks again, unless the text is [q], [quit] or [exit] in
    any case.  White space around the line is ignored, and nothing but
    that one line is ever printed or changed. *)
Theorem choose_result_by_number {SearchResult : Type}
    (results : list SearchResult) (line : string) (st : Sel.state) :
  let choice := PyStr.strip line in
  let again := PyStr.str_int (Py.len results + 1) in
  let back := PyStr.str_int (Py.len results + 2) in
  let asks_again message :=
    (Eff.Ok None, Sel.with_stdout st (Sel.stdout st ++ [message])%list) in
  (forall n, PyStr.int choice = Some n -> 1 <= n <= Py.len results ->
     exists result,
       results !! Z.to_nat (n - 1) = Some result
       /\ Interactive.choose_result results line st
          = (Eff.Ok (Some (Interactive.Artist result)), st))
  /\ (choice = again ->
      Interactive.choose_result results line st
      = (Eff.Ok (Some Interactive.SearchAgain), st))
  /\ (choice = back ->
      Interactive.choose_result results line st
      = (Eff.Ok (Some Interactive.BackToMenu), st))
  /\ (forall n, PyStr.int choice = Some n -> ~ 1 <= n <= Py.len results ->
      choice <> again -> choice <> back ->
      Interactive.choose_result results line st = asks_again "Invalid selection.")
  /\ (PyStr.int choice = None ->
      if bool_decide (PyStr.lower choice ∈ ["q"; "quit"; "exit"])
      then Interactive.choose_result results line st
           = (Eff.Ok (Some Interactive.QuitSearch), st)
      else Interactive.choose_result results line st
           = asks_again "Please enter a valid number.").
Proof.
  intros choice again back asks_again.
  pose proof (ChooseFacts.choose_result_run results line st) as Hrun.
  cbv zeta in Hrun. fold choice again back in Hrun.
  assert (0 <= Py.len results) as Hlen by (unfold Py.len; lia).
  assert (PyStr.int again = Some (Py.len results + 1)) as Hagain
    by (apply IntFacts.int_str_int; lia).
  assert (PyStr.int back = Some (Py.len results + 2)) as Hback
    by (apply IntFacts.int_str_int; lia).
  assert (forall n, PyStr.int choice = Some n ->
            bool_decide (PyStr.lower choice ∈ ["q"; "quit"; "exit"]) = false) as Hnum.
  { intros n Hn. apply bool_decide_eq_false_2. intros Hq.
    rewrite (IntFacts.quit_word_not_int choice Hq) in Hn. discriminate Hn. }
  split; [|split; [|split; [|split]]].
  - intros n Hn Hin. rewrite Hrun, (Hnum n Hn).
    destruct (String.eqb_spec choice again) as [E|_]; [rewrite E in Hn|].
    { rewrite Hagain in Hn. injection Hn as <-. lia. }
    destruct (String.eqb_spec choice back) as [E|_]; [rewrite E in Hn|].
    { rewrite Hback in Hn. injection Hn as <-. lia. }
    rewrite Hn.
    destruct (lookup_lt_is_Some_2 results (Z.to_nat (n - 1))) as [r Hr];
      [unfold Py.len in Hin; lia|].
    rewrite Hr. exists r. split; [reflexivity|].
    replace ((0 <=? n - 1) && (n - 1 <? Py.len results)) with true by lia.
    reflexivity.
  - intros E. rewrite Hrun. rewrite (Hnum (Py.len results + 1)) by (rewrite E; exact Hagain).
    rewrite E, String.eqb_refl. reflexivity.
  - intros E. rewrite Hrun. rewrite (Hnum (Py.len results + 2)) by (rewrite E; exact Hback).
    destruct (String.eqb_spec choice again) as [E'|_].
    { rewrite E' in E. rewrite E in Hagain. rewrite Hback in Hagain.
      injection Hagain as H. lia. }
    rewrite E, String.eqb_refl. reflexivity.
  - intros n Hn Hout Ha Hb. rewrite Hrun, (Hnum n Hn).
    destruct (String.eqb_spec choice again) as [E|_]; [contradiction|].
    destruct (String.eqb_spec choice back) as [E|_]; [contradiction|].
    rewrite Hn.
    replace ((0 <=? n - 1) && (n - 1 <? Py.len results)) with false by lia.
    destruct (results !! Z.to_nat (n - 1)); reflexivity.
  - intros Hn. rewrite Hrun.
    destruct (bool_decide _); [reflexivity|].
    destruct (String.eqb_spec choice again) as [E|_];
      [rewrite E, Hagain in Hn; discriminate Hn|].
    destruct (String.eqb_spec choice back) as [E|_];
      [rewrite E, Hback in Hn; discriminate Hn|].
    rewrite Hn. reflexivity.
Qed.

Lemma choose_result_by_number_witness :
  Interactive.choose_result ["AC/DC"; "AC/DShe"] "  +0_1 " Sel.init
  = (Eff.Ok (Some (Interactive.Artist "AC/DC")), Sel.init)
  /\ Interactive.choose_result ["AC/DC"; "AC/DShe"] "03" Sel.init
     = (Eff.Ok None, Sel.with_stdout Sel.init ["Invalid selection."]).
Proof.
  split.
  - destruct (proj1 (choose_result_by_number ["AC/DC"; "AC/DShe"] "  +0_1 " Sel.init)
                1 eq_refl ltac:(vm_compute; split; discriminate))
      as (result & Hlook & Hrun).
    injection Hlook as <-. exact Hrun.
  - apply (proj1 (proj2 (proj2 (proj2
             (choose_result_by_number ["AC/DC"; "AC/DShe"] "03" Sel.init)))) 3 eq_refl).
    + vm_compute. intros [_ H]. apply H. reflexivity.
    + discriminate.
    + discriminate.
Defined.

(** ** Choosing a service *)

Module ModuleFacts.
Import Sel Common EffFacts SelFacts.

Section WithOrpheus.

Variable module_settings : list (string * ModuleInformation.t).

(** The error of a look-up of the settings of a module that has
    none. *)
Definition no_settings (modules : list string) (e : Py.exn) : Prop :=
  exists module,
    module ∈ modules /\ e = Py.KeyError module
    /\ Py.dict_get module_settings module = None.

Lemma no_settings_cons module modules e :
  no_settings modules e -> no_settings (module :: modules) e.
Proof. intros (m & Hm & He & Hn). exists m. split; [right; exact Hm|auto]. Qed.

Lemma service_name_of_run module st :
  Interactive.service_name_of module_settings module st
  = match Py.dict_get module_settings module with
    | Some settings => (Ok (ModuleInformation.service_name settings), st)
    | None => (Raise (Py.KeyError module), st)
    end.
Proof.
  unfold Interactive.service_name_of.
  destruct (Py.dict_get module_settings module); reflexivity.
Qed.

Lemma by_service_name_sound choice modules st :
  snd (Interactive.by_service_name module_settings choice modules st) = st
  /\ match fst (Interactive.by_service_name module_settings choice modules st) with
     | Ok (Some module) => module ∈ modules
     | Ok None => True
     | Raise e => no_settings modules e
     end.
Proof.
  induction modules as [|module rest IH]; [split; [reflexivity|exact I]|].
  cbn [Interactive.by_service_name]. unfold bind. rewrite service_name_of_run.
  destruct (Py.dict_get module_settings module) as [settings|] eqn:E.
  - destruct (String.eqb choice _).
    + split; [reflexivity|left].
    + destruct IH as [IH1 IH2]. split; [exact IH1|].
      destruct (fst (Interactive.by_service_name module_settings choice rest st))
        as [[m|]|e]; [right; exact IH2|exact I|apply no_settings_cons, IH2].
  - split; [reflexivity|]. exists module. split; [left|auto].
Qed.

Lemma module_lines_step i module rest st :
  Interactive.module_lines module_settings i (module :: rest) st
  = match Py.dict_get module_settings module with
    | Some settings =>
        Interactive.module_lines module_settings (i + 1) rest
          (with_stdout st
             (stdout st ++ [(PyStr.str_int i ++ ". "
                             ++ ModuleInformation.service_name settings
                             ++ " (" ++ module ++ ")")%string])%list)
    | None => (Raise (Py.KeyError module), st)
    end.
Proof.
  cbn [Interactive.module_lines]. unfold bind. rewrite service_name_of_run.
  destruct (Py.dict_get module_settings module); reflexivity.
Qed.

Lemma module_lines_sound modules : forall i st,
  same_lists st (snd (Interactive.module_lines module_settings i modules st))
  /\ match fst (Interactive.module_lines module_settings i modules st) with
     | Ok _ => True
     | Raise e => no_settings modules e
     end.
Proof.
  induction modules as [|module rest IH]; intros i st;
    [split; [split; reflexivity|exact I]|].
  rewrite module_lines_step.
  destruct (Py.dict_get module_settings module) as [settings|] eqn:E.
  - match goal with |- context [Interactive.module_lines _ _ _ ?s] =>
      destruct (IH (i + 1) s) as [[H1 H2] H3] end.
    split; [split; [exact H1|exact H2]|].
    destruct (fst (Interactive.module_lines module_settings (i + 1) rest _));
      [exact I|apply no_settings_cons, H3].
  - split; [split; reflexivity|]. exists module. split; [left|auto].
Qed.

Variable available_modules : list string.

(** What a turn comes to when the line is not taken for a number: the
    module of that name, or the first one whose service has that
    name. *)
Definition by_name (choice : string) (st : state)
    : result (option Interactive.module_choice) * state :=
  if bool_decide (choice ∈ available_modules)
  then (Ok (Some (Interactive.Module_ choice)), st)
  else match Interactive.by_service_name module_settings choice available_modules st
       with
       | (Ok (Some module), _) => (Ok (Some (Interactive.Module_ module)), st)
       | (Ok None, _) =>
           (Ok None,
            with_stdout st (stdout st ++ ["Invalid selection. Try again."])%list)
       | (Raise e, _) => (Raise e, st)
       end.

Lemma by_name_sound choice st :
  same_lists st (snd (by_name choice st))
  /\ match fst (by_name choice st) with
     | Ok (Some (Interactive.Module_ module)) => module ∈ available_modules
     | Ok _ => True
     | Raise e => no_settings available_modules e
     end.
Proof.
  unfold by_name.
  destruct (bool_decide_reflect (choice ∈ available_modules)) as [Hin|_];
    [split; [split; reflexivity|exact Hin]|].
  pose proof (proj2 (by_service_name_sound choice available_modules st)) as H.
  destruct (Interactive.by_service_name module_settings choice available_modules st)
    as [[[m|]|e] st']; (split; [split; reflexivity|exact H]).
Qed.

(** One turn of the dialog, case by case. *)
Lemma choose_module_run line st :
  let choice := PyStr.lower (PyStr.strip line) in
  Interactive.choose_module module_settings available_modules line st
  = if Interactive.isdigit choice then
      match PyStr.int choice with
      | None =>
          (Ok (Some Interactive.Exit),
           with_stdout st (stdout st ++ [(Py.nl ++ "Exiting...")%string])%list)
      | Some n =>
          match available_modules !! Z.to_nat (n - 1) with
          | Some module =>
              if (0 <=? n - 1) && (n - 1 <? Py.len available_modules)
              then (Ok (Some (Interactive.Module_ module)), st)
              else by_name choice st
          | None => by_name choice st
          end
      end
    else by_name choice st.
Proof.
  intros choice.
  assert (forall r : result (option string) * state,
            r = Interactive.by_service_name module_settings choice available_modules st ->
            snd r = st ->
            match fst r with
            | Raise e => no_settings available_modules e
            | _ => True
            end ->
            try_except
              (bind (ret (@None string))
                 (fun by_number =>
                    match by_number with
                    | Some module => ret (Some (Interactive.Module_ module))
                    | None =>
                        if bool_decide (choice ∈ available_modules)
                        then ret (Some (Interactive.Module_ choice))
                        else
                          bind (Interactive.by_service_name module_settings choice
                                  available_modules)
                            (fun by_name =>
                               match by_name with
                               | Some module => ret (Some (Interactive.Module_ module))
                               | None =>
                                   bind (print "Invalid selection. Try again.")
                                     (fun _ => ret None)
                               end)
                    end))
              catches_value
              (fun _ => bind (print (Py.nl ++ "Exiting...")) (fun _ => ret (Some Interactive.Exit)))
              st
            = by_name choice st) as Hname.
  { intros r Hr Hst Hfst. unfold by_name, try_except, bind at 1, ret at 1.
    destruct (bool_decide (choice ∈ available_modules)); [reflexivity|].
    unfold bind at 1. rewrite <- Hr. destruct r as [[[m|]|e] st']; simpl in Hst; subst st'.
    - reflexivity.
    - reflexivity.
    - destruct Hfst as (m & _ & -> & _). reflexivity. }
  specialize (Hname _ eq_refl
                (proj1 (by_service_name_sound choice available_modules st))).
  pose proof (proj2 (by_service_name_sound choice available_modules st)) as Hfst.
  assert (match fst (Interactive.by_service_name module_settings choice
                       available_modules st) with
          | Raise e => no_settings available_modules e
          | _ => True
          end) as Hfst'.
  { destruct (fst (Interactive.by_service_name module_settings choice
                     available_modules st)) as [[m|]|e]; auto. }
  specialize (Hname Hfst'). clear Hfst Hfst'.
  unfold Interactive.choose_module. fold choice.
  destruct (Interactive.isdigit choice); [|exact Hname].
  destruct (PyStr.int choice) as [n|]; [|reflexivity].
  cbn [of_option]. rewrite <- Hname.
  unfold try_except, bind, ret. cbv beta iota.
  destruct ((0 <=? n - 1) && (n - 1 <? Py.len available_modules)) eqn:Hr.
  - destruct (lookup_lt_is_Some_2 available_modules (Z.to_nat (n - 1))) as [m Hm];
      [unfold Py.len in Hr; lia|].
    rewrite Hm. reflexivity.
  - destruct (available_modules !! Z.to_nat (n - 1)); reflexivity.
Qed.

Lemma choose_module_sound line st :
  same_lists st
    (snd (Interactive.choose_module module_settings available_modules line st))
  /\ match fst (Interactive.choose_module module_settings available_modules line st)
     with
     | Ok (Some (Interactive.Module_ module)) => module ∈ available_modules
     | Ok _ => True
     | Raise e => no_settings available_modules e
     end.
Proof.
  rewrite choose_module_run. cbv zeta.
  pose proof (by_name_sound (PyStr.lower (PyStr.strip line)) st) as Hname.
  destruct (Interactive.isdigit _); [|exact Hname].
  destruct (PyStr.int _) as [n|]; [|split; [split; reflexivity|exact I]].
  destruct (available_modules !! Z.to_nat (n - 1)) as [m|] eqn:Hm; [|exact Hname].
  destruct ((0 <=? n - 1) && (n - 1 <? Py.len available_modules)); [|exact Hname].
  split; [split; reflexivity|]. eapply list_elem_of_lookup_2, Hm.
Qed.

Lemma module_loop_sound inputs : forall st,
  same_lists st (snd (Interactive.module_loop module_settings available_modules inputs st))
  /\ match fst (Interactive.module_loop module_settings available_modules inputs st)
     with
     | Ok (c, rest) =>
         rest `suffix_of` inputs /\ rest <> inputs
         /\ match c with
            | Interactive.Module_ module => module ∈ available_modules
            | Interactive.Exit => True
            end
     | Raise e => e = Py.EOFError \/ no_settings available_modules e
     end.
Proof.
  induction inputs as [|line rest IH]; intros st.
  - simpl. split; [split; reflexivity|left; reflexivity].
  - cbn [Interactive.module_loop]. unfold bind.
    destruct (choose_module_sound line st) as [Hsame Hc].
    destruct (Interactive.choose_module module_settings available_modules line st)
      as [[[c|]|e] st']; cbn [fst snd] in *.
    + split; [exact Hsame|]. split; [apply suffix_cons_r; reflexivity|].
      split; [|destruct c; [exact Hc|exact I]].
      intros E. apply (f_equal length) in E. simpl in E. lia.
    + destruct (IH st') as [H1 H2]. split.
      * destruct Hsame as [Ha Hb], H1 as [Hd He]. split; congruence.
      * destruct (fst (Interactive.module_loop module_settings available_modules
                         rest st')) as [[c rest']|e]; [|exact H2].
        destruct H2 as (Hsuf & Hne & Hc'). split; [apply suffix_cons_r, Hsuf|].
        split; [|exact Hc'].
        intros E. apply suffix_length in Hsuf. rewrite E in Hsuf. simpl in Hsuf. lia.
    + split; [exact Hsame|right; exact Hc].
Qed.

End WithOrpheus.

End ModuleFacts.

(** X17: [select_module] of the menu selector leaves the selection
    alone and returns only one of the available modules, unless it
    ends the program.  With exactly one module it returns that one,
    reading nothing; otherwise it reads at least one line.  The only
    errors it lets through are the end-of-input error of [input] and
    the [KeyError] of an available module that has no settings. *)
Theorem select_module_returns_available_module
    (module_settings : list (string * ModuleInformation.t))
    (available_modules inputs : list string) (st : Sel.state) :
  let run := Interactive.select_module module_settings available_modules inputs st in
  Sel.same_lists st (snd run)
  /\ match fst run with
     | Eff.Ok (c, rest) =>
         rest `suffix_of` inputs
         /\ (rest = inputs <-> exists module, available_modules = [module])
         /\ match c with
            | Interactive.Module_ module =>
                module ∈ available_modules
                /\ (length available_modules = 1%nat -> available_modules = [module])
            | Interactive.Exit => True
            end
     | Eff.Raise e =>
         length available_modules <> 1%nat
         /\ (e = Py.EOFError
             \/ exists module,
                  module ∈ available_modules /\ e = Py.KeyError module
                  /\ Py.dict_get module_settings module = None)
     end.
Proof.
  intros run. subst run.
  assert ((exists module, available_modules = [module])
          \/ ~ exists module, available_modules = [module]) as [[m ->]|Hmany].
  { destruct available_modules as [|m [|m' l]];
      [right; intros [m H]; discriminate H|left; eauto
      |right; intros [m0 H]; discriminate H]. }
  { simpl. split; [split; reflexivity|]. split; [reflexivity|].
    split; [split; eauto|]. split; [left|reflexivity]. }
  assert (length available_modules <> 1%nat) as Hlen.
  { intros H. apply Hmany. destruct available_modules as [|m [|m' l]]; try discriminate H.
    exists m. reflexivity. }
  assert (Interactive.select_module module_settings available_modules inputs st
          = Eff.bind (Sel.print "Available modules:")
              (fun _ => Eff.bind (Interactive.module_lines module_settings 1
                                    available_modules)
                          (fun _ => Interactive.module_loop module_settings
                                      available_modules inputs)) st) as ->.
  { unfold Interactive.select_module.
    destruct available_modules as [|m [|m' l]]; try reflexivity.
    exfalso. apply Hmany. exists m. reflexivity. }
  unfold Eff.bind at 1 3. unfold Sel.print at 1 2. cbn [fst snd].
  set (st1 := {| Sel.stdout := _ |}).
  assert (Sel.same_lists st st1) as H1 by (split; reflexivity). clearbody st1.
  unfold Eff.bind.
  destruct (ModuleFacts.module_lines_sound module_settings available_modules 1 st1)
    as [H2 H3].
  destruct (Interactive.module_lines module_settings 1 available_modules st1)
    as [[[]|e] st2]; cbn [fst snd] in *.
  - destruct (ModuleFacts.module_loop_sound module_settings available_modules inputs st2)
      as [H4 H5].
    split; [destruct H1, H2, H4; split; congruence|].
    destruct (fst (Interactive.module_loop module_settings available_modules inputs st2))
      as [[c rest]|e].
    + destruct H5 as (Hsuf & Hne & Hc). split; [exact Hsuf|].
      split; [split; intros H; contradiction|].
      destruct c; [split; [exact Hc|intros H; contradiction]|exact I].
    + split; [exact Hlen|exact H5].
  - split; [destruct H1, H2; split; congruence|]. split; [exact Hlen|right; exact H3].
Qed.

(** X18: what one line does in the module dialog, lower-cased and
    without the white space around it.  A line of digits that [int]
    rejects, such as a superscript two, ends the program.  A line of
    digits that is the number of a module listed returns that module.
    A line that is not made of digits and is the name of an available
    module returns it.  A line that is none of these and is not the
    lower-cased name of the service of any module is answered by one
    line, and the dialog asks again. *)
Theorem choose_module_by_number_or_name
    (module_settings : list (string * ModuleInformation.t))
    (available_modules : list string) (line : string) (st : Sel.state) :
  let choice := PyStr.lower (PyStr.strip line) in
  let turn := Interactive.choose_module module_settings available_modules line st in
  let says message := Sel.with_stdout st (Sel.stdout st ++ [message])%list in
  (Interactive.isdigit choice = true -> PyStr.int choice = None ->
   turn = (Eff.Ok (Some Interactive.Exit), says (Py.nl ++ "Exiting...")%string))
  /\ (forall n,
        Interactive.isdigit choice = true -> PyStr.int choice = Some n ->
        1 <= n <= Py.len available_modules ->
        exists module,
          available_modules !! Z.to_nat (n - 1) = Some module
          /\ turn = (Eff.Ok (Some (Interactive.Module_ module)), st))
  /\ (Interactive.isdigit choice = false -> choice ∈ available_modules ->
      turn = (Eff.Ok (Some (Interactive.Module_ choice)), st))
  /\ ((Interactive.isdigit choice = false
       \/ exists n, PyStr.int choice = Some n /\ ~ 1 <= n <= Py.len available_modules) ->
      choice ∉ available_modules ->
      Forall (fun module =>
                exists settings,
                  Py.dict_get module_settings module = Some settings
                  /\ PyStr.lower (ModuleInformation.service_name settings) <> choice)
             available_modules ->
      turn = (Eff.Ok None, says "Invalid selection. Try again.")).
Proof.
  intros choice turn says. subst turn.
  rewrite ModuleFacts.choose_module_run. cbv zeta. fold choice.
  split; [|split; [|split]].
  - intros -> ->. reflexivity.
  - intros n -> -> Hn.
    destruct (lookup_lt_is_Some_2 available_modules (Z.to_nat (n - 1))) as [m Hm];
      [unfold Py.len in Hn; lia|].
    rewrite Hm. exists m. split; [reflexivity|].
    replace ((0 <=? n - 1) && (n - 1 <? Py.len available_modules)) with true by lia.
    reflexivity.
  - intros -> Hin. unfold ModuleFacts.by_name.
    rewrite bool_decide_eq_true_2 by exact Hin. reflexivity.
  - intros Hnum Hnot Hall.
    assert (ModuleFacts.by_name module_settings available_modules choice st
            = (Eff.Ok None, says "Invalid selection. Try again.")) as Hname.
    { unfold ModuleFacts.by_name. rewrite bool_decide_eq_false_2 by exact Hnot.
      assert (Interactive.by_service_name module_settings choice available_modules st
              = (Eff.Ok None, st)) as ->; [|reflexivity].
      clear Hnot Hnum. induction Hall as [|m l (settings & Hs & Hne) _ IH];
        [reflexivity|].
      cbn [Interactive.by_service_name]. unfold Eff.bind.
      rewrite ModuleFacts.service_name_of_run, Hs.
      destruct (String.eqb_spec choice (PyStr.lower (ModuleInformation.service_name settings)))
        as [E|_]; [congruence|exact IH]. }
    destruct (Interactive.isdigit choice); [|exact Hname].
    destruct Hnum as [Hd|(n & -> & Hout)]; [discriminate Hd|].
    replace ((0 <=? n - 1) && (n - 1 <? Py.len available_modules)) with false by lia.
    destruct (available_modules !! Z.to_nat (n - 1)); exact Hname.
Qed.

Lemma choose_module_by_number_or_name_witness :
  Interactive.choose_module Fixtures.settings ["qobuz"; "tidal"]
    (String "178" "") Sel.init
  = (Eff.Ok (Some Interactive.Exit),
     Sel.with_stdout Sel.init [(Py.nl ++ "Exiting...")%string])
  /\ Interactive.choose_module Fixtures.settings ["qobuz"; "tidal"] " 02 " Sel.init
     = (Eff.Ok (Some (Interactive.Module_ "tidal")), Sel.init)
  /\ Interactive.choose_module Fixtures.settings ["qobuz"; "tidal"] "Tidal" Sel.init
     = (Eff.Ok (Some (Interactive.Module_ "tidal")), Sel.init).
Proof.
  split; [|split].
  - exact (proj1 (choose_module_by_number_or_name Fixtures.settings ["qobuz"; "tidal"]
                    (String "178" "") Sel.init) eq_refl eq_refl).
  - destruct (proj1 (proj2 (choose_module_by_number_or_name Fixtures.settings
                              ["qobuz"; "tidal"] " 02 " Sel.init))
                2 eq_refl eq_refl ltac:(vm_compute; split; discriminate))
      as (module & Hlook & Hrun).
    injection Hlook as <-. exact Hrun.
  - apply (proj1 (proj2 (proj2 (choose_module_by_number_or_name Fixtures.settings
                                  ["qobuz"; "tidal"] "Tidal" Sel.init))) eq_refl).
    right. left.
Defined.

(** X19: [quit_application] of the menu selector asks about saving
    only when albums are selected, and never changes the selection or
    the URL list.  Without selected albums it reads nothing and writes
    nothing.  With selected albums, unless the first line typed is [n]
    or [no], the file named by the second line is written like
    [save_workflow] writes it, but without a question when it is
    there already: whatever it held is replaced.  In each case the
    program then ends with [sys.exit(0)]. *)
Theorem quit_saves_without_asking (unwritable : string -> bool)
    (strerror : string -> string)
    (inputs : list string) (st : Sel.state) (d : Files.disk) :
  let run := Interactive.quit_application unwritable strerror inputs (st, d) in
  Sel.same_lists st (fst (snd run))
  /\ (Sel.selected_albums st = [] ->
      fst run = Eff.Ok (Interactive.SystemExit 0, inputs) /\ snd (snd run) = d)
  /\ (forall save rest,
        Sel.selected_albums st <> [] -> inputs = save :: rest ->
        PyStr.lower (PyStr.strip save) ∈ ["n"; "no"] ->
        fst run = Eff.Ok (Interactive.SystemExit 0, rest) /\ snd (snd run) = d)
  /\ (forall save typed rest,
        Sel.selected_albums st <> [] -> inputs = save :: typed :: rest ->
        PyStr.lower (PyStr.strip save) ∉ ["n"; "no"] ->
        fst run = Eff.Ok (Interactive.SystemExit 0, rest)
        /\ snd (snd run)
           = if negb (unwritable (Interactive.with_txt typed))
                && bool_decide (Sel.album_urls st <> [])
             then <[Interactive.with_txt typed := Files.written (Sel.album_urls st)]> d
             else d).
Proof.
  intros run. subst run.
  destruct (Sel.selected_albums st) as [|s0 sel0] eqn:Esel.
  { assert (Interactive.quit_application unwritable strerror inputs (st, d)
            = (Eff.Ok (Interactive.SystemExit 0, inputs),
               (snd (Sel.print (Py.nl ++ "Goodbye! 🎵") st), d))) as ->.
    { unfold Interactive.quit_application.
      unfold Eff.bind at 1. unfold Eff.get at 1. cbn [fst snd]. rewrite Esel.
      reflexivity. }
    split; [split; reflexivity|]. split; [auto|].
    split; intros; contradiction. }
  rewrite <- Esel.
  assert (Sel.selected_albums st <> []) as Hsel by (rewrite Esel; discriminate).
  set (st1 := snd (Sel.print (Py.nl ++ "You have "
                              ++ PyStr.str_int (Py.len (Sel.selected_albums st))
                              ++ " album(s) selected.") st)).
  assert (Sel.same_lists st st1) as H1 by (split; reflexivity).
  assert (forall line rest', inputs = line :: rest' ->
            Interactive.quit_application unwritable strerror inputs (st, d)
            = (if bool_decide (PyStr.lower (PyStr.strip line) ∈ ["n"; "no"])
               then (Eff.Ok (Interactive.SystemExit 0, rest'),
                     (snd (Sel.print (Py.nl ++ "Goodbye! 🎵") st1), d))
               else match rest' with
                    | [] => (Eff.Raise Py.EOFError, (st1, d))
                    | typed :: rest =>
                        let saved :=
                          snd (Interactive.save_to_file unwritable strerror
                                 (Interactive.with_txt typed) (st1, d)) in
                        (Eff.Ok (Interactive.SystemExit 0, rest),
                         (snd (Sel.print (Py.nl ++ "Goodbye! 🎵") (fst saved)),
                          snd saved))
                    end)) as Hrun.
  { intros line rest' ->. unfold Interactive.quit_application.
    unfold Eff.bind at 1. unfold Eff.get at 1. cbn [fst snd]. rewrite Esel.
    rewrite <- Esel.
    unfold Interactive.on_selector, Interactive.input, Eff.bind, Eff.ret, Sel.print.
    cbn [fst snd].
    destruct (bool_decide _); [reflexivity|].
    destruct rest' as [|typed rest]; [reflexivity|].
    cbn [fst snd]. cbv zeta. rewrite !SaveFacts.save_to_file_run. reflexivity. }
  destruct inputs as [|line rest'].
  { assert (Interactive.quit_application unwritable strerror [] (st, d)
            = (Eff.Raise Py.EOFError, (st1, d))) as ->.
    { unfold Interactive.quit_application.
      unfold Eff.bind at 1. unfold Eff.get at 1. cbn [fst snd]. rewrite Esel.
      rewrite <- Esel. reflexivity. }
    split; [exact H1|]. split; [intros H; contradiction|].
    split; intros; discriminate. }
  rewrite (Hrun line rest' eq_refl). clear Hrun.
  split; [|split; [intros H; contradiction|split]].
  - destruct (bool_decide _); [exact H1|].
    destruct rest' as [|typed rest]; [exact H1|].
    cbv zeta. rewrite SaveFacts.save_to_file_run. cbn [fst snd].
    destruct (Sel.album_urls st1); [exact H1|].
    destruct (unwritable _); exact H1.
  - intros save rest _ [= <- <-] Hno.
    rewrite bool_decide_eq_true_2 by exact Hno. split; reflexivity.
  - intros save typed rest _ [= -> ->] Hyes.
    rewrite bool_decide_eq_false_2 by exact Hyes. cbv zeta.
    rewrite SaveFacts.save_to_file_run. cbn [fst snd].
    split; [reflexivity|].
    change (Sel.album_urls st1) with (Sel.album_urls st).
    destruct (Sel.album_urls st) as [|u urls]; [rewrite andb_false_r; reflexivity|].
    rewrite bool_decide_eq_true_2 by discriminate.
    destruct (unwritable _); reflexivity.
Qed.

Lemma quit_saves_without_asking_witness :
  let st :=
    {| Sel.selected_albums := [Common.loaded "http://example.org/2"];
       Sel.album_urls := ["http://example.org/2"];
       Sel.stdout := [] |} in
  let d : Files.disk := {["album_links.txt" := "kept so far"]} in
  snd (snd (Interactive.quit_application (fun _ => false) (fun _ => "") [""; ""] (st, d)))
    !! "album_links.txt"
  = Some (Files.written ["http://example.org/2"]).
Proof.
  intros st d.
  assert (Sel.selected_albums st <> []) as Hsel by discriminate.
  assert (PyStr.lower (PyStr.strip "") ∉ ["n"; "no"]) as Hyes.
  { intros H. apply elem_of_cons in H as [H|H]; [discriminate H|].
    apply list_elem_of_singleton in H. discriminate H. }
  rewrite (proj2 (proj2 (proj2 (proj2 (quit_saves_without_asking (fun _ => false) (fun _ => "")
                                       [""; ""] st d))) "" "" [] Hsel eq_refl Hyes)).
  reflexivity.
Defined.
